(** * Complexity report for network configurations: model and properties

    Shallow embedding of the script [import os.py] (Anexo I), which counts
    the code lines of every configuration file of a directory, ranks the
    files by that count and writes a comparison against the simplest file
    and against a reference file found by name.

    Conventions of the embedding.
    - A Python [str] is a [string]; each [ascii] stands for the code point
      of the same number, so the model covers text in the range U+0000 to
      U+00FF, with Python's own whitespace and lower-case tables there.
    - A Python [int] is a [Z]; a Python [float] is a binary64 number of
      [SpecFloat] (precision 53, [emax] 1024).
    - The records built by [main] are Python dictionaries that are shared
      between the lists [resultados], [resultados_ordenados] and the
      variable [referencia] and mutated in place: they live in a heap and
      are handled through references.
    - Effects (heap, console, the CSV file, exceptions) are threaded by the
      monad [Py].
    - The file system is a value of [Mundo]: the directory, its
      permissions and its entries.  The calls that reach it fail as the
      system calls do: [os.listdir] on a missing or unreadable directory,
      [open] for reading on a file that does not open, [open] for writing
      on a name that cannot be opened or created.  Standard output takes
      every line, and a file that has been opened is read or written to
      its end: failures of the device in the middle of a transfer are
      outside the model. *)

From Stdlib Require Import ZArith String Ascii List Sorted Floats.SpecFloat Lia.
From stdpp Require Import base list.
Import ListNotations.

Local Open Scope Z_scope.

(** ** Text builtins *)

Module PyStr.

(** [str.isspace] on one character, for code points below 256. *)
Definition isspace (c : ascii) : bool :=
  let n := Z.of_N (N_of_ascii c) in
  ((9 <=? n) && (n <=? 13)) || ((28 <=? n) && (n <=? 32))
  || (n =? 133) || (n =? 160).

Fixpoint lstrip (s : string) : string :=
  match s with
  | EmptyString => EmptyString
  | String c s' => if isspace c then lstrip s' else s
  end.

Fixpoint rstrip (s : string) : string :=
  match s with
  | EmptyString => EmptyString
  | String c s' =>
      match rstrip s' with
      | EmptyString => if isspace c then EmptyString else String c EmptyString
      | t => String c t
      end
  end.

(** [s.strip()]: whitespace removed at both ends. *)
Definition strip (s : string) : string := rstrip (lstrip s).

(** [s.startswith(p)] and its form with a tuple of prefixes. *)
Fixpoint startswith (s p : string) {struct p} : bool :=
  match p with
  | EmptyString => true
  | String c p' =>
      match s with
      | EmptyString => false
      | String d s' => Ascii.eqb d c && startswith s' p'
      end
  end.

Definition startswith_tuple (s : string) (ps : list string) : bool :=
  existsb (startswith s) ps.

(** [s.endswith(p)] for a one-character [p]. *)
Fixpoint endswith_char (s : string) (c : ascii) : bool :=
  match s with
  | EmptyString => false
  | String d EmptyString => Ascii.eqb d c
  | String _ s' => endswith_char s' c
  end.

(** [sub in s]. *)
Fixpoint contains (sub s : string) : bool :=
  startswith s sub
  || match s with
     | EmptyString => false
     | String _ s' => contains sub s'
     end.

Definition lower_char (c : ascii) : ascii :=
  let n := Z.of_N (N_of_ascii c) in
  if ((65 <=? n) && (n <=? 90))
     || ((192 <=? n) && (n <=? 222) && negb (n =? 215))
  then ascii_of_N (Z.to_N (n + 32))
  else c.

(** [s.lower()]. *)
Fixpoint lower (s : string) : string :=
  match s with
  | EmptyString => EmptyString
  | String c s' => String (lower_char c) (lower s')
  end.

(** [s.rfind(c)] for a one-character [c]: the last index, or [-1]. *)
Fixpoint rfind (s : string) (c : ascii) : Z :=
  match s with
  | EmptyString => -1
  | String d s' =>
      let i := rfind s' c in
      if 0 <=? i then i + 1 else if Ascii.eqb d c then 0 else -1
  end.

(** The slices [s[i:]] and [s[:i]] for [0 <= i]. *)
Definition desde (s : string) (i : Z) : string :=
  substring (Z.to_nat i) (String.length s - Z.to_nat i) s.

Definition hasta (s : string) (i : Z) : string :=
  substring 0 (Z.to_nat i) s.

(** Truth value of a string: non-empty. *)
Definition truthy (s : string) : bool :=
  match s with EmptyString => false | _ => true end.

End PyStr.

(** ** Path functions of [os.path] (POSIX) *)

Module OsPath.
Import PyStr.

Definition sep : ascii := "/"%char.

(** [os.path.join(a, b)]. *)
Definition join (a b : string) : string :=
  if startswith b (String sep EmptyString) then b
  else if negb (truthy a) || endswith_char a sep then (a ++ b)%string
  else (a ++ String sep b)%string.

(** [os.path.basename(p)]. *)
Definition basename (p : string) : string :=
  let i := rfind p sep + 1 in
  desde p i.

(** Is some character of [s] different from a dot? *)
Fixpoint hay_no_punto (s : string) : bool :=
  match s with
  | EmptyString => false
  | String c s' => negb (Ascii.eqb c "."%char) || hay_no_punto s'
  end.

(** [os.path.splitext(p)]: the extension starts at the last dot of the
    last component, leading dots of that component apart. *)
Definition splitext (p : string) : string * string :=
  let sepIndex := rfind p sep in
  let dotIndex := rfind p "."%char in
  if sepIndex <? dotIndex then
    let filenameIndex := sepIndex + 1 in
    if hay_no_punto (hasta (desde p filenameIndex) (dotIndex - filenameIndex))
    then (hasta p dotIndex, desde p dotIndex)
    else (p, EmptyString)
  else (p, EmptyString).

End OsPath.

(** ** Sorting

    [sorted] is stable and compares with [<] only.  As a function it is the
    stable insertion sort: an element goes in front of the first later
    element that is not smaller than it. *)

Section Sorted.
Context {A : Type} (lt : A → A → bool).

Fixpoint insertar (x : A) (l : list A) : list A :=
  match l with
  | [] => [x]
  | y :: l' => if lt y x then y :: insertar x l' else x :: l
  end.

Fixpoint sorted (l : list A) : list A :=
  match l with
  | [] => []
  | x :: l' => insertar x (sorted l')
  end.
End Sorted.

(** [sorted(l, key=key)] with integer keys. *)
Definition sorted_key {A : Type} (key : A → Z) : list A → list A :=
  sorted (λ a b, key a <? key b).

(** [sorted(l)] on strings: lexicographic order of the code points. *)
Definition sorted_str : list string → list string := sorted String.ltb.

(** ** Floats *)

Module PyFloat.

Definition float : Type := spec_float.
Definition prec : Z := 53.
Definition emax : Z := 1024.

Definition cero : float := S754_zero false.

(** The float of a small integer literal. *)
Definition of_int (n : Z) : float := binary_normalize prec emax n 0 false.

Definition mul (x y : float) : float := SFmul prec emax x y.

(** The quotient [a / b] of two integers, [b] not zero: the float nearest
    to the exact quotient; an infinite result stands for the overflow
    that the caller reports. *)
Definition div_int (a b : Z) : float :=
  match a with
  | Z0 => S754_zero (b <? 0)
  | _ => SFdiv prec emax
           (S754_finite (a <? 0) (Z.to_pos (Z.abs a)) 0)
           (S754_finite (b <? 0) (Z.to_pos (Z.abs b)) 0)
  end.

(** [m * 2^e * 100] rounded to an integer, halves to even. *)
Definition centesimas (m : positive) (e : Z) : Z :=
  match e with
  | Zneg p =>
      let num := Zpos m * 100 in
      let den := Z.pow_pos 2 p in
      let q := num / den in
      let r := num mod den in
      match 2 * r ?= den with
      | Lt => q
      | Gt => q + 1
      | Eq => if Z.even q then q else q + 1
      end
  | _ => Zpos m * 2 ^ e * 100
  end.

(** [round(x, 2)]: the exact value of [x] is rounded to two decimals,
    halves to even, and the decimal is converted back to the nearest
    float; zeros, infinities and NaN are returned as they are. *)
Definition round2 (x : float) : float :=
  match x with
  | S754_finite s m e =>
      match centesimas m e with
      | Zpos n => SFdiv prec emax (S754_finite s n 0) (S754_finite false 100 0)
      | _ => S754_zero s
      end
  | _ => x
  end.

End PyFloat.

(** ** Configuration constants of the script *)

Definition CONFIG_DIR : string := ".".
Definition EXTENSIONS : list string := [".cfg"; ".conf"; ".txt"; ""]%string.
Definition IGNORE_COMMENTS : bool := true.
Definition COMMENT_PREFIXES : list string := ["#"; "!"; "//"]%string.
Definition REFERENCIA_KEYWORD : string := "mpls".

(** ** Line classifier *)

Definition es_linea_valida (linea : string) : bool :=
  let linea_limpia := PyStr.strip linea in
  if negb (PyStr.truthy linea_limpia) then false
  else if IGNORE_COMMENTS && PyStr.startswith_tuple linea_limpia COMMENT_PREFIXES
  then false
  else true.

(** The loop of [contar_lineas_config] over the lines of an open file. *)
Definition contar_lineas (lineas : list string) : Z :=
  fold_left (λ contador linea,
               if es_linea_valida linea then contador + 1 else contador)
            lineas 0.

(** What the specification calls a code line: not blank once trimmed and,
    when comments are ignored, not starting with a comment prefix. *)
Definition linea_de_codigo_spec
    (ignorar : bool) (prefijos : list string) (linea : string) : bool :=
  let t := PyStr.strip linea in
  negb (String.eqb t EmptyString)
  && negb (ignorar && existsb (λ p, PyStr.startswith t p) prefijos).

(** ** The directory the script reads and writes

    One directory, at [CONFIG_DIR], which is also the working directory:
    the script reads the files of [.] and writes its report by a relative
    name.  An entry is a regular file or not ([os.path.isfile]); the text
    of a file is the list of its lines as [open] with [errors="ignore"]
    decodes them, or [None] when the file cannot be opened for reading
    (the bytes and their decoding are not modelled); [ent_escribible]
    tells whether
    [open(..., "w")] on the entry succeeds (never for a subdirectory, and
    not for a file without write permission).  The directory itself may
    exist without permission to list it, or without permission to create
    a file in it. *)

Record Entrada := {
  ent_nombre : string;
  ent_es_archivo : bool;
  ent_lineas : option (list string);
  ent_escribible : bool
}.

Record Mundo := {
  dir_existe : bool;
  (** [os.listdir] is permitted *)
  dir_legible : bool;
  (** a new file can be created in the directory *)
  dir_escribible : bool;
  dir_listado : list Entrada
}.

(** ** Records, console and state *)

(** The dictionary built for each file; [None] is Python's [None]. *)
Record Registro := {
  archivo : string;
  lineas_codigo : Z;
  diff_vs_min_abs : option Z;
  diff_vs_min_pct : option PyFloat.float;
  diff_vs_ref_abs : option Z;
  diff_vs_ref_pct : option PyFloat.float
}.

Global Instance Registro_inhabited : Inhabited Registro :=
  populate {| archivo := EmptyString; lineas_codigo := 0;
              diff_vs_min_abs := None; diff_vs_min_pct := None;
              diff_vs_ref_abs := None; diff_vs_ref_pct := None |}.

(** A reference to a dictionary of the heap. *)
Definition Ref : Type := nat.

(** The messages that [main] prints, each with the values that its text
    interpolates.  A heading printed right above a line of data belongs to
    the message of that line: [MasSimple], [MasComplejo] and [Referencia]
    stand for two calls of [print] each. *)
Inductive Evento :=
  | ErrorCarpeta (dir : string)
  | AyudaCarpeta
  | AvisoSinArchivos (dir : string)
  | Titulo
  | Regla
  | LineaConteo (nombre : string) (num_lineas : Z)
  | TituloResumen
  | LineaResumen (nombre : string) (lineas diff_abs : Z) (pct : PyFloat.float)
  | MasSimple (nombre : string) (lineas : Z)
  | MasComplejo (nombre : string) (lineas : Z)
  | Extremos (diff : Z) (pct : PyFloat.float)
  | Referencia (nombre : string) (lineas : Z)
  | TituloComparacion
  | LineaReferencia (nombre : string) (lineas : Z) (signo : string)
                    (diff_abs : Z) (pct : PyFloat.float)
  | NotaSinReferencia
  | CsvGenerado.

Record Estado := {
  heap : list Registro;
  consola : list Evento;
  (** the rows of [resumen_configuraciones.csv], once written *)
  csv : option (list Registro)
}.

Definition inicial : Estado := {| heap := []; consola := []; csv := None |}.

Inductive Excepcion :=
  | OSError | ZeroDivisionError | OverflowError | IndexError | TypeError.

Inductive Res (A : Type) :=
  | Ok (a : A)
  | Raise (e : Excepcion).
Arguments Ok {A} a.
Arguments Raise {A} e.

Global Instance Res_ret : MRet Res := λ A a, Ok a.

Global Instance Res_bind : MBind Res := λ A B f m,
  match m with
  | Ok a => f a
  | Raise e => Raise e
  end.

Global Instance Res_fmap : FMap Res := λ A B f m,
  match m with
  | Ok a => Ok (f a)
  | Raise e => Raise e
  end.

(** ** The monad of the script: state and exceptions *)

Definition Py (A : Type) : Type := Estado → Res A * Estado.

Global Instance Py_ret : MRet Py := λ A a s, (Ok a, s).

Global Instance Py_bind : MBind Py := λ A B f m s,
  match m s with
  | (Ok a, s') => f a s'
  | (Raise e, s') => (Raise e, s')
  end.

Definition raise {A : Type} (e : Excepcion) : Py A := λ s, (Raise e, s).

(** A computation that only returns or raises. *)
Definition lift {A : Type} (r : Res A) : Py A := λ s, (r, s).

(** The heap as it is now. *)
Definition ver_heap : Py (list Registro) := λ s, (Ok (heap s), s).

Definition print (ev : Evento) : Py unit := λ s,
  (Ok tt, {| heap := heap s; consola := consola s ++ [ev]; csv := csv s |}).

(** A new dictionary. *)
Definition nuevo (r : Registro) : Py Ref := λ s,
  (Ok (length (heap s)),
   {| heap := heap s ++ [r]; consola := consola s; csv := csv s |}).

(** The dictionary behind a reference. *)
Definition leer (p : Ref) : Py Registro := λ s, (Ok (heap s !!! p), s).

(** An assignment [r[campo] = v]. *)
Definition asignar (p : Ref) (f : Registro → Registro) : Py unit := λ s,
  (Ok tt, {| heap := alter f p (heap s); consola := consola s; csv := csv s |}).

Definition escribir_csv (filas : list Registro) : Py unit := λ s,
  (Ok tt, {| heap := heap s; consola := consola s; csv := Some filas |}).

(** [for x in l: cuerpo] *)
Fixpoint for_ {A : Type} (l : list A) (cuerpo : A → Py unit) : Py unit :=
  match l with
  | [] => mret tt
  | x :: l' => cuerpo x;; for_ l' cuerpo
  end.

(** A [for] loop that grows a local list. *)
Fixpoint for_lista {A B : Type} (l : list A) (acc : list B)
    (cuerpo : list B → A → Py (list B)) : Py (list B) :=
  match l with
  | [] => mret acc
  | x :: l' => acc' ← cuerpo acc x; for_lista l' acc' cuerpo
  end.

(** Formatting with [d] or [f] fails on [None]. *)
Definition formato {A : Type} (v : option A) : Res A :=
  match v with
  | Some x => Ok x
  | None => Raise TypeError
  end.

(** [a / b] on integers. *)
Definition truediv (a b : Z) : Res PyFloat.float :=
  if b =? 0 then Raise ZeroDivisionError
  else match PyFloat.div_int a b with
       | S754_infinity _ => Raise OverflowError
       | q => Ok q
       end.

(** [l[0]] and [l[-1]]. *)
Definition primero {A : Type} (l : list A) : Res A :=
  match l with
  | [] => Raise IndexError
  | x :: _ => Ok x
  end.

Definition ultimo {A : Type} (l : list A) : Res A :=
  match last l with
  | None => Raise IndexError
  | Some x => Ok x
  end.

(** ** File access *)

Definition isdir (w : Mundo) (d : string) : bool :=
  dir_existe w && String.eqb d CONFIG_DIR.

(** [os.listdir(d)] raises [OSError] when [d] is not a directory, and also
    when it is one that the process may not list. *)
Definition listdir (w : Mundo) (d : string) : Py (list string) :=
  if isdir w d then
    if dir_legible w then mret (ent_nombre <$> dir_listado w)
    else raise OSError
  else raise OSError.

Definition buscar (w : Mundo) (ruta : string) : option Entrada :=
  if dir_existe w then
    List.find (λ e, String.eqb (OsPath.join CONFIG_DIR (ent_nombre e)) ruta)
              (dir_listado w)
  else None.

Definition isfile (w : Mundo) (ruta : string) : bool :=
  match buscar w ruta with
  | Some e => ent_es_archivo e
  | None => false
  end.

(** [open(ruta, "r", encoding="utf-8", errors="ignore")] followed by the
    iteration over the file: the lines, or [OSError]. *)
Definition abrir (w : Mundo) (ruta : string) : Py (list string) :=
  match buscar w ruta with
  | Some e =>
      if ent_es_archivo e then
        match ent_lineas e with
        | Some lineas => mret lineas
        | None => raise OSError
        end
      else raise OSError
  | None => raise OSError
  end.

(** Does [open(nombre, "w", ...)] succeed?  On an existing entry the entry
    decides; otherwise the file has to be created in the directory. *)
Definition puede_escribir (w : Mundo) (nombre : string) : bool :=
  match List.find (λ e, String.eqb (ent_nombre e) nombre) (dir_listado w) with
  | Some e => ent_escribible e
  | None => dir_escribible w
  end.

(** [open(nombre, "w", newline="", encoding="utf-8")] for a relative
    [nombre]: the file is opened, or [OSError] is raised. *)
Definition abrir_escritura (w : Mundo) (nombre : string) : Py unit :=
  if dir_existe w && puede_escribir w nombre then mret tt else raise OSError.

(** ** The functions of the script *)

Definition contar_lineas_config (w : Mundo) (ruta_archivo : string) : Py Z :=
  lineas ← abrir w ruta_archivo;
  mret (contar_lineas lineas).

(** The body of the loop of [obtener_archivos_config]. *)
Definition obtener_archivos_paso (w : Mundo) (directorio : string)
    (archivos : list string) (entrada : string) : Py (list string) :=
  let ruta := OsPath.join directorio entrada in
  if isfile w ruta then
    let ext := snd (OsPath.splitext entrada) in
    if existsb (String.eqb ext) EXTENSIONS
    then mret (archivos ++ [ruta])
    else mret archivos
  else mret archivos.

Definition obtener_archivos_config (w : Mundo) (directorio : string)
    : Py (list string) :=
  entradas ← listdir w directorio;
  archivos ← for_lista entradas [] (obtener_archivos_paso w directorio);
  mret (sorted_str archivos).

(** The name test of [encontrar_referencia]. *)
Definition es_referencia (nombre : string) : bool :=
  PyStr.contains (PyStr.lower REFERENCIA_KEYWORD) (PyStr.lower nombre)
  && negb (PyStr.contains "srv" (PyStr.lower nombre)).

Fixpoint encontrar_referencia (resultados : list Ref) : Py (option Ref) :=
  match resultados with
  | [] => mret None
  | r :: resto =>
      reg ← leer r;
      if es_referencia (archivo reg) then mret (Some r)
      else encontrar_referencia resto
  end.

(** The default value of the parameter [nombre_csv] of [guardar_csv];
    [main] calls it with that name. *)
Definition nombre_csv : string := "resumen_configuraciones.csv".

Definition guardar_csv (w : Mundo) (resultados : list Ref) : Py unit :=
  abrir_escritura w nombre_csv;;
  h ← ver_heap;
  escribir_csv ((λ r, h !!! r) <$> resultados).

(** Field assignments on a dictionary. *)
Definition set_diff_vs_min_abs (v : Z) (r : Registro) : Registro :=
  {| archivo := archivo r; lineas_codigo := lineas_codigo r;
     diff_vs_min_abs := Some v; diff_vs_min_pct := diff_vs_min_pct r;
     diff_vs_ref_abs := diff_vs_ref_abs r; diff_vs_ref_pct := diff_vs_ref_pct r |}.

Definition set_diff_vs_min_pct (v : PyFloat.float) (r : Registro) : Registro :=
  {| archivo := archivo r; lineas_codigo := lineas_codigo r;
     diff_vs_min_abs := diff_vs_min_abs r; diff_vs_min_pct := Some v;
     diff_vs_ref_abs := diff_vs_ref_abs r; diff_vs_ref_pct := diff_vs_ref_pct r |}.

Definition set_diff_vs_ref_abs (v : Z) (r : Registro) : Registro :=
  {| archivo := archivo r; lineas_codigo := lineas_codigo r;
     diff_vs_min_abs := diff_vs_min_abs r; diff_vs_min_pct := diff_vs_min_pct r;
     diff_vs_ref_abs := Some v; diff_vs_ref_pct := diff_vs_ref_pct r |}.

Definition set_diff_vs_ref_pct (v : PyFloat.float) (r : Registro) : Registro :=
  {| archivo := archivo r; lineas_codigo := lineas_codigo r;
     diff_vs_min_abs := diff_vs_min_abs r; diff_vs_min_pct := diff_vs_min_pct r;
     diff_vs_ref_abs := diff_vs_ref_abs r; diff_vs_ref_pct := Some v |}.

(** [(diff / base * 100) if base > 0 else 0.0] *)
Definition porcentaje (diff base : Z) : Res PyFloat.float :=
  if 0 <? base then
    q ← truediv diff base;
    mret (PyFloat.mul q (PyFloat.of_int 100))
  else mret PyFloat.cero.

(** Step 1 of [main]: one dictionary for each file. *)
Definition main_conteo_paso (w : Mundo)
    (resultados : list Ref) (ruta : string) : Py (list Ref) :=
  let nombre := OsPath.basename ruta in
  num_lineas ← contar_lineas_config w ruta;
  r ← nuevo {| archivo := nombre; lineas_codigo := num_lineas;
               diff_vs_min_abs := None; diff_vs_min_pct := None;
               diff_vs_ref_abs := None; diff_vs_ref_pct := None |};
  print (LineaConteo nombre num_lineas);;
  mret (resultados ++ [r]).

Definition main_conteo (w : Mundo) (archivos : list string) : Py (list Ref) :=
  for_lista archivos [] (main_conteo_paso w).

(** Step 4 of [main]: the body of the loop over the sorted records. *)
Definition main_diferencias
    (min_lineas : Z) (ref_lineas : option Z) (r : Ref) : Py unit :=
  reg ← leer r;
  let lineas := lineas_codigo reg in
  let diff_min_abs := lineas - min_lineas in
  diff_min_pct ← lift (porcentaje diff_min_abs min_lineas);
  asignar r (set_diff_vs_min_abs diff_min_abs);;
  asignar r (set_diff_vs_min_pct (PyFloat.round2 diff_min_pct));;
  match ref_lineas with
  | Some ref_lineas =>
      let diff_ref_abs := lineas - ref_lineas in
      diff_ref_pct ← lift (porcentaje diff_ref_abs ref_lineas);
      asignar r (set_diff_vs_ref_abs diff_ref_abs);;
      asignar r (set_diff_vs_ref_pct (PyFloat.round2 diff_ref_pct))
  | None => mret tt
  end.

(** Step 5 of [main]: the two loops that print one line for each record. *)
Definition main_linea_resumen (r : Ref) : Py unit :=
  reg ← leer r;
  diff_abs ← lift (formato (diff_vs_min_abs reg));
  pct ← lift (formato (diff_vs_min_pct reg));
  print (LineaResumen (archivo reg) (lineas_codigo reg) diff_abs pct).

Definition main_linea_referencia (r : Ref) : Py unit :=
  reg ← leer r;
  match diff_vs_ref_abs reg with
  | None => mret tt
  | Some diff_abs =>
      let signo := if 0 <=? diff_abs then "+"%string else ""%string in
      pct ← lift (formato (diff_vs_ref_pct reg));
      print (LineaReferencia (archivo reg) (lineas_codigo reg) signo diff_abs pct)
  end.

Definition main (w : Mundo) : Py unit :=
  if negb (isdir w CONFIG_DIR) then
    print (ErrorCarpeta CONFIG_DIR);;
    print AyudaCarpeta
  else
    archivos ← obtener_archivos_config w CONFIG_DIR;
    match archivos with
    | [] => print (AvisoSinArchivos CONFIG_DIR)
    | _ =>
      print Titulo;;
      print Regla;;
      resultados ← main_conteo w archivos;
      print Regla;;
      h ← ver_heap;
      let resultados_ordenados :=
        sorted_key (λ x : Ref, lineas_codigo (h !!! x)) resultados in
      mas_simple ← lift (primero resultados_ordenados);
      mas_complejo ← lift (ultimo resultados_ordenados);
      simple ← leer mas_simple;
      complejo ← leer mas_complejo;
      let min_lineas := lineas_codigo simple in
      let max_lineas := lineas_codigo complejo in
      referencia ← encontrar_referencia resultados_ordenados;
      ref_lineas ← match referencia with
                    | Some p => reg ← leer p; mret (Some (lineas_codigo reg))
                    | None => mret None
                    end;
      for_ resultados_ordenados (main_diferencias min_lineas ref_lineas);;
      print TituloResumen;;
      for_ resultados_ordenados main_linea_resumen;;
      simple ← leer mas_simple;
      print (MasSimple (archivo simple) (lineas_codigo simple));;
      complejo ← leer mas_complejo;
      print (MasComplejo (archivo complejo) (lineas_codigo complejo));;
      let diff_extremos := max_lineas - min_lineas in
      diff_extremos_pct ← lift (porcentaje diff_extremos max_lineas);
      print (Extremos diff_extremos diff_extremos_pct);;
      match referencia with
      | Some p =>
          reg ← leer p;
          print (Referencia (archivo reg) (lineas_codigo reg));;
          print TituloComparacion;;
          for_ resultados_ordenados main_linea_referencia
      | None => print NotaSinReferencia
      end;;
      guardar_csv w resultados_ordenados;;
      print CsvGenerado
    end.

(** A run of the script from the initial state. *)
Definition ejecutar (w : Mundo) : Res unit * Estado := main w inicial.

(** ** Sample directories *)

(** A regular file that opens for reading and for writing. *)
Definition archivo_de (nombre : string) (lineas : list string) : Entrada :=
  {| ent_nombre := nombre; ent_es_archivo := true; ent_lineas := Some lineas;
     ent_escribible := true |}.

(** A regular file without any permission. *)
Definition ilegible (nombre : string) : Entrada :=
  {| ent_nombre := nombre; ent_es_archivo := true; ent_lineas := None;
     ent_escribible := false |}.

(** A subdirectory. *)
Definition subcarpeta (nombre : string) : Entrada :=
  {| ent_nombre := nombre; ent_es_archivo := false; ent_lineas := None;
     ent_escribible := false |}.

(** A directory with every permission. *)
Definition carpeta (es : list Entrada) : Mundo :=
  {| dir_existe := true; dir_legible := true; dir_escribible := true;
     dir_listado := es |}.

(** No directory at [CONFIG_DIR]. *)
Definition sin_carpeta : Mundo :=
  {| dir_existe := false; dir_legible := false; dir_escribible := false;
     dir_listado := [] |}.

(** [n] code lines. *)
Definition codigo (n : nat) : list string := repeat "router bgp 65000"%string n.

Definition mundo_mpls : Mundo :=
  carpeta [ archivo_de "pe1-mpls.txt" (codigo 10);
            archivo_de "pe1-mpls-srv6.txt" (codigo 14) ].

Definition mundo_ilegible : Mundo :=
  carpeta [ archivo_de "a.txt" (codigo 3); ilegible "b.txt" ].

Definition mundo_sin_referencia : Mundo :=
  carpeta [ archivo_de "pe2.cfg" (codigo 7);
            archivo_de "pe1-srv6.txt" (codigo 5) ].

(** A directory with the script, an earlier report and a subdirectory. *)
Definition mundo_sin_candidatos : Mundo :=
  carpeta [ archivo_de "import os.py" (codigo 200);
            archivo_de "resumen_configuraciones.csv" (codigo 4);
            subcarpeta "configs" ].

(** A file of comments and blank lines next to a file with code. *)
Definition mundo_comentarios : Mundo :=
  carpeta [ archivo_de "notas.txt" ["# a"; ""; "! b"]%string;
            archivo_de "pe1-mpls.txt" (codigo 10) ].

(** The floats 40.0 and 0.0. *)
Definition cuarenta : PyFloat.float := S754_finite false 5629499534213120 (-47).

(** The rows of the report for [mundo_mpls]. *)
Definition filas_mpls : list Registro :=
  [ {| archivo := "pe1-mpls.txt"; lineas_codigo := 10;
       diff_vs_min_abs := Some 0; diff_vs_min_pct := Some PyFloat.cero;
       diff_vs_ref_abs := Some 0; diff_vs_ref_pct := Some PyFloat.cero |};
    {| archivo := "pe1-mpls-srv6.txt"; lineas_codigo := 14;
       diff_vs_min_abs := Some 4; diff_vs_min_pct := Some cuarenta;
       diff_vs_ref_abs := Some 4; diff_vs_ref_pct := Some cuarenta |} ].

Definition filas_sin_referencia : list Registro :=
  [ {| archivo := "pe1-srv6.txt"; lineas_codigo := 5;
       diff_vs_min_abs := Some 0; diff_vs_min_pct := Some PyFloat.cero;
       diff_vs_ref_abs := None; diff_vs_ref_pct := None |};
    {| archivo := "pe2.cfg"; lineas_codigo := 7;
       diff_vs_min_abs := Some 2; diff_vs_min_pct := Some cuarenta;
       diff_vs_ref_abs := None; diff_vs_ref_pct := None |} ].

(** A directory with a file without extension and a hidden file. *)
Definition mundo_sin_extension : Mundo :=
  carpeta [ archivo_de "pe1-srv6" (codigo 5);
            archivo_de ".gitignore" (codigo 2);
            archivo_de "notas.md" (codigo 9) ].

(** The files of [mundo_mpls] in a directory that may not be listed, in a
    directory where no file can be created, and next to a subdirectory
    that has the name of the report. *)
Definition mundo_sin_permiso : Mundo :=
  {| dir_existe := true; dir_legible := false; dir_escribible := true;
     dir_listado := dir_listado mundo_mpls |}.

Definition mundo_solo_lectura : Mundo :=
  {| dir_existe := true; dir_legible := true; dir_escribible := false;
     dir_listado := dir_listado mundo_mpls |}.

Definition mundo_csv_carpeta : Mundo :=
  carpeta (subcarpeta nombre_csv :: dir_listado mundo_mpls).

(** ** A run described without the heap

    The definitions below restate the steps of [main] on plain values.
    They are not part of the script: the lemma [ejecutar_informe] proves
    that a run of [main], with its shared dictionaries, produces exactly
    what they describe, and the properties of the report are then read off
    them. *)

(** The candidate paths that [obtener_archivos_config] returns. *)
Definition es_candidato (w : Mundo) (entrada : string) : bool :=
  isfile w (OsPath.join CONFIG_DIR entrada)
  && existsb (String.eqb (snd (OsPath.splitext entrada))) EXTENSIONS.

Definition candidatos (w : Mundo) : list string :=
  sorted_str (OsPath.join CONFIG_DIR
              <$> List.filter (es_candidato w) (ent_nombre <$> dir_listado w)).

(** The lines behind a path, when it opens. *)
Definition lineas_de (w : Mundo) (ruta : string) : option (list string) :=
  match buscar w ruta with
  | Some e => if ent_es_archivo e then ent_lineas e else None
  | None => None
  end.

(** The dictionary that step 1 creates for a file. *)
Definition registro_inicial (nombre : string) (num_lineas : Z) : Registro :=
  {| archivo := nombre; lineas_codigo := num_lineas;
     diff_vs_min_abs := None; diff_vs_min_pct := None;
     diff_vs_ref_abs := None; diff_vs_ref_pct := None |}.

Definition registro_de (w : Mundo) (ruta : string) : option Registro :=
  lineas ← lineas_de w ruta;
  Some (registro_inicial (OsPath.basename ruta) (contar_lineas lineas)).

(** All the dictionaries of step 1, or [None] when some file does not open. *)
Definition registros (w : Mundo) (archivos : list string) : option (list Registro) :=
  mapM (registro_de w) archivos.

(** What step 4 does to one dictionary. *)
Definition actualizar (min_lineas : Z) (ref_lineas : option Z) (reg : Registro)
    : Res Registro :=
  let lineas := lineas_codigo reg in
  let diff_min_abs := lineas - min_lineas in
  diff_min_pct ← porcentaje diff_min_abs min_lineas;
  let reg1 := set_diff_vs_min_pct (PyFloat.round2 diff_min_pct)
                (set_diff_vs_min_abs diff_min_abs reg) in
  match ref_lineas with
  | Some ref_lineas =>
      let diff_ref_abs := lineas - ref_lineas in
      diff_ref_pct ← porcentaje diff_ref_abs ref_lineas;
      Ok (set_diff_vs_ref_pct (PyFloat.round2 diff_ref_pct)
            (set_diff_vs_ref_abs diff_ref_abs reg1))
  | None => Ok reg1
  end.

(** The console lines of step 5 for one dictionary. *)
Definition evento_resumen (reg : Registro) : Res Evento :=
  diff_abs ← formato (diff_vs_min_abs reg);
  pct ← formato (diff_vs_min_pct reg);
  Ok (LineaResumen (archivo reg) (lineas_codigo reg) diff_abs pct).

Definition eventos_referencia (reg : Registro) : Res (list Evento) :=
  match diff_vs_ref_abs reg with
  | None => Ok []
  | Some diff_abs =>
      let signo := if 0 <=? diff_abs then "+"%string else ""%string in
      pct ← formato (diff_vs_ref_pct reg);
      Ok [LineaReferencia (archivo reg) (lineas_codigo reg) signo diff_abs pct]
  end.

(** Steps 2 to 6 on the dictionaries of step 1: the rows of the CSV file
    and the console lines printed after the per-file counts. *)
Definition analizar (regs : list Registro) : Res (list Registro * list Evento) :=
  let ordenados := sorted_key lineas_codigo regs in
  simple ← primero ordenados;
  complejo ← ultimo ordenados;
  let min_lineas := lineas_codigo simple in
  let max_lineas := lineas_codigo complejo in
  let referencia := List.find (λ r, es_referencia (archivo r)) ordenados in
  let ref_lineas := lineas_codigo <$> referencia in
  filas ← mapM (actualizar min_lineas ref_lineas) ordenados;
  resumen ← mapM evento_resumen filas;
  pct ← porcentaje (max_lineas - min_lineas) max_lineas;
  comparacion ← match referencia with
                 | Some r =>
                     evs ← mapM eventos_referencia filas;
                     Ok ([Referencia (archivo r) (lineas_codigo r);
                          TituloComparacion] ++ concat evs)
                 | None => Ok [NotaSinReferencia]
                 end;
  Ok (filas,
      [TituloResumen] ++ resumen
      ++ [MasSimple (archivo simple) (lineas_codigo simple);
          MasComplejo (archivo complejo) (lineas_codigo complejo);
          Extremos (max_lineas - min_lineas) pct]
      ++ comparacion ++ [CsvGenerado]).

(** The console lines of step 1. *)
Definition evento_conteo (reg : Registro) : Evento :=
  LineaConteo (archivo reg) (lineas_codigo reg).

(** The smallest code-line count of a list of records. *)
Definition minimo (l : list Registro) : Z :=
  match l with
  | [] => 0
  | r :: l' => fold_right (λ x m, Z.min (lineas_codigo x) m) (lineas_codigo r) l'
  end.

Definition maximo (l : list Registro) : Z :=
  match l with
  | [] => 0
  | r :: l' => fold_right (λ x m, Z.max (lineas_codigo x) m) (lineas_codigo r) l'
  end.

(** The value of [(diff / base * 100) if base > 0 else 0.0] when the
    quotient does not overflow. *)
Definition porcentaje_valor (diff base : Z) : PyFloat.float :=
  if 0 <? base
  then PyFloat.mul (PyFloat.div_int diff base) (PyFloat.of_int 100)
  else PyFloat.cero.

(** Two records for the same file: same name, same count. *)
Definition mismo_archivo (r f : Registro) : Prop :=
  archivo f = archivo r ∧ lineas_codigo f = lineas_codigo r.

(** Two files with the same count whose names both pass the reference
    test, with the directory listed in the two orders. *)
Definition mundo_empate : Mundo :=
  carpeta [ archivo_de "a-mpls.txt" (codigo 10);
            archivo_de "b-mpls.txt" (codigo 10) ].

Definition mundo_empate_inverso : Mundo :=
  carpeta [ archivo_de "b-mpls.txt" (codigo 10);
            archivo_de "a-mpls.txt" (codigo 10) ].

(** Two files that pass the reference test, the larger one enumerated
    first. *)
Definition mundo_dos_mpls : Mundo :=
  carpeta [ archivo_de "a-mpls.txt" (codigo 12);
            archivo_de "b-mpls.txt" (codigo 10) ].

(** Ascending by key. *)
Definition asciende {A : Type} (key : A → Z) (l : list A) : Prop :=
  StronglySorted (λ a b, key a ≤ key b) l.

(** The records of step 1 carry a count and four empty fields. *)
Definition recien_creado (reg : Registro) : Prop :=
  0 ≤ lineas_codigo reg
  ∧ diff_vs_min_abs reg = None ∧ diff_vs_min_pct reg = None
  ∧ diff_vs_ref_abs reg = None ∧ diff_vs_ref_pct reg = None.

(** The fields of a row of the report, given the whole list of rows. *)
Definition fila_correcta (filas : list Registro) (f : Registro) : Prop :=
  let m := minimo filas in
  diff_vs_min_abs f = Some (lineas_codigo f - m)
  ∧ diff_vs_min_pct f
    = Some (PyFloat.round2 (porcentaje_valor (lineas_codigo f - m) m))
  ∧ match List.find (λ r, es_referencia (archivo r)) filas with
    | Some fr =>
        let rl := lineas_codigo fr in
        diff_vs_ref_abs f = Some (lineas_codigo f - rl)
        ∧ diff_vs_ref_pct f
          = Some (PyFloat.round2 (porcentaje_valor (lineas_codigo f - rl) rl))
    | None => diff_vs_ref_abs f = None ∧ diff_vs_ref_pct f = None
    end.

(** The console lines printed after the counts. *)
Definition consola_correcta (filas : list Registro) (evs : list Evento) : Prop :=
  let m := minimo filas in
  let M := maximo filas in
  ∃ f0 f1 resumen comparacion,
    primero filas = Ok f0 ∧ ultimo filas = Ok f1
    ∧ mapM evento_resumen filas = Ok resumen
    ∧ match List.find (λ r, es_referencia (archivo r)) filas with
      | Some fr =>
          ∃ lineas_ref,
            mapM eventos_referencia filas = Ok lineas_ref
            ∧ comparacion
              = [Referencia (archivo fr) (lineas_codigo fr); TituloComparacion]
                ++ concat lineas_ref
      | None => comparacion = [NotaSinReferencia]
      end
    ∧ evs = [TituloResumen] ++ resumen
            ++ [MasSimple (archivo f0) m; MasComplejo (archivo f1) M;
                Extremos (M - m) (porcentaje_valor (M - m) M)]
            ++ comparacion ++ [CsvGenerado].

(** Every way a run can end. *)
Inductive Desenlace (w : Mundo) : Res unit * Estado → Prop :=
  | SinCarpeta :
      dir_existe w = false →
      Desenlace w (Ok tt, {| heap := [];
                             consola := [ErrorCarpeta CONFIG_DIR; AyudaCarpeta];
                             csv := None |})
  | SinArchivos :
      dir_existe w = true → candidatos w = [] →
      dir_legible w = true →
      Desenlace w (Ok tt, {| heap := [];
                             consola := [AvisoSinArchivos CONFIG_DIR];
                             csv := None |})
  | Ilegible s :
      dir_existe w = true → candidatos w ≠ [] →
      registros w (candidatos w) = None →
      csv s = None →
      dir_legible w = true →
      Desenlace w (Raise OSError, s)
  | Desborde regs s :
      dir_existe w = true → candidatos w ≠ [] →
      registros w (candidatos w) = Some regs →
      analizar regs = Raise OverflowError →
      csv s = None →
      dir_legible w = true →
      Desenlace w (Raise OverflowError, s)
  | Informe regs filas evs h :
      dir_existe w = true → candidatos w ≠ [] →
      registros w (candidatos w) = Some regs →
      Forall recien_creado regs →
      analizar regs = Ok (filas, evs) →
      dir_legible w = true →
      puede_escribir w nombre_csv = true →
      Desenlace w (Ok tt,
                   {| heap := h;
                      consola := [Titulo; Regla] ++ (evento_conteo <$> regs)
                                 ++ [Regla] ++ evs;
                      csv := Some filas |})
  | SinPermiso :
      dir_existe w = true → dir_legible w = false →
      Desenlace w (Raise OSError, inicial)
  | SinEscritura regs filas evs h :
      dir_existe w = true → candidatos w ≠ [] →
      registros w (candidatos w) = Some regs →
      Forall recien_creado regs →
      analizar regs = Ok (filas, evs) →
      dir_legible w = true →
      puede_escribir w nombre_csv = false →
      Desenlace w (Raise OSError,
                   {| heap := h;
                      consola := [Titulo; Regla] ++ (evento_conteo <$> regs)
                                 ++ [Regla] ++ removelast evs;
                      csv := None |}).

(** All the characters of [s] are whitespace. *)
Fixpoint en_blanco (s : string) : bool :=
  match s with
  | EmptyString => true
  | String c s' => PyStr.isspace c && en_blanco s'
  end.

(** For an order given by its strict test [lt]: [x] is not above [y]. *)
Definition no_mayor {A : Type} (lt : A → A → bool) (x y : A) : Prop :=
  lt y x = false.

(** The directory of [w] with one more entry. *)
Definition con_entrada (e : Entrada) (w : Mundo) : Mundo :=
  {| dir_existe := dir_existe w; dir_legible := dir_legible w;
     dir_escribible := dir_escribible w;
     dir_listado := e :: dir_listado w |}.

(** The extension of an entry name is one of [EXTENSIONS]. *)
Definition extension_admitida (nombre : string) : bool :=
  existsb (String.eqb (snd (OsPath.splitext nombre))) EXTENSIONS.

(** The report of an earlier run, as the next run finds it in the
    directory, with any text. *)
Definition informe_previo (lineas : list string) : Entrada :=
  archivo_de nombre_csv lineas.

(** The kinds of console messages. *)
Definition es_linea_conteo (ev : Evento) : bool :=
  match ev with LineaConteo _ _ => true | _ => false end.

Definition es_linea_resumen (ev : Evento) : bool :=
  match ev with LineaResumen _ _ _ _ => true | _ => false end.

Definition es_linea_referencia (ev : Evento) : bool :=
  match ev with LineaReferencia _ _ _ _ _ => true | _ => false end.

Definition es_extremo (ev : Evento) : bool :=
  match ev with MasSimple _ _ | MasComplejo _ _ => true | _ => false end.

(** The console line of the summary for a row of the report. *)
Definition linea_de_fila (f : Registro) (ev : Evento) : Prop :=
  ∃ d p, diff_vs_min_abs f = Some d ∧ diff_vs_min_pct f = Some p
         ∧ ev = LineaResumen (archivo f) (lineas_codigo f) d p.

(** The console line of the comparison against the reference for a row:
    the difference carries a [+] when it is not negative. *)
Definition linea_referencia_de_fila (f : Registro) (ev : Evento) : Prop :=
  ∃ d p, diff_vs_ref_abs f = Some d ∧ diff_vs_ref_pct f = Some p
         ∧ ev = LineaReferencia (archivo f) (lineas_codigo f)
                  (if 0 <=? d then "+"%string else ""%string) d p.

(** The console line of step 1 for a path: the name of the file and the
    count of its lines. *)
Definition linea_de_ruta (w : Mundo) (ruta : string) (ev : Evento) : Prop :=
  ∃ lineas, (abrir w ruta inicial).1 = Ok lineas
            ∧ ev = LineaConteo (OsPath.basename ruta) (contar_lineas lineas).
(** * Properties *)

(** ** Line classifier and file counter *)

Lemma es_linea_valida_spec (linea : string) :
  es_linea_valida linea
  = linea_de_codigo_spec true ["#"; "!"; "//"]%string linea.
Proof.
  unfold es_linea_valida, linea_de_codigo_spec, IGNORE_COMMENTS,
    COMMENT_PREFIXES, PyStr.startswith_tuple.
  destruct (PyStr.strip linea) as [|c t]; [reflexivity|].
  cbn [PyStr.truthy negb String.eqb andb].
  match goal with |- context [existsb ?f ?l] => destruct (existsb f l) end;
    reflexivity.
Qed.

Lemma contar_lineas_acc (p : string → bool) (lineas : list string) (n : Z) :
  fold_left (λ contador linea, if p linea then contador + 1 else contador)
            lineas n
  = n + Z.of_nat (length (List.filter p lineas)).
Proof.
  revert n; induction lineas as [|l ls IH]; intros n; cbn [fold_left List.filter].
  - cbn; lia.
  - rewrite IH. destruct (p l); cbn [length]; lia.
Qed.

Lemma filter_length_le {A : Type} (p : A → bool) (l : list A) :
  (length (List.filter p l) ≤ length l)%nat.
Proof.
  induction l as [|x l IH]; cbn [List.filter length]; [lia|].
  destruct (p x); cbn [length]; lia.
Qed.

Lemma contar_lineas_filter (lineas : list string) :
  contar_lineas lineas
  = Z.of_nat (length (List.filter es_linea_valida lineas)).
Proof. unfold contar_lineas. rewrite contar_lineas_acc. lia. Qed.

Lemma contar_lineas_no_negativo (lineas : list string) :
  0 ≤ contar_lineas lineas.
Proof. rewrite contar_lineas_filter. lia. Qed.

(** The counter applied to a file that opens returns that count and leaves
    the state as it was. *)
Lemma contar_lineas_config_abre (w : Mundo) (ruta : string)
    (lineas : list string) (s : Estado) :
  abrir w ruta s = (Ok lineas, s) →
  contar_lineas_config w ruta s = (Ok (contar_lineas lineas), s).
Proof.
  intros H. unfold contar_lineas_config, mbind, Py_bind. rewrite H. reflexivity.
Qed.

(** ** Text builtins *)

Lemma startswith_spec (s p : string) :
  PyStr.startswith s p = true ↔ ∃ t, s = (p ++ t)%string.
Proof.
  revert s; induction p as [|c p IH]; intros s; cbn [PyStr.startswith].
  - split; [intros _; by exists s|done].
  - destruct s as [|d s].
    + split; [done|]. by intros (t & Ht).
    + rewrite andb_true_iff, IH. split.
      * intros [Hc (t & ->)]. apply Ascii.eqb_eq in Hc as ->. by exists t.
      * intros (t & Ht). cbn in Ht. injection Ht as -> ->.
        split; [apply Ascii.eqb_refl|by exists t].
Qed.

(** [sub in s] holds exactly when [s] is some text, [sub], some text. *)
Lemma contains_spec (sub s : string) :
  PyStr.contains sub s = true ↔ ∃ a b, s = (a ++ sub ++ b)%string.
Proof.
  induction s as [|c s IH]; cbn [PyStr.contains].
  - rewrite orb_false_r, startswith_spec. split.
    + intros (t & Ht). by exists EmptyString, t.
    + intros ([|d a] & b & Hab); [by exists b|done].
  - rewrite orb_true_iff, startswith_spec, IH. split.
    + intros [(t & Ht)|(a & b & ->)].
      * by exists EmptyString, t.
      * by exists (String c a), b.
    + intros ([|d a] & b & Hab).
      * left. by exists b.
      * right. cbn in Hab. injection Hab as -> ->. by exists a, b.
Qed.

Lemma rstrip_vacia (s : string) :
  PyStr.rstrip s = EmptyString ↔ en_blanco s = true.
Proof.
  induction s as [|c s IH]; cbn [PyStr.rstrip en_blanco]; [done|].
  rewrite andb_true_iff. destruct (PyStr.rstrip s) as [|d t].
  - destruct (PyStr.isspace c); [|split; [done|by intros [? _]]].
    split; [intros _; split; [done|by apply IH]|done].
  - split; [done|]. intros [_ H]. by apply IH in H.
Qed.

Lemma lstrip_en_blanco (s : string) :
  en_blanco (PyStr.lstrip s) = en_blanco s.
Proof.
  induction s as [|c s IH]; cbn [PyStr.lstrip en_blanco]; [done|].
  destruct (PyStr.isspace c) eqn:E; [done|].
  cbn [en_blanco]. by rewrite E.
Qed.

(** A line is blank once trimmed exactly when it holds only whitespace. *)
Lemma strip_vacia (s : string) :
  PyStr.strip s = EmptyString ↔ en_blanco s = true.
Proof. unfold PyStr.strip. by rewrite rstrip_vacia, lstrip_en_blanco. Qed.

(** ** The builtins on sample values

    The expected values are those that CPython 3 gives for the same
    expressions; floats are written as sign, mantissa and exponent. *)

Example strip_ejemplo :
  PyStr.strip (String " " (String "009" ("x y" ++ String "010" ""))) = "x y"%string.
Proof. reflexivity. Qed.

Example isspace_ejemplo :
  map PyStr.isspace [" "; "009"; "031"; "133"; "160"; "x"; "#"]%char
  = [true; true; true; true; true; false; false].
Proof. reflexivity. Qed.

Example lower_ejemplo : PyStr.lower "PE1-Mpls.TXT" = "pe1-mpls.txt"%string.
Proof. reflexivity. Qed.

Example splitext_ejemplo :
  map OsPath.splitext
      [".bashrc"; "a.b.txt"; "..x"; "a."; "pe1"; ".a.txt"]%string
  = [(".bashrc", ""); ("a.b", ".txt"); ("..x", ""); ("a", "."); ("pe1", "");
     (".a", ".txt")]%string.
Proof. reflexivity. Qed.

Example join_basename_ejemplo :
  OsPath.join "." "pe1.txt" = "./pe1.txt"%string
  ∧ OsPath.basename "./pe1.txt" = "pe1.txt"%string.
Proof. split; reflexivity. Qed.

Example sorted_str_ejemplo :
  sorted_str ["./b"; "./A"; "./a"; "./a.txt"; "./a-b"]%string
  = ["./A"; "./a"; "./a-b"; "./a.txt"; "./b"]%string.
Proof. reflexivity. Qed.

(** Equal keys keep their order. *)
Example sorted_key_estable :
  sorted_key fst [(2, "a"); (1, "b"); (2, "c"); (1, "d")]%string
  = [(1, "b"); (1, "d"); (2, "a"); (2, "c")]%string.
Proof. reflexivity. Qed.

Example es_linea_valida_ejemplo :
  map es_linea_valida ["# a"; ""; "! b"; "  // c"; " x # y"; "/ x"; "   "]%string
  = [false; false; false; false; true; true; false].
Proof. reflexivity. Qed.

Example es_referencia_ejemplo :
  map es_referencia
      ["pe1-MPLS.txt"; "pe1-mpls-srv6.txt"; "sr-mpls.cfg"; "pe1-srv6"]%string
  = [true; false; true; false].
Proof. reflexivity. Qed.

(** [1 / 3 * 100] is [33.33333333333333] and rounds to [33.33]. *)
Example porcentaje_un_tercio :
  porcentaje 1 3 = Ok (S754_finite false 4691249611844266 (-47))
  ∧ PyFloat.round2 (S754_finite false 4691249611844266 (-47))
    = S754_finite false 4690780486883082 (-47).
Proof. split; vm_compute; reflexivity. Qed.

(** [-4 / 14 * 100] rounds to [-28.57]. *)
Example porcentaje_negativo :
  porcentaje (-4) 14 = Ok (S754_finite true 8042142191733028 (-48))
  ∧ PyFloat.round2 (S754_finite true 8042142191733028 (-48))
    = S754_finite true 8041740084623442 (-48).
Proof. split; vm_compute; reflexivity. Qed.

(** [round(2.675, 2)] is [2.67]: the float below the decimal 2.675. *)
Example round2_2675 :
  PyFloat.round2 (S754_finite false 6023564501608038 (-51))
  = S754_finite false 6012305502539612 (-51).
Proof. vm_compute; reflexivity. Qed.

(** [round(0.0001, 2)] is [0.0] and [0 / -5] is [-0.0]. *)
Example round2_pequeno :
  PyFloat.round2 (S754_finite false 7378697629483820 (-66)) = S754_zero false
  ∧ truediv 0 (-5) = Ok (S754_zero true).
Proof. split; vm_compute; reflexivity. Qed.

Example truediv_por_cero : truediv 7 0 = Raise ZeroDivisionError.
Proof. reflexivity. Qed.

(** ** Sorting *)

Section SortedFacts.
Context {A : Type}.

Lemma insertar_Permutation (lt : A → A → bool) (x : A) (l : list A) :
  insertar lt x l ≡ₚ x :: l.
Proof.
  induction l as [|y l IH]; cbn [insertar]; [reflexivity|].
  destruct (lt y x); [|reflexivity].
  rewrite IH. apply Permutation_swap.
Qed.

Lemma sorted_Permutation (lt : A → A → bool) (l : list A) :
  sorted lt l ≡ₚ l.
Proof.
  induction l as [|x l IH]; cbn [sorted]; [reflexivity|].
  rewrite insertar_Permutation. by rewrite IH.
Qed.

Lemma sorted_length (lt : A → A → bool) (l : list A) :
  length (sorted lt l) = length l.
Proof. apply Permutation_length, sorted_Permutation. Qed.

Lemma sorted_nil_inv (lt : A → A → bool) (l : list A) :
  sorted lt l = [] → l = [].
Proof.
  intros H. apply Permutation_nil. by rewrite <- H, sorted_Permutation.
Qed.

Context (key : A → Z).

Lemma insertar_asciende (x : A) (l : list A) :
  asciende key l → asciende key (insertar (λ a b, key a <? key b) x l).
Proof.
  unfold asciende. induction 1 as [|y l Hl IH Hy]; cbn [insertar].
  - repeat constructor.
  - destruct (Z.ltb_spec (key y) (key x)) as [Hlt|Hge].
    + constructor; [exact IH|].
      rewrite insertar_Permutation. constructor; [lia|exact Hy].
    + constructor; [by constructor|].
      constructor; [lia|].
      eapply Forall_impl; [exact Hy|]. cbn; intros; lia.
Qed.

Lemma sorted_key_asciende (l : list A) : asciende key (sorted_key key l).
Proof.
  unfold sorted_key. induction l as [|x l IH]; cbn [sorted].
  - constructor.
  - by apply insertar_asciende.
Qed.

(** The first element of an ascending list has the least key. *)
Lemma asciende_primero (x : A) (l : list A) (y : A) :
  asciende key (x :: l) → y ∈ x :: l → key x ≤ key y.
Proof.
  intros H Hy. apply StronglySorted_inv in H as [_ H].
  apply elem_of_cons in Hy as [->|Hy]; [lia|].
  rewrite Forall_forall in H. by apply H.
Qed.

(** The last one has the greatest. *)
Lemma asciende_ultimo (l : list A) (x y : A) :
  asciende key l → last l = Some x → y ∈ l → key y ≤ key x.
Proof.
  induction 1 as [|z l Hl IH Hz]; intros Hlast Hy; [by inversion Hy|].
  destruct l as [|z' l'].
  - cbn in Hlast. injection Hlast as <-.
    apply elem_of_cons in Hy as [->|Hy]; [lia|by inversion Hy].
  - change (last (z :: z' :: l')) with (last (z' :: l')) in Hlast.
    apply elem_of_cons in Hy as [->|Hy]; [|by apply IH].
    rewrite Forall_forall in Hz. apply Hz.
    apply last_Some in Hlast as [l'' ->].
    apply elem_of_app. right. apply list_elem_of_singleton. reflexivity.
Qed.

(** In an ascending list the first element that passes a test has the
    least key among those that pass it. *)
Lemma asciende_find (p : A → bool) (l : list A) (x y : A) :
  asciende key l → List.find p l = Some x → y ∈ l → p y = true →
  key x ≤ key y.
Proof.
  induction 1 as [|z l Hl IH Hz]; intros Hfind Hy Hpy; [by inversion Hy|].
  cbn [List.find] in Hfind. destruct (p z) eqn:Hpz.
  - injection Hfind as <-.
    apply elem_of_cons in Hy as [->|Hy]; [lia|].
    rewrite Forall_forall in Hz. by apply Hz.
  - apply elem_of_cons in Hy as [->|Hy]; [congruence|by apply IH].
Qed.
End SortedFacts.

(** Sorting by a key commutes with reading the elements through [f]. *)
Lemma insertar_fmap {A B : Type} (f : A → B) (key : B → Z) (x : A) (l : list A) :
  f <$> insertar (λ a b, key (f a) <? key (f b)) x l
  = insertar (λ a b, key a <? key b) (f x) (f <$> l).
Proof.
  induction l as [|y l IH]; [reflexivity|].
  cbn [insertar fmap list_fmap]. destruct (key (f y) <? key (f x)); [|reflexivity].
  cbn [fmap list_fmap]. f_equal. exact IH.
Qed.

Lemma sorted_key_fmap {A B : Type} (f : A → B) (key : B → Z) (l : list A) :
  f <$> sorted_key (λ a, key (f a)) l = sorted_key key (f <$> l).
Proof.
  unfold sorted_key. induction l as [|x l IH]; [reflexivity|].
  cbn [sorted fmap list_fmap]. rewrite insertar_fmap. f_equal. exact IH.
Qed.

Lemma find_fmap {A B : Type} (f : A → B) (p : B → bool) (l : list A) :
  List.find p (f <$> l) = f <$> List.find (λ a, p (f a)) l.
Proof.
  induction l as [|x l IH]; [reflexivity|].
  cbn [fmap list_fmap List.find]. destruct (p (f x)); [reflexivity|exact IH].
Qed.

(** ** Running the monad *)

Lemma bind_ok {A B : Type} (m : Py A) (f : A → Py B) (s s' : Estado) (a : A) :
  m s = (Ok a, s') → (m ≫= f) s = f a s'.
Proof. intros H. unfold mbind, Py_bind. by rewrite H. Qed.

Lemma bind_raise {A B : Type} (m : Py A) (f : A → Py B) (s s' : Estado)
    (e : Excepcion) :
  m s = (Raise e, s') → (m ≫= f) s = (Raise e, s').
Proof. intros H. unfold mbind, Py_bind. by rewrite H. Qed.

Lemma bind_lift {A B : Type} (r : Res A) (f : A → Py B) (s : Estado) :
  (lift r ≫= f) s
  = match r with Ok a => f a s | Raise e => (Raise e, s) end.
Proof. unfold mbind, Py_bind, lift. by destruct r. Qed.

Lemma bind_assoc {A B C : Type} (m : Py A) (f : A → Py B) (g : B → Py C)
    (s : Estado) :
  ((m ≫= f) ≫= g) s = (m ≫= λ a, f a ≫= g) s.
Proof. unfold mbind, Py_bind. by destruct (m s) as [[a|e] s']. Qed.

Lemma bind_ext_l {A B : Type} (m m' : Py A) (f : A → Py B) (s : Estado) :
  m s = m' s → (m ≫= f) s = (m' ≫= f) s.
Proof. intros H. unfold mbind, Py_bind. by rewrite H. Qed.

(** ** File enumeration *)

Lemma obtener_archivos_paso_eq (w : Mundo) (acc : list string) (e : string)
    (s : Estado) :
  obtener_archivos_paso w CONFIG_DIR acc e s
  = (Ok (if es_candidato w e then acc ++ [OsPath.join CONFIG_DIR e] else acc), s).
Proof.
  unfold obtener_archivos_paso, es_candidato.
  destruct (isfile w (OsPath.join CONFIG_DIR e)); cbn [andb]; [|reflexivity].
  cbv zeta. by destruct (existsb _ EXTENSIONS).
Qed.

Lemma obtener_archivos_loop (w : Mundo) (entradas acc : list string) (s : Estado) :
  for_lista entradas acc (obtener_archivos_paso w CONFIG_DIR) s
  = (Ok (acc ++ (OsPath.join CONFIG_DIR <$> List.filter (es_candidato w) entradas)), s).
Proof.
  revert acc; induction entradas as [|e es IH]; intros acc.
  - cbn [for_lista List.filter fmap list_fmap]. by rewrite app_nil_r.
  - cbn [for_lista List.filter].
    erewrite bind_ok by apply obtener_archivos_paso_eq. rewrite IH.
    destruct (es_candidato w e); [|reflexivity].
    cbn [fmap list_fmap]. by rewrite <- app_assoc.
Qed.

Lemma isdir_CONFIG_DIR (w : Mundo) : isdir w CONFIG_DIR = dir_existe w.
Proof. unfold isdir. rewrite String.eqb_refl. apply andb_true_r. Qed.

Lemma obtener_archivos_config_eq (w : Mundo) (s : Estado) :
  dir_existe w = true → dir_legible w = true →
  obtener_archivos_config w CONFIG_DIR s = (Ok (candidatos w), s).
Proof.
  intros Hdir Hleg. unfold obtener_archivos_config, listdir.
  rewrite isdir_CONFIG_DIR, Hdir, Hleg.
  erewrite bind_ok by reflexivity.
  erewrite bind_ok by apply obtener_archivos_loop.
  reflexivity.
Qed.

(** ** Step 1: counting *)

Lemma abrir_eq (w : Mundo) (ruta : string) (s : Estado) :
  abrir w ruta s
  = (match lineas_de w ruta with Some l => Ok l | None => Raise OSError end, s).
Proof.
  unfold abrir, lineas_de.
  destruct (buscar w ruta) as [e|]; [|reflexivity].
  destruct (ent_es_archivo e); [|reflexivity].
  by destruct (ent_lineas e).
Qed.

Lemma main_conteo_paso_eq (w : Mundo) (acc : list Ref) (ruta : string) (s : Estado) :
  main_conteo_paso w acc ruta s
  = match registro_de w ruta with
    | Some reg =>
        (Ok (acc ++ [length (heap s)]),
         {| heap := heap s ++ [reg];
            consola := consola s ++ [evento_conteo reg];
            csv := csv s |})
    | None => (Raise OSError, s)
    end.
Proof.
  unfold main_conteo_paso, contar_lineas_config.
  unfold mbind, Py_bind. rewrite abrir_eq.
  unfold registro_de. destruct (lineas_de w ruta) as [l|]; reflexivity.
Qed.

Lemma registros_cons (w : Mundo) (ruta : string) (rs : list string) :
  registros w (ruta :: rs)
  = match registro_de w ruta with
    | Some reg =>
        match registros w rs with
        | Some regs => Some (reg :: regs)
        | None => None
        end
    | None => None
    end.
Proof.
  unfold registros. cbn [mapM].
  destruct (registro_de w ruta); [|reflexivity].
  cbn. by destruct (mapM (registro_de w) rs).
Qed.

Lemma main_conteo_loop (w : Mundo) (archivos : list string) (acc : list Ref)
    (s : Estado) :
  match registros w archivos with
  | Some regs =>
      for_lista archivos acc (main_conteo_paso w) s
      = (Ok (acc ++ seq (length (heap s)) (length regs)),
         {| heap := heap s ++ regs;
            consola := consola s ++ (evento_conteo <$> regs);
            csv := csv s |})
  | None =>
      ∃ s', for_lista archivos acc (main_conteo_paso w) s = (Raise OSError, s')
            ∧ csv s' = csv s
  end.
Proof.
  revert acc s; induction archivos as [|ruta rs IH]; intros acc s.
  - cbn. rewrite !app_nil_r. by destruct s.
  - rewrite registros_cons. cbn [for_lista].
    pose proof (main_conteo_paso_eq w acc ruta s) as HP.
    destruct (registro_de w ruta) as [reg|].
    + rewrite (bind_ok _ _ _ _ _ HP).
      match type of HP with _ = (Ok ?a, ?s1) => specialize (IH a s1) end.
      destruct (registros w rs) as [regs|].
      * rewrite IH. cbn [heap consola csv length seq fmap list_fmap].
        rewrite length_app. cbn [length].
        replace (length (heap s) + 1)%nat with (S (length (heap s))) by lia.
        by rewrite <- !app_assoc.
      * destruct IH as (s' & -> & Hcsv). by exists s'.
    + rewrite (bind_raise _ _ _ _ _ HP). by exists s.
Qed.

(** Without permission to list the directory the enumeration raises. *)
Lemma obtener_archivos_config_sin_permiso (w : Mundo) (s : Estado) :
  dir_legible w = false →
  obtener_archivos_config w CONFIG_DIR s = (Raise OSError, s).
Proof.
  intros Hleg. unfold obtener_archivos_config, listdir.
  rewrite Hleg. by destruct (isdir w CONFIG_DIR).
Qed.

Lemma obtener_archivos_config_sin_carpeta (w : Mundo) (s : Estado) :
  dir_existe w = false →
  obtener_archivos_config w CONFIG_DIR s = (Raise OSError, s).
Proof.
  intros Hdir. unfold obtener_archivos_config, listdir.
  by rewrite isdir_CONFIG_DIR, Hdir.
Qed.

(** The enumeration returns exactly when the directory exists and may be
    listed. *)
Lemma obtener_archivos_config_fst (w : Mundo) (archivos : list string) :
  (obtener_archivos_config w CONFIG_DIR inicial).1 = Ok archivos
  ↔ dir_existe w = true ∧ dir_legible w = true ∧ candidatos w = archivos.
Proof.
  destruct (dir_existe w) eqn:Hdir.
  - destruct (dir_legible w) eqn:Hleg.
    + rewrite obtener_archivos_config_eq by done. cbn [fst].
      split; [intros [= <-]; done|intros (_ & _ & <-); done].
    + rewrite obtener_archivos_config_sin_permiso by done. cbn [fst].
      split; [done|by intros (_ & ? & _)].
  - rewrite obtener_archivos_config_sin_carpeta by done. cbn [fst].
    split; [done|by intros (? & _)].
Qed.

(** ** Step 3: the reference *)

Lemma encontrar_referencia_eq (l : list Ref) (s : Estado) :
  encontrar_referencia l s
  = (Ok (List.find (λ p, es_referencia (archivo (heap s !!! p))) l), s).
Proof.
  induction l as [|p l IH]; [reflexivity|].
  cbn [encontrar_referencia List.find].
  erewrite bind_ok by reflexivity.
  by destruct (es_referencia (archivo (heap s !!! p))).
Qed.

(** ** Step 4: the differences *)

Lemma alter_insert_total (f : Registro → Registro) (h : list Registro) (p : nat) :
  alter f p h = <[p := f (h !!! p)]> h.
Proof.
  apply list_eq; intros i.
  destruct (decide (p = i)) as [<-|Hne].
  - rewrite list_lookup_alter_eq.
    destruct (h !! p) as [x|] eqn:E.
    + rewrite list_lookup_insert_eq by by eapply lookup_lt_Some.
      by rewrite (list_lookup_total_correct _ _ _ E).
    + rewrite list_insert_ge by by apply lookup_ge_None.
      by rewrite E.
  - by rewrite list_lookup_alter_ne, list_lookup_insert_ne.
Qed.

Lemma asignar_eq (f : Registro → Registro) (p : Ref) (s : Estado) :
  asignar p f s
  = (Ok tt, {| heap := <[p := f (heap s !!! p)]> (heap s);
               consola := consola s; csv := csv s |}).
Proof. unfold asignar. by rewrite alter_insert_total. Qed.

Lemma main_diferencias_eq (min_lineas : Z) (ref_lineas : option Z) (p : Ref)
    (s : Estado) :
  (p < length (heap s))%nat →
  match actualizar min_lineas ref_lineas (heap s !!! p) with
  | Ok reg' =>
      main_diferencias min_lineas ref_lineas p s
      = (Ok tt, {| heap := <[p := reg']> (heap s);
                   consola := consola s; csv := csv s |})
  | Raise e =>
      ∃ s', main_diferencias min_lineas ref_lineas p s = (Raise e, s')
            ∧ csv s' = csv s
  end.
Proof.
  intros Hp. unfold main_diferencias, actualizar.
  erewrite bind_ok by reflexivity. rewrite bind_lift.
  destruct (porcentaje _ min_lineas) as [pmin|e]; cbn [mbind Res_bind];
    [|by exists s].
  erewrite bind_ok by apply asignar_eq.
  erewrite bind_ok by apply asignar_eq.
  cbn [heap consola csv].
  rewrite list_lookup_total_insert_eq by done.
  rewrite list_insert_insert_eq.
  destruct ref_lineas as [rl|]; [|reflexivity].
  rewrite bind_lift.
  destruct (porcentaje _ rl) as [pref|e]; [|eexists; split; reflexivity].
  erewrite bind_ok by apply asignar_eq.
  rewrite asignar_eq. cbn [heap consola csv].
  rewrite !list_lookup_total_insert_eq by by rewrite ?length_insert.
  by rewrite !list_insert_insert_eq.
Qed.

Lemma main_diferencias_loop (min_lineas : Z) (ref_lineas : option Z)
    (l : list Ref) (s : Estado) :
  NoDup l → (∀ p, p ∈ l → (p < length (heap s))%nat) →
  match mapM (actualizar min_lineas ref_lineas) ((heap s !!!.) <$> l) with
  | Ok filas =>
      ∃ h, for_ l (main_diferencias min_lineas ref_lineas) s
           = (Ok tt, {| heap := h; consola := consola s; csv := csv s |})
           ∧ length h = length (heap s)
           ∧ (h !!!.) <$> l = filas
           ∧ ∀ q, q ∉ l → h !!! q = heap s !!! q
  | Raise e =>
      ∃ s', for_ l (main_diferencias min_lineas ref_lineas) s = (Raise e, s')
            ∧ csv s' = csv s
  end.
Proof.
  revert s; induction l as [|p l IH]; intros s Hnd Hlt.
  - cbn. exists (heap s). by destruct s.
  - apply NoDup_cons in Hnd as [Hp Hnd].
    cbn [fmap list_fmap mapM for_].
    pose proof (main_diferencias_eq min_lineas ref_lineas p s) as HP.
    specialize (HP (Hlt p ltac:(left))).
    destruct (actualizar min_lineas ref_lineas (heap s !!! p)) as [reg'|e];
      cbn [mbind Res_bind].
    + rewrite (bind_ok _ _ _ _ _ HP).
      match type of HP with _ = (Ok tt, ?s1) => specialize (IH s1 Hnd) end.
      cbn [heap consola csv] in IH.
      assert (Hsame : (<[p:=reg']> (heap s) !!!.) <$> l = (heap s !!!.) <$> l).
      { apply list_fmap_ext. intros i q Hq.
        apply list_lookup_total_insert_ne. intros ->.
        apply Hp. by eapply list_elem_of_lookup_2. }
      rewrite Hsame in IH.
      assert (Hlt' : ∀ q, q ∈ l → (q < length (<[p:=reg']> (heap s)))%nat).
      { intros q Hq. rewrite length_insert. apply Hlt. by right. }
      specialize (IH Hlt').
      destruct (mapM _ ((heap s !!!.) <$> l)) as [filas|e]; cbn [mret Res_ret].
      * destruct IH as (h & -> & Hlen & Hfilas & Hotros).
        exists h. split; [reflexivity|].
        rewrite length_insert in Hlen.
        split; [exact Hlen|]. split.
        -- cbn [fmap list_fmap]. f_equal; [|exact Hfilas].
           rewrite (Hotros p Hp).
           by apply list_lookup_total_insert_eq, Hlt; left.
        -- intros q Hq. apply not_elem_of_cons in Hq as [Hqp Hq].
           rewrite (Hotros q Hq). by apply list_lookup_total_insert_ne.
      * destruct IH as (s' & -> & Hcsv). by exists s'.
    + destruct HP as (s' & HP & Hcsv).
      rewrite (bind_raise _ _ _ _ _ HP). by exists s'.
Qed.

(** ** Step 5: the printing loops *)

Lemma main_linea_resumen_loop (l : list Ref) (s : Estado) :
  match mapM evento_resumen ((heap s !!!.) <$> l) with
  | Ok evs =>
      for_ l main_linea_resumen s
      = (Ok tt, {| heap := heap s; consola := consola s ++ evs; csv := csv s |})
  | Raise e =>
      ∃ s', for_ l main_linea_resumen s = (Raise e, s') ∧ csv s' = csv s
           ∧ heap s' = heap s
  end.
Proof.
  revert s; induction l as [|p l IH]; intros s.
  - cbn. rewrite app_nil_r. by destruct s.
  - cbn [fmap list_fmap mapM for_].
    assert (HP : match evento_resumen (heap s !!! p) with
                 | Ok ev => main_linea_resumen p s
                            = (Ok tt, {| heap := heap s;
                                         consola := consola s ++ [ev];
                                         csv := csv s |})
                 | Raise e => main_linea_resumen p s = (Raise e, s)
                 end).
    { unfold main_linea_resumen, evento_resumen.
      erewrite bind_ok by reflexivity. rewrite bind_lift.
      destruct (formato (diff_vs_min_abs _)); cbn [mbind Res_bind]; [|done].
      rewrite bind_lift.
      by destruct (formato (diff_vs_min_pct _)). }
    destruct (evento_resumen (heap s !!! p)) as [ev|e]; cbn [mbind Res_bind].
    + rewrite (bind_ok _ _ _ _ _ HP).
      match type of HP with _ = (Ok tt, ?s1) => specialize (IH s1) end.
      cbn [heap consola csv] in IH.
      destruct (mapM evento_resumen ((heap s !!!.) <$> l)) as [evs|e];
        cbn [mret Res_ret].
      * rewrite IH. by rewrite <- app_assoc.
      * destruct IH as (s' & -> & Hcsv & Hheap). by exists s'.
    + rewrite (bind_raise _ _ _ _ _ HP). by exists s.
Qed.

Lemma main_linea_referencia_loop (l : list Ref) (s : Estado) :
  match mapM eventos_referencia ((heap s !!!.) <$> l) with
  | Ok evs =>
      for_ l main_linea_referencia s
      = (Ok tt, {| heap := heap s; consola := consola s ++ concat evs;
                   csv := csv s |})
  | Raise e =>
      ∃ s', for_ l main_linea_referencia s = (Raise e, s') ∧ csv s' = csv s
           ∧ heap s' = heap s
  end.
Proof.
  revert s; induction l as [|p l IH]; intros s.
  - cbn. rewrite app_nil_r. by destruct s.
  - cbn [fmap list_fmap mapM for_].
    assert (HP : match eventos_referencia (heap s !!! p) with
                 | Ok evs => main_linea_referencia p s
                             = (Ok tt, {| heap := heap s;
                                          consola := consola s ++ evs;
                                          csv := csv s |})
                 | Raise e => main_linea_referencia p s = (Raise e, s)
                 end).
    { unfold main_linea_referencia, eventos_referencia.
      erewrite bind_ok by reflexivity.
      destruct (diff_vs_ref_abs _) as [d|].
      - rewrite bind_lift.
        by destruct (formato (diff_vs_ref_pct _)).
      - cbn. rewrite app_nil_r. by destruct s. }
    destruct (eventos_referencia (heap s !!! p)) as [ev|e]; cbn [mbind Res_bind].
    + rewrite (bind_ok _ _ _ _ _ HP).
      match type of HP with _ = (Ok tt, ?s1) => specialize (IH s1) end.
      cbn [heap consola csv] in IH.
      destruct (mapM eventos_referencia ((heap s !!!.) <$> l)) as [evs|e];
        cbn [mret Res_ret].
      * rewrite IH. cbn [concat]. by rewrite <- app_assoc.
      * destruct IH as (s' & -> & Hcsv & Hheap). by exists s'.
    + rewrite (bind_raise _ _ _ _ _ HP). by exists s.
Qed.

(** ** A whole run *)

Lemma fmap_lookup_total_seq (regs : list Registro) :
  (regs !!!.) <$> seq 0 (length regs) = regs.
Proof.
  apply list_eq; intros i. rewrite list_lookup_fmap.
  destruct (decide (i < length regs)%nat) as [Hi|Hi].
  - rewrite lookup_seq_lt by done. cbn.
    symmetry. by apply list_lookup_lookup_total_lt.
  - rewrite lookup_seq_ge by lia. cbn.
    symmetry. apply lookup_ge_None. lia.
Qed.

Lemma primero_fmap {A B : Type} (f : A → B) (l : list A) :
  primero (f <$> l) = f <$> primero l.
Proof. by destruct l. Qed.

Lemma ultimo_fmap {A B : Type} (f : A → B) (l : list A) :
  ultimo (f <$> l) = f <$> ultimo l.
Proof. unfold ultimo. rewrite fmap_last. by destruct (last l). Qed.

Lemma primero_elem_of {A : Type} (l : list A) (x : A) :
  primero l = Ok x → x ∈ l.
Proof. destruct l; [done|]. intros [= ->]. by left. Qed.

Lemma ultimo_elem_of {A : Type} (l : list A) (x : A) :
  ultimo l = Ok x → x ∈ l.
Proof.
  unfold ultimo. destruct (last l) as [y|] eqn:E; [|done]. intros [= ->].
  apply last_Some in E as [l' ->].
  apply elem_of_app. right. by apply list_elem_of_singleton.
Qed.

Lemma find_elem_of {A : Type} (p : A → bool) (l : list A) (x : A) :
  List.find p l = Some x → x ∈ l ∧ p x = true.
Proof.
  intros H. apply List.find_some in H as [H1 H2].
  split; [by apply list_elem_of_In|done].
Qed.

(** The results of a successful [mapM], element by element. *)
Lemma mapM_Ok_fmap {A B C : Type} (g : B → Res C) (f : A → B) (f' : A → C)
    (l : list A) :
  mapM g (f <$> l) = Ok (f' <$> l) → ∀ x, x ∈ l → g (f x) = Ok (f' x).
Proof.
  induction l as [|y l IH]; intros H x Hx; [by inversion Hx|].
  cbn [fmap list_fmap mapM] in H.
  destruct (g (f y)) as [c|e] eqn:E; cbn [mbind Res_bind] in H; [|done].
  destruct (mapM g (f <$> l)) as [cs|e]; cbn [mbind Res_bind mret Res_ret] in H;
    [|done].
  injection H as -> ->.
  apply elem_of_cons in Hx as [->|Hx]; [done|]. by apply IH.
Qed.

Lemma mapM_Ok_Forall2 {B C : Type} (g : B → Res C) (l : list B) (k : list C) :
  mapM g l = Ok k → Forall2 (λ x y, g x = Ok y) l k.
Proof.
  revert k; induction l as [|x l IH]; intros k H.
  - injection H as <-. constructor.
  - cbn [mapM] in H.
    destruct (g x) as [c|e] eqn:E; cbn [mbind Res_bind] in H; [|done].
    destruct (mapM g l) as [cs|e]; cbn [mbind Res_bind mret Res_ret] in H;
      [|done].
    injection H as <-. constructor; [done|]. by apply IH.
Qed.

Lemma actualizar_nombre (min_lineas : Z) (ref_lineas : option Z)
    (reg reg' : Registro) :
  actualizar min_lineas ref_lineas reg = Ok reg' →
  archivo reg' = archivo reg ∧ lineas_codigo reg' = lineas_codigo reg.
Proof.
  unfold actualizar.
  destruct (porcentaje _ min_lineas); cbn [mbind Res_bind]; [|done].
  destruct ref_lineas as [rl|].
  - destruct (porcentaje _ rl); cbn [mbind Res_bind]; [|done].
    by intros [= <-].
  - by intros [= <-].
Qed.

(** The references in sorted order read the records in sorted order. *)
Lemma ordenados_refs (regs : list Registro) :
  let refs := sorted_key (λ x : Ref, lineas_codigo (regs !!! x))
                         (seq 0 (length regs)) in
  (regs !!!.) <$> refs = sorted_key lineas_codigo regs
  ∧ NoDup refs
  ∧ ∀ p, p ∈ refs → (p < length regs)%nat.
Proof.
  intros refs. split; [|split].
  - unfold refs.
    rewrite (sorted_key_fmap (regs !!!.) lineas_codigo).
    by rewrite fmap_lookup_total_seq.
  - unfold refs, sorted_key. rewrite sorted_Permutation. apply NoDup_seq.
  - intros p Hp. unfold refs, sorted_key in Hp.
    rewrite sorted_Permutation in Hp. apply elem_of_seq in Hp. lia.
Qed.

(** The events of the analysis without the closing message. *)
Lemma removelast_fin {A : Type} (a b c d : list A) (y : A) :
  removelast (a ++ b ++ c ++ d ++ [y]) = a ++ b ++ c ++ d.
Proof. rewrite !app_assoc. apply removelast_last. Qed.

(** A run over a directory whose candidate files all open does what
    [analizar] describes: the same rows, the same console lines, the same
    exception.  When the file of the report cannot be opened, the run ends
    there with [OSError]: everything but the closing message has been
    printed, and there is no report. *)
Lemma ejecutar_informe (w : Mundo) (regs : list Registro) :
  dir_existe w = true →
  dir_legible w = true →
  candidatos w ≠ [] →
  registros w (candidatos w) = Some regs →
  match analizar regs with
  | Ok (filas, evs) =>
      ∃ h, ejecutar w
           = if puede_escribir w nombre_csv
             then (Ok tt,
                   {| heap := h;
                      consola := [Titulo; Regla] ++ (evento_conteo <$> regs)
                                 ++ [Regla] ++ evs;
                      csv := Some filas |})
             else (Raise OSError,
                   {| heap := h;
                      consola := [Titulo; Regla] ++ (evento_conteo <$> regs)
                                 ++ [Regla] ++ removelast evs;
                      csv := None |})
  | Raise e => ∃ s, ejecutar w = (Raise e, s) ∧ csv s = None
  end.
Proof.
  intros Hdir Hleg Hne Hregs.
  unfold ejecutar, main. rewrite isdir_CONFIG_DIR, Hdir. cbn [negb].
  erewrite bind_ok by by apply obtener_archivos_config_eq.
  destruct (candidatos w) as [|c cs]; [done|].
  erewrite bind_ok by reflexivity.
  erewrite bind_ok by reflexivity.
  pose proof (main_conteo_loop w (c :: cs) []
                {| heap := []; consola := [Titulo; Regla]; csv := None |}) as HC.
  rewrite Hregs in HC. cbn [heap consola csv app length] in HC.
  unfold main_conteo. cbn [inicial heap consola csv app].
  rewrite (bind_ok _ _ _ _ _ HC). clear HC.
  erewrite bind_ok by reflexivity.
  erewrite bind_ok by reflexivity.
  cbn [heap consola csv].
  destruct (ordenados_refs regs) as (Hords & Hnd & Hlt).
  set (refs := sorted_key (λ x : Ref, lineas_codigo (regs !!! x))
                          (seq 0 (length regs))) in *.
  unfold analizar. rewrite <- Hords.
  rewrite primero_fmap, ultimo_fmap, find_fmap.
  rewrite bind_lift.
  destruct (primero refs) as [p0|e] eqn:Hp0; cbn [fmap Res_fmap mbind Res_bind];
    [|by eexists].
  rewrite bind_lift.
  destruct (ultimo refs) as [p1|e] eqn:Hp1; cbn [fmap Res_fmap mbind Res_bind];
    [|by eexists].
  erewrite bind_ok by reflexivity.
  erewrite bind_ok by reflexivity.
  erewrite bind_ok by apply encontrar_referencia_eq.
  cbn [heap consola csv].
  assert (Hin0 : p0 ∈ refs) by by apply primero_elem_of.
  assert (Hin1 : p1 ∈ refs) by by apply ultimo_elem_of.
  set (min_lineas := lineas_codigo (regs !!! p0)).
  set (max_lineas := lineas_codigo (regs !!! p1)).
  destruct (find (λ p : Ref, es_referencia (archivo (regs !!! p))) refs)
    as [pr|] eqn:Hfind; cbn [fmap option_fmap option_map].
  - apply find_elem_of in Hfind as [Hinr _].
    erewrite bind_ok by reflexivity.
    cbn [heap consola csv].
    match goal with
    | |- context [(for_ refs (main_diferencias ?m ?r) ≫= ?k) ?s] =>
        pose proof (main_diferencias_loop m r refs s Hnd Hlt) as HL
    end.
    cbn [heap consola csv] in HL.
    destruct (mapM _ ((regs !!!.) <$> refs)) as [filas|e] eqn:Hfilas;
      cbn [mbind Res_bind];
      [|destruct HL as (s' & HL & Hcsv); rewrite (bind_raise _ _ _ _ _ HL);
        by exists s'].
    destruct HL as (h & HL & Hlen & Hh & _).
    rewrite (bind_ok _ _ _ _ _ HL). clear HL.
    erewrite bind_ok by reflexivity.
    cbn [heap consola csv].
    assert (Hnom : ∀ p, p ∈ refs →
              archivo (h !!! p) = archivo (regs !!! p)
              ∧ lineas_codigo (h !!! p) = lineas_codigo (regs !!! p)).
    { intros p Hp. rewrite <- Hh in Hfilas.
      eapply actualizar_nombre. by eapply (mapM_Ok_fmap _ _ _ _ Hfilas). }
    match goal with
    | |- context [(for_ refs main_linea_resumen ≫= ?k) ?s] =>
        pose proof (main_linea_resumen_loop refs s) as HL
    end.
    cbn [heap consola csv] in HL. rewrite Hh in HL.
    destruct (mapM evento_resumen filas) as [resumen|e]; cbn [mbind Res_bind];
      [|destruct HL as (s' & HL & Hcsv & _); rewrite (bind_raise _ _ _ _ _ HL);
        by exists s'].
    rewrite (bind_ok _ _ _ _ _ HL). clear HL.
    do 4 (erewrite bind_ok by reflexivity).
    rewrite bind_lift. cbn [heap consola csv].
    destruct (porcentaje (max_lineas - min_lineas) max_lineas) as [pct|e];
      cbn [mbind Res_bind]; [|by eexists].
    erewrite bind_ok by reflexivity.
    do 3 (rewrite ?bind_assoc; erewrite bind_ok by reflexivity;
          cbn [heap consola csv]).
    rewrite ?bind_assoc.
    match goal with
    | |- context [(for_ refs main_linea_referencia ≫= ?k) ?s] =>
        pose proof (main_linea_referencia_loop refs s) as HL
    end.
    cbn [heap consola csv] in HL. rewrite Hh in HL.
    destruct (mapM eventos_referencia filas) as [evs|e]; cbn [mbind Res_bind];
      [|destruct HL as (s' & HL & Hcsv & _); rewrite (bind_raise _ _ _ _ _ HL);
        by exists s'].
    rewrite (bind_ok _ _ _ _ _ HL). clear HL.
    unfold guardar_csv, abrir_escritura. rewrite Hdir. cbn [andb].
    rewrite !bind_assoc. exists h.
    destruct (Hnom p0 Hin0) as [-> ->], (Hnom p1 Hin1) as [-> ->],
      (Hnom pr Hinr) as [-> ->].
    subst min_lineas max_lineas.
    destruct (puede_escribir w nombre_csv).
    + do 3 (rewrite ?bind_assoc; erewrite bind_ok by reflexivity).
      cbn [heap consola csv print]. rewrite Hh.
      unfold print. cbn [heap consola csv]. do 2 f_equal.
      repeat (rewrite <- app_assoc; cbn [app]). reflexivity.
    + erewrite bind_raise by reflexivity.
      unfold print. cbn [heap consola csv]. do 2 f_equal.
      rewrite removelast_fin.
      repeat (rewrite <- app_assoc; cbn [app]). reflexivity.
  - erewrite bind_ok by reflexivity.
    cbn [heap consola csv].
    match goal with
    | |- context [(for_ refs (main_diferencias ?m ?r) ≫= ?k) ?s] =>
        pose proof (main_diferencias_loop m r refs s Hnd Hlt) as HL
    end.
    cbn [heap consola csv] in HL.
    destruct (mapM _ ((regs !!!.) <$> refs)) as [filas|e] eqn:Hfilas;
      cbn [mbind Res_bind];
      [|destruct HL as (s' & HL & Hcsv); rewrite (bind_raise _ _ _ _ _ HL);
        by exists s'].
    destruct HL as (h & HL & Hlen & Hh & _).
    rewrite (bind_ok _ _ _ _ _ HL). clear HL.
    erewrite bind_ok by reflexivity.
    cbn [heap consola csv].
    assert (Hnom : ∀ p, p ∈ refs →
              archivo (h !!! p) = archivo (regs !!! p)
              ∧ lineas_codigo (h !!! p) = lineas_codigo (regs !!! p)).
    { intros p Hp. rewrite <- Hh in Hfilas.
      eapply actualizar_nombre. by eapply (mapM_Ok_fmap _ _ _ _ Hfilas). }
    match goal with
    | |- context [(for_ refs main_linea_resumen ≫= ?k) ?s] =>
        pose proof (main_linea_resumen_loop refs s) as HL
    end.
    cbn [heap consola csv] in HL. rewrite Hh in HL.
    destruct (mapM evento_resumen filas) as [resumen|e]; cbn [mbind Res_bind];
      [|destruct HL as (s' & HL & Hcsv & _); rewrite (bind_raise _ _ _ _ _ HL);
        by exists s'].
    rewrite (bind_ok _ _ _ _ _ HL). clear HL.
    do 4 (erewrite bind_ok by reflexivity).
    rewrite bind_lift. cbn [heap consola csv].
    destruct (porcentaje (max_lineas - min_lineas) max_lineas) as [pct|e];
      cbn [mbind Res_bind]; [|by eexists].
    do 2 (erewrite bind_ok by reflexivity).
    unfold guardar_csv, abrir_escritura. rewrite Hdir. cbn [andb].
    rewrite !bind_assoc. exists h.
    destruct (Hnom p0 Hin0) as [-> ->], (Hnom p1 Hin1) as [-> ->].
    subst min_lineas max_lineas.
    destruct (puede_escribir w nombre_csv).
    + do 3 (rewrite ?bind_assoc; erewrite bind_ok by reflexivity).
      cbn [heap consola csv print]. rewrite Hh.
      unfold print. cbn [heap consola csv]. do 2 f_equal.
      repeat (rewrite <- app_assoc; cbn [app]). reflexivity.
    + erewrite bind_raise by reflexivity.
      unfold print. cbn [heap consola csv]. do 2 f_equal.
      rewrite removelast_fin.
      repeat (rewrite <- app_assoc; cbn [app]). reflexivity.
Qed.

(** ** The outcomes of a run *)

Lemma ejecutar_sin_carpeta (w : Mundo) :
  dir_existe w = false →
  ejecutar w
  = (Ok tt, {| heap := [];
               consola := [ErrorCarpeta CONFIG_DIR; AyudaCarpeta];
               csv := None |}).
Proof.
  intros Hdir. unfold ejecutar, main. rewrite isdir_CONFIG_DIR, Hdir.
  reflexivity.
Qed.

Lemma ejecutar_sin_permiso (w : Mundo) :
  dir_existe w = true → dir_legible w = false →
  ejecutar w = (Raise OSError, inicial).
Proof.
  intros Hdir Hleg. unfold ejecutar, main. rewrite isdir_CONFIG_DIR, Hdir.
  cbn [negb].
  by erewrite bind_raise by by apply obtener_archivos_config_sin_permiso.
Qed.

Lemma ejecutar_sin_archivos (w : Mundo) :
  dir_existe w = true → dir_legible w = true → candidatos w = [] →
  ejecutar w
  = (Ok tt, {| heap := []; consola := [AvisoSinArchivos CONFIG_DIR];
               csv := None |}).
Proof.
  intros Hdir Hleg Hnil. unfold ejecutar, main. rewrite isdir_CONFIG_DIR, Hdir.
  cbn [negb].
  erewrite bind_ok by by apply obtener_archivos_config_eq.
  rewrite Hnil. reflexivity.
Qed.

Lemma ejecutar_ilegible (w : Mundo) :
  dir_existe w = true → dir_legible w = true → candidatos w ≠ [] →
  registros w (candidatos w) = None →
  ∃ s, ejecutar w = (Raise OSError, s) ∧ csv s = None.
Proof.
  intros Hdir Hleg Hne Hregs. unfold ejecutar, main.
  rewrite isdir_CONFIG_DIR, Hdir. cbn [negb].
  erewrite bind_ok by by apply obtener_archivos_config_eq.
  destruct (candidatos w) as [|c cs]; [done|].
  do 2 (erewrite bind_ok by reflexivity).
  pose proof (main_conteo_loop w (c :: cs) []
                {| heap := []; consola := [Titulo; Regla]; csv := None |}) as HC.
  rewrite Hregs in HC. destruct HC as (s' & HC & Hcsv).
  unfold main_conteo. cbn [inicial heap consola csv app].
  rewrite (bind_raise _ _ _ _ _ HC). by exists s'.
Qed.

Lemma registros_recien_creados (w : Mundo) (archivos : list string)
    (regs : list Registro) :
  registros w archivos = Some regs →
  length regs = length archivos ∧ Forall recien_creado regs.
Proof.
  revert regs; induction archivos as [|ruta rs IH]; intros regs.
  - intros [= <-]. by split.
  - rewrite registros_cons.
    destruct (registro_de w ruta) as [reg|] eqn:E; [|done].
    destruct (registros w rs) as [regs'|]; [|done].
    intros [= <-]. destruct (IH regs' eq_refl) as [Hlen Hall].
    split; [cbn; by rewrite Hlen|].
    constructor; [|done].
    unfold registro_de in E.
    destruct (lineas_de w ruta) as [l|]; [|done].
    injection E as <-. unfold recien_creado, registro_inicial; cbn.
    split; [|done]. apply contar_lineas_no_negativo.
Qed.

(** ** Percentages *)

Lemma porcentaje_Ok (diff base : Z) (p : PyFloat.float) :
  porcentaje diff base = Ok p →
  p = if 0 <? base
      then PyFloat.mul (PyFloat.div_int diff base) (PyFloat.of_int 100)
      else PyFloat.cero.
Proof.
  unfold porcentaje, truediv.
  destruct (0 <? base); [|by intros [= <-]].
  destruct (base =? 0); [done|].
  destruct (PyFloat.div_int diff base); cbn; by intros [= <-].
Qed.

(** The guard [base > 0] leaves the overflow of the quotient as the only
    exception. *)
Lemma porcentaje_Raise (diff base : Z) (e : Excepcion) :
  porcentaje diff base = Raise e → e = OverflowError.
Proof.
  unfold porcentaje, truediv.
  destruct (Z.ltb_spec 0 base) as [Hpos|]; [|done].
  destruct (Z.eqb_spec base 0) as [->|_]; [lia|].
  destruct (PyFloat.div_int diff base); cbn; by intros [= <-].
Qed.

Lemma porcentaje_cero (base : Z) : porcentaje 0 base = Ok PyFloat.cero.
Proof.
  unfold porcentaje, truediv.
  destruct (Z.ltb_spec 0 base) as [Hpos|]; [|done].
  destruct (Z.eqb_spec base 0) as [->|_]; [lia|].
  cbn [PyFloat.div_int].
  destruct (Z.ltb_spec base 0) as [|_]; [lia|]. reflexivity.
Qed.

Lemma round2_cero : PyFloat.round2 PyFloat.cero = PyFloat.cero.
Proof. reflexivity. Qed.

(** ** One record after step 4 *)

Lemma actualizar_campos (min_lineas : Z) (ref_lineas : option Z)
    (reg fila : Registro) :
  actualizar min_lineas ref_lineas reg = Ok fila →
  archivo fila = archivo reg
  ∧ lineas_codigo fila = lineas_codigo reg
  ∧ diff_vs_min_abs fila = Some (lineas_codigo reg - min_lineas)
  ∧ (∃ p, porcentaje (lineas_codigo reg - min_lineas) min_lineas = Ok p
          ∧ diff_vs_min_pct fila = Some (PyFloat.round2 p))
  ∧ match ref_lineas with
    | Some rl =>
        diff_vs_ref_abs fila = Some (lineas_codigo reg - rl)
        ∧ ∃ p, porcentaje (lineas_codigo reg - rl) rl = Ok p
               ∧ diff_vs_ref_pct fila = Some (PyFloat.round2 p)
    | None =>
        diff_vs_ref_abs fila = diff_vs_ref_abs reg
        ∧ diff_vs_ref_pct fila = diff_vs_ref_pct reg
    end.
Proof.
  unfold actualizar.
  destruct (porcentaje _ min_lineas) as [pm|] eqn:Em; cbn [mbind Res_bind];
    [|done].
  destruct ref_lineas as [rl|].
  - destruct (porcentaje _ rl) as [pr|] eqn:Er; cbn [mbind Res_bind]; [|done].
    intros [= <-]. cbn. repeat split; eauto.
  - intros [= <-]. cbn. repeat split; eauto.
Qed.

Lemma actualizar_Raise (min_lineas : Z) (ref_lineas : option Z)
    (reg : Registro) (e : Excepcion) :
  actualizar min_lineas ref_lineas reg = Raise e → e = OverflowError.
Proof.
  unfold actualizar.
  destruct (porcentaje _ min_lineas) as [pm|e'] eqn:Em; cbn [mbind Res_bind].
  - destruct ref_lineas as [rl|]; [|done].
    destruct (porcentaje _ rl) as [pr|e'] eqn:Er; cbn [mbind Res_bind]; [done|].
    intros [= <-]. by eapply porcentaje_Raise.
  - intros [= <-]. by eapply porcentaje_Raise.
Qed.

Lemma mapM_Raise {B C : Type} (g : B → Res C) (l : list B) (e : Excepcion) :
  mapM g l = Raise e → ∃ x, x ∈ l ∧ g x = Raise e.
Proof.
  induction l as [|x l IH]; [done|]. cbn [mapM].
  destruct (g x) as [c|e'] eqn:E; cbn [mbind Res_bind].
  - destruct (mapM g l) as [cs|e']; cbn [mbind Res_bind mret Res_ret]; [done|].
    intros [= <-]. destruct (IH eq_refl) as (y & Hy & Hg).
    exists y. split; [by right|done].
  - intros [= <-]. exists x. split; [by left|done].
Qed.

Lemma Forall2_elem_of_r {B C : Type} (R : B → C → Prop) (l : list B)
    (k : list C) (y : C) :
  Forall2 R l k → y ∈ k → ∃ x, x ∈ l ∧ R x y.
Proof.
  induction 1 as [|x y' l k HR HF IH]; intros Hy; [by inversion Hy|].
  apply elem_of_cons in Hy as [->|Hy].
  - exists x. split; [by left|done].
  - destruct (IH Hy) as (x' & Hx' & HR'). exists x'. split; [by right|done].
Qed.

Lemma Forall2_elem_of_l {B C : Type} (R : B → C → Prop) (l : list B)
    (k : list C) (x : B) :
  Forall2 R l k → x ∈ l → ∃ y, y ∈ k ∧ R x y.
Proof.
  induction 1 as [|x' y l k HR HF IH]; intros Hx; [by inversion Hx|].
  apply elem_of_cons in Hx as [->|Hx].
  - exists y. split; [by left|done].
  - destruct (IH Hx) as (y' & Hy' & HR'). exists y'. split; [by right|done].
Qed.

(** ** Minimum and maximum of the counts *)

Lemma minimo_cons (x : Registro) (l : list Registro) :
  l ≠ [] → minimo (x :: l) = Z.min (lineas_codigo x) (minimo l).
Proof.
  destruct l as [|y l]; [done|]. intros _. cbn [minimo fold_right].
  revert x y; induction l as [|z l IH]; intros x y; cbn [fold_right]; [lia|].
  specialize (IH x z) as IH1. specialize (IH y z) as IH2. lia.
Qed.

Lemma maximo_cons (x : Registro) (l : list Registro) :
  l ≠ [] → maximo (x :: l) = Z.max (lineas_codigo x) (maximo l).
Proof.
  destruct l as [|y l]; [done|]. intros _. cbn [maximo fold_right].
  revert x y; induction l as [|z l IH]; intros x y; cbn [fold_right]; [lia|].
  specialize (IH x z) as IH1. specialize (IH y z) as IH2. lia.
Qed.

(** [minimo] is a lower bound that some record attains. *)
Lemma minimo_spec (l : list Registro) :
  l ≠ [] →
  (∀ f, f ∈ l → minimo l ≤ lineas_codigo f)
  ∧ ∃ f, f ∈ l ∧ lineas_codigo f = minimo l.
Proof.
  induction l as [|x l IH]; [done|]. intros _.
  destruct l as [|y l].
  - cbn. split.
    + intros f Hf. apply list_elem_of_singleton in Hf as ->. lia.
    + exists x. split; [by left|done].
  - rewrite minimo_cons by done.
    destruct IH as [Hle (f & Hf & Hmin)]; [done|]. split.
    + intros g Hg. apply elem_of_cons in Hg as [->|Hg]; [lia|].
      specialize (Hle g Hg). lia.
    + destruct (Z.le_ge_cases (lineas_codigo x) (minimo (y :: l))).
      * exists x. split; [by left|lia].
      * exists f. split; [by right|lia].
Qed.

Lemma maximo_spec (l : list Registro) :
  l ≠ [] →
  (∀ f, f ∈ l → lineas_codigo f ≤ maximo l)
  ∧ ∃ f, f ∈ l ∧ lineas_codigo f = maximo l.
Proof.
  induction l as [|x l IH]; [done|]. intros _.
  destruct l as [|y l].
  - cbn. split.
    + intros f Hf. apply list_elem_of_singleton in Hf as ->. lia.
    + exists x. split; [by left|done].
  - rewrite maximo_cons by done.
    destruct IH as [Hle (f & Hf & Hmax)]; [done|]. split.
    + intros g Hg. apply elem_of_cons in Hg as [->|Hg]; [lia|].
      specialize (Hle g Hg). lia.
    + destruct (Z.le_ge_cases (lineas_codigo x) (maximo (y :: l))).
      * exists f. split; [by right|lia].
      * exists x. split; [by left|lia].
Qed.

(** In ascending order the first record has the minimum and the last one
    the maximum. *)
Lemma minimo_primero (l : list Registro) (x : Registro) :
  asciende lineas_codigo l → primero l = Ok x → minimo l = lineas_codigo x.
Proof.
  intros Hasc Hx. assert (Hne : l ≠ []) by by destruct l.
  destruct (minimo_spec l Hne) as [Hle (f & Hf & Hmin)].
  pose proof (Hle x (primero_elem_of _ _ Hx)).
  destruct l as [|y l]; [done|]. injection Hx as ->.
  pose proof (asciende_primero lineas_codigo x l f Hasc Hf). lia.
Qed.

Lemma maximo_ultimo (l : list Registro) (x : Registro) :
  asciende lineas_codigo l → ultimo l = Ok x → maximo l = lineas_codigo x.
Proof.
  intros Hasc Hx. assert (Hne : l ≠ []) by (destruct l; [done|done]).
  destruct (maximo_spec l Hne) as [Hle (f & Hf & Hmax)].
  pose proof (Hle x (ultimo_elem_of _ _ Hx)).
  unfold ultimo in Hx. destruct (last l) as [y|] eqn:E; [|done].
  injection Hx as ->.
  pose proof (asciende_ultimo lineas_codigo l x f Hasc E Hf). lia.
Qed.

(** ** Lists of records for the same files *)

Lemma mismo_archivo_asciende (l k : list Registro) :
  Forall2 mismo_archivo l k →
  asciende lineas_codigo l → asciende lineas_codigo k.
Proof.
  unfold asciende. induction 1 as [|r f l k [_ Hrf] HF IH]; intros Hasc;
    [constructor|].
  apply StronglySorted_inv in Hasc as [Hasc Hall].
  constructor; [by apply IH|].
  rewrite Forall_forall in Hall. apply Forall_forall. intros g Hg.
  destruct (Forall2_elem_of_r _ _ _ _ HF Hg) as (r' & Hr' & [_ Hl]).
  specialize (Hall r' Hr'). cbn in Hall. lia.
Qed.

Lemma mismo_archivo_primero (l k : list Registro) (x : Registro) :
  Forall2 mismo_archivo l k → primero l = Ok x →
  ∃ y, primero k = Ok y ∧ mismo_archivo x y.
Proof.
  destruct 1 as [|r f l k Hrf HF]; [done|]. intros [= <-]. by exists f.
Qed.

Lemma mismo_archivo_ultimo (l k : list Registro) (x : Registro) :
  Forall2 mismo_archivo l k → ultimo l = Ok x →
  ∃ y, ultimo k = Ok y ∧ mismo_archivo x y.
Proof.
  unfold ultimo. induction 1 as [|r f l k Hrf HF IH]; [done|].
  destruct HF as [|r' f' l k Hrf' HF'].
  - cbn. intros [= <-]. by exists f.
  - rewrite !last_cons_cons. exact IH.
Qed.

Lemma mismo_archivo_find (p : string → bool) (l k : list Registro) :
  Forall2 mismo_archivo l k →
  match List.find (λ r, p (archivo r)) l, List.find (λ r, p (archivo r)) k with
  | Some x, Some y => mismo_archivo x y
  | None, None => True
  | _, _ => False
  end.
Proof.
  induction 1 as [|r f l k Hrf HF IH]; [done|].
  cbn [List.find]. destruct Hrf as [Hn Hl]. rewrite Hn.
  destruct (p (archivo r)); [by split|exact IH].
Qed.

(** ** What a report contains *)

Lemma analizar_Ok (regs filas : list Registro) (evs : list Evento) :
  Forall recien_creado regs →
  analizar regs = Ok (filas, evs) →
  filas ≠ []
  ∧ Forall2 mismo_archivo (sorted_key lineas_codigo regs) filas
  ∧ asciende lineas_codigo filas
  ∧ (∀ f, f ∈ filas → fila_correcta filas f)
  ∧ consola_correcta filas evs.
Proof.
  intros Hnew. unfold analizar.
  set (ords := sorted_key lineas_codigo regs).
  destruct (primero ords) as [simple|] eqn:Hsimple; cbn [mbind Res_bind]; [|done].
  destruct (ultimo ords) as [complejo|] eqn:Hcomplejo; cbn [mbind Res_bind];
    [|done].
  set (ref := List.find (λ r, es_referencia (archivo r)) ords).
  destruct (mapM _ ords) as [filas'|] eqn:Hfilas; cbn [mbind Res_bind]; [|done].
  destruct (mapM evento_resumen filas') as [resumen|] eqn:Hres;
    cbn [mbind Res_bind]; [|done].
  destruct (porcentaje _ (lineas_codigo complejo)) as [pct|] eqn:Hpct;
    cbn [mbind Res_bind]; [|done].
  intros Hfin.
  assert (Hasc : asciende lineas_codigo ords) by apply sorted_key_asciende.
  apply mapM_Ok_Forall2 in Hfilas.
  assert (Hmismo : Forall2 mismo_archivo ords filas').
  { eapply Forall2_impl; [exact Hfilas|]. intros r f Hrf.
    apply actualizar_campos in Hrf as (? & ? & _). by split. }
  assert (Hasc' : asciende lineas_codigo filas')
    by by eapply mismo_archivo_asciende.
  destruct (mismo_archivo_primero _ _ _ Hmismo Hsimple) as (f0 & Hf0 & Hn0 & Hl0).
  destruct (mismo_archivo_ultimo _ _ _ Hmismo Hcomplejo) as (f1 & Hf1 & Hn1 & Hl1).
  pose proof (minimo_primero _ _ Hasc' Hf0) as Hmin.
  pose proof (maximo_ultimo _ _ Hasc' Hf1) as Hmax.
  pose proof (mismo_archivo_find es_referencia _ _ Hmismo) as Hfind.
  fold ref in Hfind.
  assert (Hfilas_ok : ∀ f, f ∈ filas' → fila_correcta filas' f).
  { intros f Hf.
    destruct (Forall2_elem_of_r _ _ _ _ Hfilas Hf) as (r & Hr & Hact).
    apply actualizar_campos in Hact
      as (_ & Hl & Habs & (p & Hp & Hpct') & Hrefs).
    assert (Hrnew : recien_creado r).
    { rewrite Forall_forall in Hnew. apply Hnew.
      unfold ords, sorted_key in Hr. by rewrite sorted_Permutation in Hr. }
    unfold fila_correcta. cbv zeta. rewrite Hmin, Hl0, Hl.
    split; [done|]. split.
    { rewrite Hpct'. do 2 f_equal. by apply porcentaje_Ok. }
    destruct ref as [r0|], (List.find _ filas') as [fr|]; try done.
    - destruct Hfind as [_ Hlr]. cbn [fmap option_fmap option_map] in Hrefs.
      destruct Hrefs as (Hra & q & Hq & Hrp). rewrite Hlr.
      split; [done|]. rewrite Hrp. do 2 f_equal. by apply porcentaje_Ok.
    - cbn [fmap option_fmap option_map] in Hrefs.
      destruct Hrefs as [-> ->]. by destruct Hrnew as (_ & _ & _ & ? & ?). }
  assert (Hcons : ∀ comparacion,
            match ref with
            | Some r =>
                mapM eventos_referencia filas'
                ≫= λ evs0, Ok ([Referencia (archivo r) (lineas_codigo r);
                                TituloComparacion] ++ concat evs0)
            | None => Ok [NotaSinReferencia]
            end = Ok comparacion →
            match List.find (λ r, es_referencia (archivo r)) filas' with
            | Some fr =>
                ∃ lineas_ref,
                  mapM eventos_referencia filas' = Ok lineas_ref
                  ∧ comparacion
                    = [Referencia (archivo fr) (lineas_codigo fr);
                       TituloComparacion] ++ concat lineas_ref
            | None => comparacion = [NotaSinReferencia]
            end).
  { intros comparacion Hc.
    destruct ref as [r0|], (List.find _ filas') as [fr|]; try done.
    - destruct Hfind as [Hnr Hlr].
      destruct (mapM eventos_referencia filas') as [lr|]; [|done].
      cbn [mbind Res_bind] in Hc. injection Hc as <-.
      exists lr. by rewrite Hnr, Hlr.
    - by injection Hc as <-. }
  destruct (match ref with Some _ => _ | None => _ end) as [comparacion|]
    eqn:Hcomp; cbn [mbind Res_bind] in Hfin; [|done].
  injection Hfin as <- <-.
  split; [by destruct filas'|].
  split; [done|]. split; [done|]. split; [done|].
  exists f0, f1, resumen, comparacion.
  split; [done|]. split; [done|]. split; [done|].
  split; [by apply Hcons|].
  by rewrite Hmin, Hmax, Hl0, Hl1, Hn0, Hn1, (porcentaje_Ok _ _ _ Hpct).
Qed.

Lemma registros_no_vacio (w : Mundo) (archivos : list string)
    (regs : list Registro) :
  registros w archivos = Some regs → archivos ≠ [] → regs ≠ [].
Proof.
  intros H Hne ->. apply registros_recien_creados in H as [Hlen _].
  destruct archivos; [done|discriminate].
Qed.

(** Past the file reads, an exception can only come from one of the
    percentages, each of them a difference of two counts over a count. *)
Lemma analizar_Raise_porcentaje (regs : list Registro) (e : Excepcion) :
  regs ≠ [] → analizar regs = Raise e →
  ∃ r1 r2 r3, r1 ∈ regs ∧ r2 ∈ regs ∧ r3 ∈ regs
    ∧ porcentaje (lineas_codigo r1 - lineas_codigo r2) (lineas_codigo r3)
      = Raise e.
Proof.
  intros Hne. unfold analizar.
  set (ords := sorted_key lineas_codigo regs).
  assert (Hin : ∀ r, r ∈ ords → r ∈ regs).
  { intros r Hr. unfold ords, sorted_key in Hr.
    by rewrite sorted_Permutation in Hr. }
  assert (Hords : ords ≠ []).
  { intros H. by apply sorted_nil_inv in H. }
  destruct (primero ords) as [simple|] eqn:Hsimple; cbn [mbind Res_bind];
    [|by destruct ords].
  destruct (ultimo ords) as [complejo|] eqn:Hcomplejo; cbn [mbind Res_bind].
  2: { unfold ultimo in Hcomplejo.
       destruct (last ords) eqn:E; [done|]. by apply last_None in E. }
  apply primero_elem_of, Hin in Hsimple.
  apply ultimo_elem_of, Hin in Hcomplejo.
  destruct (List.find (λ r, es_referencia (archivo r)) ords) as [r0|] eqn:Hfind;
    cbn [fmap option_fmap option_map].
  - apply find_elem_of in Hfind as [Hr0 _]. apply Hin in Hr0.
    destruct (mapM _ ords) as [filas|e'] eqn:Hfilas; cbn [mbind Res_bind].
    2: { intros [= <-]. apply mapM_Raise in Hfilas as (r & Hr & Hact).
         apply Hin in Hr. unfold actualizar in Hact.
         destruct (porcentaje _ (lineas_codigo simple)) as [pm|e1] eqn:Em;
           cbn [mbind Res_bind] in Hact.
         - destruct (porcentaje _ (lineas_codigo r0)) as [pr|e2] eqn:Er;
             cbn [mbind Res_bind] in Hact; [done|].
           injection Hact as ->. by exists r, r0, r0.
         - injection Hact as ->. by exists r, simple, simple. }
    apply mapM_Ok_Forall2 in Hfilas.
    destruct (mapM evento_resumen filas) as [resumen|e'] eqn:Hres;
      cbn [mbind Res_bind].
    2: { apply mapM_Raise in Hres as (f & Hf & Hev).
         destruct (Forall2_elem_of_r _ _ _ _ Hfilas Hf) as (r & _ & Hact).
         apply actualizar_campos in Hact as (_ & _ & Habs & (p & _ & Hp) & _).
         unfold evento_resumen in Hev. by rewrite Habs, Hp in Hev. }
    destruct (porcentaje _ (lineas_codigo complejo)) as [pct|e'] eqn:Hpct;
      cbn [mbind Res_bind].
    2: { intros [= <-]. by exists complejo, simple, complejo. }
    destruct (mapM eventos_referencia filas) as [lr|e'] eqn:Hlr;
      cbn [mbind Res_bind]; [done|].
    apply mapM_Raise in Hlr as (f & Hf & Hev).
    destruct (Forall2_elem_of_r _ _ _ _ Hfilas Hf) as (r & _ & Hact).
    apply actualizar_campos in Hact as (_ & _ & _ & _ & Habs & (p & _ & Hp)).
    unfold eventos_referencia in Hev. by rewrite Habs, Hp in Hev.
  - destruct (mapM _ ords) as [filas|e'] eqn:Hfilas; cbn [mbind Res_bind].
    2: { intros [= <-]. apply mapM_Raise in Hfilas as (r & Hr & Hact).
         apply Hin in Hr. unfold actualizar in Hact.
         destruct (porcentaje _ (lineas_codigo simple)) as [pm|e1] eqn:Em;
           cbn [mbind Res_bind] in Hact; [done|].
         injection Hact as ->. by exists r, simple, simple. }
    apply mapM_Ok_Forall2 in Hfilas.
    destruct (mapM evento_resumen filas) as [resumen|e'] eqn:Hres;
      cbn [mbind Res_bind].
    2: { apply mapM_Raise in Hres as (f & Hf & Hev).
         destruct (Forall2_elem_of_r _ _ _ _ Hfilas Hf) as (r & _ & Hact).
         apply actualizar_campos in Hact as (_ & _ & Habs & (p & _ & Hp) & _).
         unfold evento_resumen in Hev. by rewrite Habs, Hp in Hev. }
    destruct (porcentaje _ (lineas_codigo complejo)) as [pct|e'] eqn:Hpct;
      cbn [mbind Res_bind]; [done|].
    intros [= <-]. by exists complejo, simple, complejo.
Qed.

Lemma analizar_Raise (regs : list Registro) (e : Excepcion) :
  regs ≠ [] → analizar regs = Raise e → e = OverflowError.
Proof.
  intros Hne Han.
  destruct (analizar_Raise_porcentaje regs e Hne Han) as (? & ? & ? & _ & _ & _ & H).
  by eapply porcentaje_Raise.
Qed.

Lemma ejecutar_desenlace (w : Mundo) : Desenlace w (ejecutar w).
Proof.
  destruct (dir_existe w) eqn:Hdir.
  2: { rewrite ejecutar_sin_carpeta by done. by constructor. }
  destruct (dir_legible w) eqn:Hleg.
  2: { rewrite ejecutar_sin_permiso by done. by constructor. }
  destruct (decide (candidatos w = [])) as [Hnil|Hne].
  { rewrite ejecutar_sin_archivos by done. by constructor. }
  destruct (registros w (candidatos w)) as [regs|] eqn:Hregs.
  2: { destruct (ejecutar_ilegible w Hdir Hleg Hne Hregs) as (s & -> & Hcsv).
       by constructor. }
  pose proof (ejecutar_informe w regs Hdir Hleg Hne Hregs) as H.
  destruct (analizar regs) as [[filas evs]|e] eqn:Han.
  - destruct H as (h & ->).
    destruct (puede_escribir w nombre_csv) eqn:Hesc.
    + eapply Informe; eauto. by eapply registros_recien_creados.
    + eapply SinEscritura; eauto. by eapply registros_recien_creados.
  - destruct H as (s & -> & Hcsv).
    assert (e = OverflowError) as ->.
    { eapply analizar_Raise; [|exact Han]. by eapply registros_no_vacio. }
    by eapply Desborde.
Qed.

(** A run that writes the report has gone through every step. *)
Lemma informe_inv (w : Mundo) (filas : list Registro) :
  csv (ejecutar w).2 = Some filas →
  ∃ regs evs h,
    dir_existe w = true
    ∧ registros w (candidatos w) = Some regs
    ∧ Forall recien_creado regs
    ∧ analizar regs = Ok (filas, evs)
    ∧ ejecutar w
      = (Ok tt, {| heap := h;
                   consola := [Titulo; Regla] ++ (evento_conteo <$> regs)
                              ++ [Regla] ++ evs;
                   csv := Some filas |}).
Proof.
  intros Hcsv. destruct (ejecutar_desenlace w) as
    [ | | s ? ? ? Hs ? | regs s ? ? ? ? Hs ?
    | regs filas' evs h ? ? ? ? ? ? ? | | ];
    cbn [snd csv] in Hcsv; try done.
  - congruence.
  - congruence.
  - injection Hcsv as ->. by exists regs, evs, h.
Qed.

(** Such a run has listed the directory and opened the file of the
    report. *)
Lemma informe_permisos (w : Mundo) (filas : list Registro) :
  csv (ejecutar w).2 = Some filas →
  dir_legible w = true ∧ puede_escribir w nombre_csv = true.
Proof.
  intros Hcsv. destruct (ejecutar_desenlace w) as
    [ | | s ? ? ? Hs ? | regs s ? ? ? ? Hs ? | | | ];
    cbn [snd csv] in Hcsv; try done; congruence.
Qed.

Lemma informe_obtener (w : Mundo) (filas : list Registro) :
  csv (ejecutar w).2 = Some filas →
  (obtener_archivos_config w CONFIG_DIR inicial).1 = Ok (candidatos w).
Proof.
  intros Hcsv.
  destruct (informe_inv w filas Hcsv) as (_ & _ & _ & Hdir & _).
  destruct (informe_permisos w filas Hcsv) as [Hleg _].
  by rewrite obtener_archivos_config_eq.
Qed.

(** ** What the console shows *)

Lemma elem_of_consola (regs : list Registro) (evs : list Evento) (ev : Evento) :
  ev ∈ evs →
  ev ∈ [Titulo; Regla] ++ (evento_conteo <$> regs) ++ [Regla] ++ evs.
Proof.
  intros H. apply elem_of_app; right. apply elem_of_app; right.
  apply elem_of_app; by right.
Qed.

Lemma consola_extremos (filas : list Registro) (evs : list Evento) :
  consola_correcta filas evs →
  Extremos (maximo filas - minimo filas)
           (porcentaje_valor (maximo filas - minimo filas) (maximo filas))
  ∈ evs.
Proof.
  intros (f0 & f1 & resumen & comparacion & _ & _ & _ & _ & ->).
  apply elem_of_app; right. apply elem_of_app; right.
  apply elem_of_app; left. do 2 right. by left.
Qed.

Lemma consola_referencia (filas : list Registro) (evs : list Evento)
    (fr : Registro) :
  consola_correcta filas evs →
  List.find (λ r, es_referencia (archivo r)) filas = Some fr →
  Referencia (archivo fr) (lineas_codigo fr) ∈ evs.
Proof.
  intros (f0 & f1 & resumen & comparacion & _ & _ & _ & Hcomp & ->) Hfind.
  rewrite Hfind in Hcomp. destruct Hcomp as (lr & _ & ->).
  apply elem_of_app; right. apply elem_of_app; right.
  apply elem_of_app; right. apply elem_of_app; left.
  apply elem_of_app; left. by left.
Qed.

Lemma resumen_no_referencia (filas : list Registro) (resumen : list Evento)
    (nombre : string) (n : Z) :
  mapM evento_resumen filas = Ok resumen → Referencia nombre n ∉ resumen.
Proof.
  intros H Hin. apply mapM_Ok_Forall2 in H.
  destruct (Forall2_elem_of_r _ _ _ _ H Hin) as (f & _ & Hev).
  unfold evento_resumen in Hev.
  destruct (formato (diff_vs_min_abs f)); cbn [mbind Res_bind] in Hev; [|done].
  destruct (formato (diff_vs_min_pct f)); cbn [mbind Res_bind] in Hev; done.
Qed.

(** Without a matching name the console carries the notice and no
    reference line. *)
Lemma consola_sin_referencia (regs filas : list Registro) (evs : list Evento) :
  consola_correcta filas evs →
  List.find (λ r, es_referencia (archivo r)) filas = None →
  let consola := [Titulo; Regla] ++ (evento_conteo <$> regs) ++ [Regla] ++ evs in
  NotaSinReferencia ∈ consola ∧ ∀ nombre n, Referencia nombre n ∉ consola.
Proof.
  intros (f0 & f1 & resumen & comparacion & _ & _ & Hres & Hcomp & ->) Hfind.
  rewrite Hfind in Hcomp. subst comparacion. split.
  - apply elem_of_consola.
    apply elem_of_app; right. apply elem_of_app; right.
    apply elem_of_app; right. apply elem_of_app; left. by left.
  - intros nombre n Hin.
    repeat (apply elem_of_app in Hin as [Hin|Hin]);
      repeat (apply elem_of_cons in Hin as [Hin|Hin]; [done|]);
      try (by inversion Hin).
    + apply list_elem_of_fmap in Hin as (r & Hr & _). done.
    + by eapply resumen_no_referencia.
Qed.

Lemma porcentaje_valor_cero (base : Z) :
  PyFloat.round2 (porcentaje_valor 0 base) = PyFloat.cero.
Proof.
  unfold porcentaje_valor.
  destruct (Z.ltb_spec 0 base) as [Hpos|]; [|done].
  cbn [PyFloat.div_int].
  destruct (Z.ltb_spec base 0) as [|_]; [lia|]. reflexivity.
Qed.

(** ** Quotients that do not overflow *)

Lemma fexp_eq (e : Z) :
  fexp PyFloat.prec PyFloat.emax e = Z.max (e - 53) (-1074).
Proof. reflexivity. Qed.

Lemma digits2_pos_size (p : positive) : digits2_pos p = Pos.size p.
Proof. induction p as [p IH|p IH|]; cbn; by rewrite ?IH. Qed.

(** A non-negative integer below [2^d] has at most [d] binary digits. *)
Lemma Zdigits2_le (m d : Z) : 0 ≤ m → 0 ≤ d → m < 2 ^ d → Zdigits2 m ≤ d.
Proof.
  intros Hm Hd Hlt. destruct m as [|p|p]; [done| |lia].
  cbn [Zdigits2]. rewrite digits2_pos_size.
  pose proof (Pos.size_le p) as Hle.
  apply Pos2Z.pos_le_pos in Hle. rewrite Pos2Z.inj_pow in Hle.
  assert (H : 2 ^ Z.pos (Pos.size p) < 2 ^ (d + 1)).
  { rewrite Z.pow_add_r, Z.pow_1_r by lia. lia. }
  assert (Z.pos (Pos.size p) < d + 1); [|lia].
  apply (Z.pow_lt_mono_r_iff 2); lia.
Qed.

Lemma Zdigits2_lt_pow (m : Z) : 0 ≤ m → m < 2 ^ Zdigits2 m.
Proof.
  intros Hm. destruct m as [|p|p]; [done| |lia].
  cbn [Zdigits2]. rewrite digits2_pos_size.
  pose proof (Pos.size_gt p) as Hgt.
  apply Pos2Z.pos_lt_pos in Hgt. by rewrite Pos2Z.inj_pow in Hgt.
Qed.

Lemma Zdigits2_nonneg (m : Z) : 0 ≤ Zdigits2 m.
Proof. by destruct m. Qed.

(** One step of the right shift halves the mantissa. *)
Lemma shr_1_m (mrs : shr_record) :
  0 ≤ shr_m mrs → shr_m (shr_1 mrs) = shr_m mrs / 2.
Proof.
  destruct mrs as [m r s]. cbn [shr_m shr_1]. intros Hm.
  destruct m as [|[p|p|]|p]; cbn [shr_m]; try done; try lia.
  - apply (Z.div_unique_pos _ _ _ 1); lia.
  - apply (Z.div_unique_pos _ _ _ 0); lia.
Qed.

Lemma shr_iter_m (p : positive) (mrs : shr_record) :
  0 ≤ shr_m mrs →
  shr_m (SpecFloat.iter_pos shr_1 p mrs) = shr_m mrs / 2 ^ Z.pos p.
Proof.
  revert mrs; induction p as [p IH|p IH|]; intros mrs Hm; cbn [SpecFloat.iter_pos].
  - assert (H1 : 0 ≤ shr_m (shr_1 mrs)).
    { rewrite shr_1_m by done. by apply Z.div_pos. }
    assert (H2 : 0 ≤ shr_m (SpecFloat.iter_pos shr_1 p (shr_1 mrs))).
    { rewrite IH by done. apply Z.div_pos; [done|]. by apply Z.pow_pos_nonneg. }
    rewrite IH, IH, shr_1_m by done.
    rewrite !Z.div_div by (try apply Z.pow_pos_nonneg; lia).
    f_equal. replace (Z.pos p~1) with (1 + Z.pos p + Z.pos p) by lia.
    rewrite !Z.pow_add_r, Z.pow_1_r by lia. lia.
  - assert (H2 : 0 ≤ shr_m (SpecFloat.iter_pos shr_1 p mrs)).
    { rewrite IH by done. apply Z.div_pos; [done|]. by apply Z.pow_pos_nonneg. }
    rewrite IH, IH by done.
    rewrite !Z.div_div by (try apply Z.pow_pos_nonneg; lia).
    f_equal. replace (Z.pos p~0) with (Z.pos p + Z.pos p) by lia.
    by rewrite !Z.pow_add_r by lia.
  - by apply shr_1_m.
Qed.

Lemma shr_record_of_loc_m (m : Z) (l : location) :
  shr_m (shr_record_of_loc m l) = m.
Proof. by destruct l as [|[]]. Qed.

(** After the shift to the working exponent the mantissa fits in 53 bits. *)
Lemma shr_fexp_cota (m e : Z) (l : location) :
  0 ≤ m →
  0 ≤ shr_m (shr_fexp PyFloat.prec PyFloat.emax m e l).1 < 2 ^ 53
  ∧ (shr_fexp PyFloat.prec PyFloat.emax m e l).2
    = Z.max e (fexp PyFloat.prec PyFloat.emax (Zdigits2 m + e)).
Proof.
  intros Hm. unfold shr_fexp, shr. rewrite fexp_eq.
  pose proof (Zdigits2_lt_pow m Hm) as Hlt.
  pose proof (Zdigits2_nonneg m) as Hd.
  set (d := Zdigits2 m) in *.
  destruct (Z.max (d + e - 53) (-1074) - e) as [|n|n] eqn:En; cbn [fst snd].
  - rewrite shr_record_of_loc_m. split; [|lia]. split; [done|].
    eapply Z.lt_le_trans; [exact Hlt|]. apply Z.pow_le_mono_r; lia.
  - rewrite shr_iter_m by by rewrite shr_record_of_loc_m.
    rewrite shr_record_of_loc_m. split; [|lia]. split.
    + apply Z.div_pos; [done|]. by apply Z.pow_pos_nonneg.
    + apply Z.div_lt_upper_bound; [by apply Z.pow_pos_nonneg|].
      rewrite <- Z.pow_add_r by lia.
      eapply Z.lt_le_trans; [exact Hlt|]. apply Z.pow_le_mono_r; lia.
  - rewrite shr_record_of_loc_m. split; [|lia]. split; [done|].
    eapply Z.lt_le_trans; [exact Hlt|]. apply Z.pow_le_mono_r; lia.
Qed.

Lemma round_nearest_even_cota (m : Z) (l : location) :
  0 ≤ m → 0 ≤ round_nearest_even m l ≤ m + 1.
Proof.
  intros Hm. unfold round_nearest_even.
  destruct l as [|[]]; try lia. destruct (Z.even m); lia.
Qed.

(** Rounding a magnitude below [2^1023] never gives an infinity. *)
Lemma binary_round_aux_finito (sx : bool) (mx ex : Z) (lx : location) (s : bool) :
  0 ≤ mx → Zdigits2 mx + ex ≤ 1023 → ex ≤ 970 →
  binary_round_aux PyFloat.prec PyFloat.emax sx mx ex lx ≠ S754_infinity s.
Proof.
  intros Hm Hd He. unfold binary_round_aux.
  destruct (shr_fexp_cota mx ex lx Hm) as [Hm1 He1].
  destruct (shr_fexp PyFloat.prec PyFloat.emax mx ex lx) as [mrs' e'].
  cbn [fst snd] in Hm1, He1. rewrite fexp_eq in He1.
  pose proof (round_nearest_even_cota (shr_m mrs') (loc_of_shr_record mrs')
                ltac:(lia)) as Hr.
  set (m1 := round_nearest_even (shr_m mrs') (loc_of_shr_record mrs')) in *.
  destruct (shr_fexp_cota m1 e' loc_Exact ltac:(lia)) as [_ He2].
  destruct (shr_fexp PyFloat.prec PyFloat.emax m1 e' loc_Exact) as [mrs'' e''].
  cbn [fst snd] in He2. rewrite fexp_eq in He2.
  assert (Hd1 : Zdigits2 m1 ≤ 54).
  { apply Zdigits2_le; [lia|lia|].
    replace 54 with (53 + 1) by lia. rewrite Z.pow_add_r, Z.pow_1_r by lia.
    lia. }
  destruct (shr_m mrs''); [done| |done].
  assert (Hle : e'' ≤ PyFloat.emax - PyFloat.prec).
  { unfold PyFloat.emax, PyFloat.prec. lia. }
  apply Z.leb_le in Hle. by rewrite Hle.
Qed.

Lemma div_int_finito (a b : Z) (s : bool) :
  b ≠ 0 → Z.abs a < 2 ^ 1023 → PyFloat.div_int a b ≠ S754_infinity s.
Proof.
  intros Hb Ha. unfold PyFloat.div_int.
  destruct (decide (a = 0)) as [->|Hne]; [done|].
  assert (E : ∀ x, match a with 0 => S754_zero (b <? 0) | _ => x end = x)
    by by destruct a.
  rewrite E. clear E.
  set (ma := Z.to_pos (Z.abs a)). set (mb := Z.to_pos (Z.abs b)).
  assert (Hma : Z.pos ma = Z.abs a) by (unfold ma; lia).
  assert (Hmb : 0 < Z.pos mb) by lia.
  cbn [SFdiv]. unfold SFdiv_core_binary.
  rewrite !Z.add_0_r, Z.sub_0_r, Z.sub_0_l.
  set (d1 := Zdigits2 (Z.pos ma)). set (d2 := Zdigits2 (Z.pos mb)).
  assert (Hd1 : d1 ≤ 1023) by (apply Zdigits2_le; lia).
  assert (Hd1' : Z.pos ma < 2 ^ d1) by (apply Zdigits2_lt_pow; lia).
  assert (Hd1'' : 0 ≤ d1) by apply Zdigits2_nonneg.
  rewrite fexp_eq.
  set (e' := Z.min (Z.max (d1 - d2 - 53) (-1074)) 0).
  assert (He' : e' ≤ 0) by lia.
  set (m' := match - e' with
             | 0 => Z.pos ma
             | Z.pos _ => Z.shiftl (Z.pos ma) (- e')
             | Z.neg _ => 0
             end).
  assert (Hm' : 0 ≤ m' < 2 ^ (d1 - e')).
  { unfold m'. destruct (- e') as [|n|n] eqn:En; [| |lia].
    - replace (d1 - e') with d1 by lia. lia.
    - rewrite Z.shiftl_mul_pow2 by lia.
      replace (d1 - e') with (d1 + Z.pos n) by lia.
      rewrite Z.pow_add_r by lia.
      assert (0 < 2 ^ Z.pos n) by by apply Z.pow_pos_nonneg. nia. }
  pose proof (Z.div_eucl_eq m' (Z.pos mb) ltac:(lia)) as Hdiv.
  pose proof (Z.mod_pos_bound m' (Z.pos mb) Hmb) as Hmod.
  unfold Z.modulo in Hmod.
  destruct (Z.div_eucl m' (Z.pos mb)) as [q r].
  assert (Hq : 0 ≤ q ≤ m') by nia.
  apply binary_round_aux_finito; [lia| |lia].
  assert (Zdigits2 q ≤ d1 - e'); [|lia].
  apply Zdigits2_le; lia.
Qed.

(** ** Runs that write the report *)

Lemma porcentaje_total (diff base : Z) :
  Z.abs diff < 2 ^ 1023 → porcentaje diff base = Ok (porcentaje_valor diff base).
Proof.
  intros Hd. unfold porcentaje, porcentaje_valor, truediv.
  destruct (Z.ltb_spec 0 base) as [Hpos|]; [|done].
  destruct (Z.eqb_spec base 0) as [->|Hne]; [lia|].
  pose proof (λ s, div_int_finito diff base s Hne Hd) as Hfin.
  destruct (PyFloat.div_int diff base) as [| s| |]; try done.
  by destruct (Hfin s).
Qed.

(** With counts below [2^1023] no percentage overflows, and the analysis
    of a non-empty list of records ends with the rows of the report. *)
Lemma analizar_total (regs : list Registro) :
  regs ≠ [] →
  (∀ r, r ∈ regs → 0 ≤ lineas_codigo r < 2 ^ 1023) →
  ∃ filas evs, analizar regs = Ok (filas, evs).
Proof.
  intros Hne Hcota.
  destruct (analizar regs) as [[filas evs]|e] eqn:Han; [by exists filas, evs|].
  destruct (analizar_Raise_porcentaje regs e Hne Han)
    as (r1 & r2 & r3 & H1 & H2 & H3 & Hp).
  rewrite porcentaje_total in Hp; [done|].
  pose proof (Hcota r1 H1). pose proof (Hcota r2 H2). lia.
Qed.

Lemma registro_de_cota (w : Mundo) (ruta : string) (reg : Registro) :
  registro_de w ruta = Some reg →
  ∃ lineas, lineas_de w ruta = Some lineas
            ∧ 0 ≤ lineas_codigo reg ≤ Z.of_nat (length lineas).
Proof.
  unfold registro_de. destruct (lineas_de w ruta) as [l|]; [|done].
  intros [= <-]. exists l. split; [done|]. cbn.
  rewrite contar_lineas_filter.
  pose proof (filter_length_le es_linea_valida l). lia.
Qed.

Lemma registros_elem_of (w : Mundo) (archivos : list string)
    (regs : list Registro) (reg : Registro) :
  registros w archivos = Some regs → reg ∈ regs →
  ∃ ruta, ruta ∈ archivos ∧ registro_de w ruta = Some reg.
Proof.
  revert regs; induction archivos as [|ruta rs IH]; intros regs.
  - intros [= <-] Hin. by inversion Hin.
  - rewrite registros_cons.
    destruct (registro_de w ruta) as [reg0|] eqn:E; [|done].
    destruct (registros w rs) as [regs'|]; [|done].
    intros [= <-] Hin. apply elem_of_cons in Hin as [->|Hin].
    + exists ruta. split; [by left|done].
    + destruct (IH regs' eq_refl Hin) as (ruta' & Hr & Hreg).
      exists ruta'. split; [by right|done].
Qed.

(** When the directory can be listed, has a candidate file, every
    candidate opens and has fewer than [2^1023] lines, and the file of the
    report can be opened, the run ends normally and writes a report with
    one row for each candidate. *)
Lemma informe_total (w : Mundo) (archivos : list string) :
  (obtener_archivos_config w CONFIG_DIR inicial).1 = Ok archivos →
  puede_escribir w nombre_csv = true →
  archivos ≠ [] →
  (∀ ruta, ruta ∈ archivos →
     ∃ lineas, (abrir w ruta inicial).1 = Ok lineas
               ∧ Z.of_nat (length lineas) < 2 ^ 1023) →
  ∃ filas, (ejecutar w).1 = Ok tt
           ∧ csv (ejecutar w).2 = Some filas
           ∧ length filas = length archivos.
Proof.
  intros Hobt Hesc Hne Habre.
  apply obtener_archivos_config_fst in Hobt as (Hdir & Hleg & <-).
  assert (Hlineas : ∀ ruta, ruta ∈ candidatos w →
            ∃ l, lineas_de w ruta = Some l ∧ Z.of_nat (length l) < 2 ^ 1023).
  { intros ruta Hr. destruct (Habre ruta Hr) as (l & Hab & Hlen).
    rewrite abrir_eq in Hab. cbn [fst] in Hab.
    destruct (lineas_de w ruta) as [l'|]; [|done].
    injection Hab as ->. by exists l. }
  destruct (registros w (candidatos w)) as [regs|] eqn:Hregs.
  2: { apply mapM_None in Hregs. apply Exists_exists in Hregs as (ruta & Hr & Hno).
       destruct (Hlineas ruta Hr) as (l & Hl & _).
       unfold registro_de in Hno. by rewrite Hl in Hno. }
  assert (Hregs_ne : regs ≠ []) by by eapply registros_no_vacio.
  destruct (analizar_total regs Hregs_ne) as (filas & evs & Han).
  { intros reg Hreg.
    destruct (registros_elem_of _ _ _ _ Hregs Hreg) as (ruta & Hr & Hde).
    destruct (registro_de_cota _ _ _ Hde) as (l & Hl & Hcota).
    destruct (Hlineas ruta Hr) as (l' & Hl' & Hlen).
    rewrite Hl in Hl'. injection Hl' as <-. lia. }
  pose proof (ejecutar_informe w regs Hdir Hleg Hne Hregs) as Hrun.
  rewrite Han, Hesc in Hrun. destruct Hrun as (h & ->).
  exists filas. split; [done|]. split; [done|].
  destruct (registros_recien_creados _ _ _ Hregs) as [Hlen Hnew].
  destruct (analizar_Ok regs filas evs Hnew Han) as (_ & Hmismo & _).
  apply Forall2_length in Hmismo.
  rewrite <- Hmismo. unfold sorted_key. by rewrite sorted_length.
Qed.

(** ** A file that does not open *)

Lemma main_conteo_loop_falla (w : Mundo) (antes : list string) (ruta : string)
    (despues : list string) (regs : list Registro) (acc : list Ref)
    (s : Estado) :
  registros w antes = Some regs →
  registro_de w ruta = None →
  for_lista (antes ++ ruta :: despues) acc (main_conteo_paso w) s
  = (Raise OSError,
     {| heap := heap s ++ regs;
        consola := consola s ++ (evento_conteo <$> regs);
        csv := csv s |}).
Proof.
  revert regs acc s; induction antes as [|r rs IH]; intros regs acc s Hregs Hno.
  - injection Hregs as <-. cbn [app for_lista].
    pose proof (main_conteo_paso_eq w acc ruta s) as HP. rewrite Hno in HP.
    rewrite (bind_raise _ _ _ _ _ HP). cbn. rewrite !app_nil_r. by destruct s.
  - rewrite registros_cons in Hregs.
    destruct (registro_de w r) as [reg|] eqn:Hr; [|done].
    destruct (registros w rs) as [regs'|] eqn:Hrs; [|done].
    injection Hregs as <-.
    change ((r :: rs) ++ ruta :: despues) with (r :: (rs ++ ruta :: despues)).
    cbn [for_lista].
    pose proof (main_conteo_paso_eq w acc r s) as HP. rewrite Hr in HP.
    rewrite (bind_ok _ _ _ _ _ HP).
    rewrite (IH regs' _ _ eq_refl Hno). cbn [heap consola csv fmap list_fmap].
    by rewrite <- !app_assoc.
Qed.

Lemma registros_Forall2 (w : Mundo) (archivos : list string)
    (regs : list Registro) :
  registros w archivos = Some regs →
  Forall2 (λ ruta reg, linea_de_ruta w ruta (evento_conteo reg)) archivos regs.
Proof.
  revert regs; induction archivos as [|ruta rs IH]; intros regs.
  - intros [= <-]. constructor.
  - rewrite registros_cons.
    destruct (registro_de w ruta) as [reg|] eqn:Hr; [|done].
    destruct (registros w rs) as [regs'|]; [|done].
    intros [= <-]. constructor; [|by apply IH].
    unfold registro_de in Hr.
    destruct (lineas_de w ruta) as [l|] eqn:Hl; [|done].
    injection Hr as <-. exists l. rewrite abrir_eq, Hl. done.
Qed.

Lemma abren_registros (w : Mundo) (archivos : list string) :
  Forall (λ ruta, ∃ lineas, (abrir w ruta inicial).1 = Ok lineas) archivos →
  ∃ regs, registros w archivos = Some regs.
Proof.
  induction 1 as [|ruta rs (l & Hl) _ (regs & IH)]; [by exists []|].
  rewrite registros_cons, IH. unfold registro_de.
  rewrite abrir_eq in Hl. cbn [fst] in Hl.
  destruct (lineas_de w ruta); [|done]. by eexists.
Qed.

(** The run stops at the first file that does not open. *)
Lemma ejecutar_falla (w : Mundo) (antes : list string) (ruta : string)
    (despues : list string) (regs : list Registro) :
  dir_existe w = true → dir_legible w = true →
  candidatos w = antes ++ ruta :: despues →
  registros w antes = Some regs →
  registro_de w ruta = None →
  ejecutar w
  = (Raise OSError,
     {| heap := regs;
        consola := [Titulo; Regla] ++ (evento_conteo <$> regs);
        csv := None |}).
Proof.
  intros Hdir Hleg Hcand Hregs Hno.
  unfold ejecutar, main. rewrite isdir_CONFIG_DIR, Hdir. cbn [negb].
  erewrite bind_ok by by apply obtener_archivos_config_eq.
  rewrite Hcand. destruct antes as [|a antes'].
  - cbn [app]. do 2 (erewrite bind_ok by reflexivity).
    unfold main_conteo.
    erewrite bind_raise by by apply (main_conteo_loop_falla w []).
    done.
  - change ((a :: antes') ++ ruta :: despues)
      with (a :: (antes' ++ ruta :: despues)).
    cbv iota. do 2 (erewrite bind_ok by reflexivity).
    unfold main_conteo.
    change (a :: (antes' ++ ruta :: despues))
      with ((a :: antes') ++ ruta :: despues).
    erewrite bind_raise by by apply main_conteo_loop_falla.
    done.
Qed.

(** Among paths of which one does not open there is a first one. *)
Lemma primera_falla (w : Mundo) (archivos : list string) (ruta : string) :
  ruta ∈ archivos → lineas_de w ruta = None →
  ∃ antes mala despues,
    archivos = antes ++ mala :: despues
    ∧ Forall (λ r, is_Some (lineas_de w r)) antes
    ∧ lineas_de w mala = None.
Proof.
  induction archivos as [|r rs IH]; intros Hin Hno; [by inversion Hin|].
  destruct (lineas_de w r) as [l|] eqn:Hr.
  - apply elem_of_cons in Hin as [->|Hin]; [congruence|].
    destruct (IH Hin Hno) as (antes & mala & despues & -> & Hantes & Hmala).
    exists (r :: antes), mala, despues. split; [done|]. split; [|done].
    constructor; [by rewrite Hr|done].
  - exists [], r, rs. by repeat split.
Qed.

(** * The report *)

Lemma find_none_iff {A : Type} (p : A → bool) (l : list A) :
  List.find p l = None ↔ ∀ x, x ∈ l → p x = false.
Proof.
  split.
  - intros H x Hx. apply list_elem_of_In in Hx.
    by apply (List.find_none _ _ H).
  - intros H. destruct (List.find p l) as [x|] eqn:E; [|done].
    apply find_elem_of in E as [Hx Hp]. rewrite (H x Hx) in Hp. done.
Qed.

Lemma cuarenta_es_40 : cuarenta = PyFloat.of_int 40.
Proof. reflexivity. Qed.

Lemma ejecutar_mundo_mpls :
  (ejecutar mundo_mpls).1 = Ok tt
  ∧ csv (ejecutar mundo_mpls).2 = Some filas_mpls.
Proof. split; vm_compute; reflexivity. Qed.

Lemma ejecutar_mundo_sin_referencia :
  (ejecutar mundo_sin_referencia).1 = Ok tt
  ∧ csv (ejecutar mundo_sin_referencia).2 = Some filas_sin_referencia.
Proof. split; vm_compute; reflexivity. Qed.

(** ** The count of a file *)

(** C1. For every list of lines, the count made by [contar_lineas_config]
    on a file with those lines is the number of lines that are not blank
    once trimmed and that, with comments ignored (the script's setting), do
    not start with [#], [!] or [//]; it lies between zero and the number
    of lines. *)
Theorem contar_lineas_correct (lineas : list string) :
  contar_lineas lineas
  = Z.of_nat (length (List.filter
                        (linea_de_codigo_spec true ["#"; "!"; "//"]%string)
                        lineas))
  ∧ 0 ≤ contar_lineas lineas ≤ Z.of_nat (length lineas)
  ∧ ∀ (w : Mundo) (ruta : string) (s : Estado),
      abrir w ruta s = (Ok lineas, s) →
      contar_lineas_config w ruta s = (Ok (contar_lineas lineas), s).
Proof.
  split; [|split].
  - rewrite contar_lineas_filter. do 2 f_equal.
    apply List.filter_ext. intros l. apply es_linea_valida_spec.
  - rewrite contar_lineas_filter.
    pose proof (filter_length_le es_linea_valida lineas). lia.
  - intros w ruta s. apply contar_lineas_config_abre.
Qed.

(** The file of scenario 3: a comment, a blank line, a comment. *)
Lemma contar_lineas_correct_witness :
  abrir mundo_comentarios "./notas.txt" inicial
  = (Ok ["# a"; ""; "! b"]%string, inicial)
  ∧ contar_lineas_config mundo_comentarios "./notas.txt" inicial
    = (Ok 0, inicial).
Proof.
  split; [vm_compute; reflexivity|].
  apply (proj2 (proj2 (contar_lineas_correct ["# a"; ""; "! b"]%string))
           mundo_comentarios "./notas.txt"%string inicial).
  vm_compute; reflexivity.
Defined.

(** ** Unreadable files *)

(** C2, as the specification states it, fails on a directory with one
    file that opens and one that does not: the run ends with the
    exception of [open], after the count of the first file, and writes no
    report. *)
Lemma lectura_fallida_counterexample :
  (abrir mundo_ilegible "./a.txt" inicial).1 = Ok (codigo 3)
  ∧ (abrir mundo_ilegible "./b.txt" inicial).1 = Raise OSError
  ∧ ejecutar mundo_ilegible
    = (Raise OSError,
       {| heap := [registro_inicial "a.txt" 3];
          consola := [Titulo; Regla; LineaConteo "a.txt" 3];
          csv := None |})
  ∧ ¬ ∃ filas, csv (ejecutar mundo_ilegible).2 = Some filas.
Proof.
  assert (E : ejecutar mundo_ilegible
              = (Raise OSError,
                 {| heap := [registro_inicial "a.txt" 3];
                    consola := [Titulo; Regla; LineaConteo "a.txt" 3];
                    csv := None |})) by (vm_compute; reflexivity).
  split; [vm_compute; reflexivity|].
  split; [vm_compute; reflexivity|].
  split; [exact E|].
  rewrite E. by intros (filas & Hf).
Qed.

Lemma registros_None (w : Mundo) (archivos : list string) (ruta : string) :
  ruta ∈ archivos → lineas_de w ruta = None → registros w archivos = None.
Proof.
  intros Hin Hno. unfold registros. apply mapM_None.
  apply Exists_exists. exists ruta. split; [done|].
  unfold registro_de. by rewrite Hno.
Qed.

(** C2, amended. When a candidate file cannot be opened, the exception of
    [open] is not caught and leaves [main]: the run ends with [OSError] at
    the first such file of the enumeration.  The files enumerated before
    it have been read and their counts printed, in order; nothing else is
    printed, so the failure is not reported for the file and the file is
    not set aside; the files after it are not read, and no report is
    written. *)
Theorem lectura_fallida_aborta (w : Mundo) (archivos : list string)
    (ruta : string) :
  (obtener_archivos_config w CONFIG_DIR inicial).1 = Ok archivos →
  ruta ∈ archivos →
  (abrir w ruta inicial).1 = Raise OSError →
  (ejecutar w).1 = Raise OSError
  ∧ csv (ejecutar w).2 = None
  ∧ ∃ antes mala despues conteos,
      archivos = antes ++ mala :: despues
      ∧ Forall (λ r, ∃ lineas, (abrir w r inicial).1 = Ok lineas) antes
      ∧ (abrir w mala inicial).1 = Raise OSError
      ∧ Forall2 (linea_de_ruta w) antes conteos
      ∧ consola (ejecutar w).2 = [Titulo; Regla] ++ conteos
      ∧ length (heap (ejecutar w).2) = length antes.
Proof.
  intros Hobt Hin Habrir.
  apply obtener_archivos_config_fst in Hobt as (Hdir & Hleg & <-).
  rewrite abrir_eq in Habrir. cbn [fst] in Habrir.
  destruct (lineas_de w ruta) eqn:Hl; [done|].
  destruct (primera_falla w _ ruta Hin Hl)
    as (antes & mala & despues & Hcand & Hantes & Hmala).
  assert (Habren : Forall (λ r, ∃ lineas, (abrir w r inicial).1 = Ok lineas)
                          antes).
  { eapply Forall_impl; [exact Hantes|]. intros r [l Hr].
    exists l. by rewrite abrir_eq, Hr. }
  destruct (abren_registros w antes Habren) as (regs & Hregs).
  assert (Hno : registro_de w mala = None)
    by (unfold registro_de; by rewrite Hmala).
  rewrite (ejecutar_falla w antes mala despues regs Hdir Hleg Hcand Hregs Hno).
  cbn [fst snd consola heap csv].
  split; [done|]. split; [done|].
  exists antes, mala, despues, (evento_conteo <$> regs).
  split; [done|]. split; [done|].
  split; [by rewrite abrir_eq, Hmala|].
  split; [apply Forall2_fmap_r; by apply registros_Forall2|].
  split; [done|].
  by destruct (registros_recien_creados _ _ _ Hregs).
Qed.

Lemma lectura_fallida_aborta_witness :
  (obtener_archivos_config mundo_ilegible CONFIG_DIR inicial).1
  = Ok ["./a.txt"; "./b.txt"]%string
  ∧ (ejecutar mundo_ilegible).1 = Raise OSError
  ∧ csv (ejecutar mundo_ilegible).2 = None
  ∧ ∃ antes mala despues conteos,
      ["./a.txt"; "./b.txt"]%string = antes ++ mala :: despues
      ∧ Forall (λ r, ∃ lineas, (abrir mundo_ilegible r inicial).1 = Ok lineas)
               antes
      ∧ (abrir mundo_ilegible mala inicial).1 = Raise OSError
      ∧ Forall2 (linea_de_ruta mundo_ilegible) antes conteos
      ∧ consola (ejecutar mundo_ilegible).2 = [Titulo; Regla] ++ conteos
      ∧ length (heap (ejecutar mundo_ilegible).2) = length antes.
Proof.
  split; [vm_compute; reflexivity|].
  apply (lectura_fallida_aborta mundo_ilegible
           ["./a.txt"; "./b.txt"]%string "./b.txt"%string).
  - vm_compute; reflexivity.
  - right; left.
  - vm_compute; reflexivity.
Defined.

(** ** Differences against the minimum *)

(** C3. A directory with candidate files that all open (with fewer than
    [2^1023] lines each), and in which the file of the report can be opened
    for writing, gets a report with one row for each file.  In every
    report, each row holds its count minus the minimum count of the rows;
    that difference is never negative, and it is zero exactly for the rows
    whose count is the minimum. *)
Theorem diff_vs_min_abs_correct (w : Mundo) :
  (∀ archivos,
     (obtener_archivos_config w CONFIG_DIR inicial).1 = Ok archivos →
     puede_escribir w nombre_csv = true →
     archivos ≠ [] →
     (∀ ruta, ruta ∈ archivos →
        ∃ lineas, (abrir w ruta inicial).1 = Ok lineas
                  ∧ Z.of_nat (length lineas) < 2 ^ 1023) →
     ∃ filas, csv (ejecutar w).2 = Some filas
              ∧ length filas = length archivos)
  ∧ ∀ filas,
      csv (ejecutar w).2 = Some filas →
      filas ≠ []
      ∧ (∀ f, f ∈ filas → minimo filas ≤ lineas_codigo f)
      ∧ (∃ f, f ∈ filas ∧ lineas_codigo f = minimo filas)
      ∧ ∀ f, f ∈ filas →
          diff_vs_min_abs f = Some (lineas_codigo f - minimo filas)
          ∧ 0 ≤ lineas_codigo f - minimo filas
          ∧ (diff_vs_min_abs f = Some 0 ↔ lineas_codigo f = minimo filas).
Proof.
  split.
  { intros archivos Hobt Hesc Hne Habre.
    destruct (informe_total w archivos Hobt Hesc Hne Habre)
      as (filas & _ & ? & ?).
    by exists filas. }
  intros filas Hcsv.
  destruct (informe_inv w filas Hcsv) as (regs & evs & h & _ & _ & Hnew & Han & _).
  destruct (analizar_Ok regs filas evs Hnew Han) as (Hne & _ & _ & Hfilas & _).
  destruct (minimo_spec filas Hne) as [Hle Hex].
  split; [done|]. split; [done|]. split; [done|].
  intros f Hf. destruct (Hfilas f Hf) as (Habs & _).
  specialize (Hle f Hf). split; [done|]. split; [lia|].
  rewrite Habs. split; [intros [= H]|intros H; f_equal]; lia.
Qed.

Lemma diff_vs_min_abs_correct_witness :
  (∃ filas, csv (ejecutar mundo_mpls).2 = Some filas ∧ length filas = 2%nat)
  ∧ csv (ejecutar mundo_mpls).2 = Some filas_mpls
  ∧ filas_mpls ≠ []
  ∧ (∀ f, f ∈ filas_mpls → minimo filas_mpls ≤ lineas_codigo f)
  ∧ (∃ f, f ∈ filas_mpls ∧ lineas_codigo f = minimo filas_mpls)
  ∧ ∀ f, f ∈ filas_mpls →
      diff_vs_min_abs f = Some (lineas_codigo f - minimo filas_mpls)
      ∧ 0 ≤ lineas_codigo f - minimo filas_mpls
      ∧ (diff_vs_min_abs f = Some 0 ↔ lineas_codigo f = minimo filas_mpls).
Proof.
  split.
  { apply (proj1 (diff_vs_min_abs_correct mundo_mpls)
             ["./pe1-mpls-srv6.txt"; "./pe1-mpls.txt"]%string).
    - vm_compute; reflexivity.
    - vm_compute; reflexivity.
    - done.
    - intros ruta Hr. apply elem_of_cons in Hr as [->|Hr].
      + exists (codigo 14). split; [vm_compute; reflexivity|].
        vm_compute; reflexivity.
      + apply list_elem_of_singleton in Hr as ->.
        exists (codigo 10). split; [vm_compute; reflexivity|].
        vm_compute; reflexivity. }
  split; [vm_compute; reflexivity|].
  apply (proj2 (diff_vs_min_abs_correct mundo_mpls) filas_mpls).
  vm_compute; reflexivity.
Defined.

(** ** The reference file *)

(** C4. The rows of a report are in ascending order of count, and the
    reference is the first of them whose lower-cased name contains [mpls]
    and not [srv]: the console names it and every row holds its count minus
    the reference's.  Without such a row the console carries the notice
    instead, and no row has a difference against a reference.  For
    [pe1-mpls.txt] with 10 code lines and [pe1-mpls-srv6.txt] with 14 the
    reference is [pe1-mpls.txt], and [pe1-mpls-srv6.txt] gets 4 and 40.0. *)
Theorem referencia_correct :
  (∀ (w : Mundo) (filas : list Registro),
     csv (ejecutar w).2 = Some filas →
     StronglySorted (λ a b, lineas_codigo a ≤ lineas_codigo b) filas
     ∧ match List.find
               (λ f, PyStr.contains "mpls" (PyStr.lower (archivo f))
                     && negb (PyStr.contains "srv" (PyStr.lower (archivo f))))
               filas
       with
       | Some fr =>
           Referencia (archivo fr) (lineas_codigo fr) ∈ consola (ejecutar w).2
           ∧ ∀ f, f ∈ filas →
               diff_vs_ref_abs f = Some (lineas_codigo f - lineas_codigo fr)
       | None =>
           NotaSinReferencia ∈ consola (ejecutar w).2
           ∧ (∀ nombre n, Referencia nombre n ∉ consola (ejecutar w).2)
           ∧ ∀ f, f ∈ filas →
               diff_vs_ref_abs f = None ∧ diff_vs_ref_pct f = None
       end)
  ∧ csv (ejecutar mundo_mpls).2
    = Some [ {| archivo := "pe1-mpls.txt"; lineas_codigo := 10;
                diff_vs_min_abs := Some 0;
                diff_vs_min_pct := Some PyFloat.cero;
                diff_vs_ref_abs := Some 0;
                diff_vs_ref_pct := Some PyFloat.cero |};
             {| archivo := "pe1-mpls-srv6.txt"; lineas_codigo := 14;
                diff_vs_min_abs := Some 4;
                diff_vs_min_pct := Some (PyFloat.of_int 40);
                diff_vs_ref_abs := Some 4;
                diff_vs_ref_pct := Some (PyFloat.of_int 40) |} ]
  ∧ Referencia "pe1-mpls.txt" 10 ∈ consola (ejecutar mundo_mpls).2.
Proof.
  split; [|split; [vm_compute; reflexivity|]].
  - intros w filas Hcsv.
    destruct (informe_inv w filas Hcsv)
      as (regs & evs & h & _ & _ & Hnew & Han & ->).
    destruct (analizar_Ok regs filas evs Hnew Han)
      as (_ & _ & Hasc & Hfilas & Hcons).
    split; [exact Hasc|]. cbn [snd consola].
    change (λ f : Registro,
              PyStr.contains "mpls" (PyStr.lower (archivo f))
              && negb (PyStr.contains "srv" (PyStr.lower (archivo f))))
      with (λ f : Registro, es_referencia (archivo f)).
    destruct (List.find _ filas) as [fr|] eqn:Hfind.
    + split.
      * apply elem_of_consola. by eapply consola_referencia.
      * intros f Hf. destruct (Hfilas f Hf) as (_ & _ & Href).
        rewrite Hfind in Href. by destruct Href.
    + destruct (consola_sin_referencia regs filas evs Hcons Hfind) as [Hn Hr].
      split; [exact Hn|]. split; [exact Hr|].
      intros f Hf. destruct (Hfilas f Hf) as (_ & _ & Href).
      by rewrite Hfind in Href.
  - vm_compute. do 11 right. left.
Qed.

Lemma referencia_correct_witness :
  csv (ejecutar mundo_sin_referencia).2 = Some filas_sin_referencia
  ∧ StronglySorted (λ a b, lineas_codigo a ≤ lineas_codigo b)
                   filas_sin_referencia
  ∧ NotaSinReferencia ∈ consola (ejecutar mundo_sin_referencia).2.
Proof.
  split; [vm_compute; reflexivity|].
  pose proof (proj1 referencia_correct mundo_sin_referencia
                filas_sin_referencia) as H.
  assert (Hcsv : csv (ejecutar mundo_sin_referencia).2
                 = Some filas_sin_referencia) by (vm_compute; reflexivity).
  destruct (H Hcsv) as [Hs Hm]. split; [exact Hs|].
  exact (proj1 Hm).
Defined.

(** C7. In a report the two fields against the reference are set in every
    row or in none.  When no file name passes the reference test they are
    [None] in every row, not zero, and the console says that no reference
    was found. *)
Theorem sin_referencia_campos_vacios (w : Mundo) (filas : list Registro) :
  csv (ejecutar w).2 = Some filas →
  ((∀ f, f ∈ filas → diff_vs_ref_abs f = None ∧ diff_vs_ref_pct f = None)
   ∨ (∀ f, f ∈ filas →
        is_Some (diff_vs_ref_abs f) ∧ is_Some (diff_vs_ref_pct f)))
  ∧ ((∀ f, f ∈ filas → es_referencia (archivo f) = false) →
     (∀ f, f ∈ filas →
        diff_vs_ref_abs f = None ∧ diff_vs_ref_pct f = None
        ∧ diff_vs_ref_abs f ≠ Some 0)
     ∧ NotaSinReferencia ∈ consola (ejecutar w).2
     ∧ ∀ nombre n, Referencia nombre n ∉ consola (ejecutar w).2).
Proof.
  intros Hcsv.
  destruct (informe_inv w filas Hcsv)
    as (regs & evs & h & _ & _ & Hnew & Han & ->).
  destruct (analizar_Ok regs filas evs Hnew Han) as (_ & _ & _ & Hfilas & Hcons).
  split.
  - destruct (List.find (λ r, es_referencia (archivo r)) filas) as [fr|] eqn:Hfind.
    + right. intros f Hf. destruct (Hfilas f Hf) as (_ & _ & Href).
      rewrite Hfind in Href. cbv zeta in Href. destruct Href as [-> ->].
      by split.
    + left. intros f Hf. destruct (Hfilas f Hf) as (_ & _ & Href).
      by rewrite Hfind in Href.
  - intros Hno.
    assert (Hfind : List.find (λ r, es_referencia (archivo r)) filas = None).
    { apply find_none_iff. intros f Hf. by apply Hno. }
    split.
    + intros f Hf. destruct (Hfilas f Hf) as (_ & _ & Href).
      rewrite Hfind in Href. destruct Href as [Ha Hp].
      split; [done|]. split; [done|]. by rewrite Ha.
    + exact (consola_sin_referencia regs filas evs Hcons Hfind).
Qed.

Lemma sin_referencia_campos_vacios_witness :
  csv (ejecutar mundo_sin_referencia).2 = Some filas_sin_referencia
  ∧ (∀ f, f ∈ filas_sin_referencia → es_referencia (archivo f) = false)
  ∧ (∀ f, f ∈ filas_sin_referencia →
       diff_vs_ref_abs f = None ∧ diff_vs_ref_pct f = None
       ∧ diff_vs_ref_abs f ≠ Some 0)
  ∧ NotaSinReferencia ∈ consola (ejecutar mundo_sin_referencia).2
  ∧ ∀ nombre n, Referencia nombre n ∉ consola (ejecutar mundo_sin_referencia).2.
Proof.
  assert (Hcsv : csv (ejecutar mundo_sin_referencia).2
                 = Some filas_sin_referencia) by (vm_compute; reflexivity).
  assert (Hno : ∀ f, f ∈ filas_sin_referencia →
                     es_referencia (archivo f) = false).
  { intros f Hf. unfold filas_sin_referencia in Hf.
    apply elem_of_cons in Hf as [->|Hf]; [vm_compute; reflexivity|].
    apply list_elem_of_singleton in Hf as ->. vm_compute; reflexivity. }
  split; [exact Hcsv|]. split; [exact Hno|].
  exact (proj2 (sin_referencia_campos_vacios mundo_sin_referencia
                  filas_sin_referencia Hcsv) Hno).
Defined.

(** C10. In a report with a reference, the row of the reference file has
    a difference of [0] and a percentage of [0.0] against the reference. *)
Theorem referencia_diff_cero (w : Mundo) (filas : list Registro)
    (fr : Registro) :
  csv (ejecutar w).2 = Some filas →
  List.find (λ f, es_referencia (archivo f)) filas = Some fr →
  fr ∈ filas
  ∧ Referencia (archivo fr) (lineas_codigo fr) ∈ consola (ejecutar w).2
  ∧ diff_vs_ref_abs fr = Some 0
  ∧ diff_vs_ref_pct fr = Some PyFloat.cero.
Proof.
  intros Hcsv Hfind.
  destruct (informe_inv w filas Hcsv)
    as (regs & evs & h & _ & _ & Hnew & Han & ->).
  destruct (analizar_Ok regs filas evs Hnew Han) as (_ & _ & _ & Hfilas & Hcons).
  destruct (find_elem_of _ _ _ Hfind) as [Hin _].
  split; [exact Hin|]. split.
  { apply elem_of_consola. by eapply consola_referencia. }
  destruct (Hfilas fr Hin) as (_ & _ & Href). rewrite Hfind in Href.
  cbv zeta in Href. destruct Href as [Habs Hpct].
  rewrite Habs, Hpct, Z.sub_diag, porcentaje_valor_cero. done.
Qed.

Lemma referencia_diff_cero_witness :
  csv (ejecutar mundo_mpls).2 = Some filas_mpls
  ∧ diff_vs_ref_abs (registro_inicial "pe1-mpls.txt" 10) = None
  ∧ ∃ fr, archivo fr = "pe1-mpls.txt"%string
          ∧ fr ∈ filas_mpls
          ∧ Referencia (archivo fr) (lineas_codigo fr)
            ∈ consola (ejecutar mundo_mpls).2
          ∧ diff_vs_ref_abs fr = Some 0
          ∧ diff_vs_ref_pct fr = Some PyFloat.cero.
Proof.
  split; [vm_compute; reflexivity|]. split; [reflexivity|].
  eexists. split; [|eapply (referencia_diff_cero mundo_mpls filas_mpls)].
  2: vm_compute; reflexivity.
  2: vm_compute; reflexivity.
  reflexivity.
Defined.

(** ** Percentages *)

Lemma ejecutar_excepcion (w : Mundo) (e : Excepcion) :
  (ejecutar w).1 = Raise e → e = OSError ∨ e = OverflowError.
Proof.
  destruct (ejecutar_desenlace w); cbn [fst]; intros [= <-]; auto.
Qed.

(** C6. No run ends in a division by zero.  In a report, with [m] the
    minimum and [M] the maximum count: the percentage against the minimum
    is the quotient by [m] times 100 rounded to two decimals when [m > 0]
    and [0.0] when [m = 0], and it is [0.0] for a row with the minimum
    count; the percentage against a reference with [rl] lines is the same
    with [rl] for [m]; the console shows the difference between the
    extremes with the quotient by [M] times 100, or [0.0] when [M = 0]. *)
Theorem porcentajes_correct (w : Mundo) :
  (ejecutar w).1 ≠ Raise ZeroDivisionError
  ∧ ∀ filas, csv (ejecutar w).2 = Some filas →
      let m := minimo filas in
      let M := maximo filas in
      0 ≤ m ≤ M
      ∧ (∀ f, f ∈ filas →
           (0 < m →
            diff_vs_min_pct f
            = Some (PyFloat.round2
                      (PyFloat.mul (PyFloat.div_int (lineas_codigo f - m) m)
                                   (PyFloat.of_int 100))))
           ∧ (m = 0 → diff_vs_min_pct f = Some PyFloat.cero)
           ∧ (lineas_codigo f = m → diff_vs_min_pct f = Some PyFloat.cero))
      ∧ (∀ fr, List.find (λ f, es_referencia (archivo f)) filas = Some fr →
           let rl := lineas_codigo fr in
           ∀ f, f ∈ filas →
             (0 < rl →
              diff_vs_ref_pct f
              = Some (PyFloat.round2
                        (PyFloat.mul (PyFloat.div_int (lineas_codigo f - rl) rl)
                                     (PyFloat.of_int 100))))
             ∧ (rl = 0 → diff_vs_ref_pct f = Some PyFloat.cero))
      ∧ (0 < M →
         Extremos (M - m)
                  (PyFloat.mul (PyFloat.div_int (M - m) M) (PyFloat.of_int 100))
         ∈ consola (ejecutar w).2)
      ∧ (M = 0 → Extremos (M - m) PyFloat.cero ∈ consola (ejecutar w).2).
Proof.
  split.
  { intros H. by destruct (ejecutar_excepcion w _ H). }
  intros filas Hcsv m M.
  destruct (informe_inv w filas Hcsv)
    as (regs & evs & h & _ & _ & Hnew & Han & ->).
  destruct (analizar_Ok regs filas evs Hnew Han)
    as (Hne & Hmismo & _ & Hfilas & Hcons).
  destruct (minimo_spec filas Hne) as [Hmin (fm & Hfm & Hfm')].
  destruct (maximo_spec filas Hne) as [Hmax _].
  assert (Hpos : 0 ≤ m).
  { destruct (Forall2_elem_of_r _ _ _ _ Hmismo Hfm) as (r & Hr & _ & Hl).
    unfold sorted_key in Hr. rewrite sorted_Permutation in Hr.
    rewrite Forall_forall in Hnew. destruct (Hnew r Hr) as [H0 _].
    unfold m. lia. }
  split; [split; [done|]; unfold m, M; rewrite <- Hfm'; by apply Hmax|].
  split; [|split; [|split]].
  - intros f Hf. destruct (Hfilas f Hf) as (_ & Hpct & _).
    fold m in Hpct. rewrite Hpct.
    split; [|split].
    + intros H. unfold porcentaje_valor.
      destruct (Z.ltb_spec 0 m); [done|lia].
    + intros H. unfold porcentaje_valor.
      destruct (Z.ltb_spec 0 m); [lia|done].
    + intros ->. rewrite Z.sub_diag.
      by rewrite (porcentaje_valor_cero m).
  - intros fr Hfind rl f Hf. destruct (Hfilas f Hf) as (_ & _ & Href).
    rewrite Hfind in Href. cbv zeta in Href. destruct Href as [_ Hpct].
    fold rl in Hpct. rewrite Hpct. unfold porcentaje_valor. split.
    + intros H. destruct (Z.ltb_spec 0 rl); [done|lia].
    + intros H. destruct (Z.ltb_spec 0 rl); [lia|done].
  - intros H. cbn [snd consola]. apply elem_of_consola.
    pose proof (consola_extremos filas evs Hcons) as Hex.
    fold m M in Hex. unfold porcentaje_valor in Hex.
    destruct (Z.ltb_spec 0 M); [done|lia].
  - intros H. cbn [snd consola]. apply elem_of_consola.
    pose proof (consola_extremos filas evs Hcons) as Hex.
    fold m M in Hex. unfold porcentaje_valor in Hex.
    destruct (Z.ltb_spec 0 M); [lia|done].
Qed.

(** The report of [mundo_comentarios], where the minimum count is zero. *)
Lemma porcentajes_correct_witness :
  minimo [registro_inicial "notas.txt" 0; registro_inicial "pe1-mpls.txt" 10]
  = 0
  ∧ (ejecutar mundo_comentarios).1 ≠ Raise ZeroDivisionError
  ∧ ∃ filas, csv (ejecutar mundo_comentarios).2 = Some filas
             ∧ minimo filas = 0
             ∧ ∀ f, f ∈ filas → diff_vs_min_pct f = Some PyFloat.cero.
Proof.
  split; [reflexivity|].
  destruct (porcentajes_correct mundo_comentarios) as [Hno Hrep].
  split; [exact Hno|].
  eexists. split; [vm_compute; reflexivity|].
  split; [reflexivity|].
  intros f Hf.
  refine (proj1 (proj2 (proj1 (proj2 (Hrep _ _)) f Hf)) _);
    vm_compute; reflexivity.
Defined.

(** ** No candidate files *)

(** C8. When the enumeration finds no candidate file, the run prints the
    notice and ends normally, with no heap record and no report; and no
    run ever indexes an empty list of records. *)
Theorem sin_archivos_aviso (w : Mundo) :
  ((obtener_archivos_config w CONFIG_DIR inicial).1 = Ok [] →
   ejecutar w
   = (Ok tt, {| heap := []; consola := [AvisoSinArchivos CONFIG_DIR];
                csv := None |}))
  ∧ (ejecutar w).1 ≠ Raise IndexError.
Proof.
  split.
  - intros Hobt.
    apply obtener_archivos_config_fst in Hobt as (Hdir & Hleg & Hnil).
    by apply ejecutar_sin_archivos.
  - intros H. by destruct (ejecutar_excepcion w _ H).
Qed.

Lemma sin_archivos_aviso_witness :
  (obtener_archivos_config mundo_sin_candidatos CONFIG_DIR inicial).1 = Ok []
  ∧ ejecutar mundo_sin_candidatos
    = (Ok tt, {| heap := []; consola := [AvisoSinArchivos CONFIG_DIR];
                 csv := None |}).
Proof.
  split; [vm_compute; reflexivity|].
  apply (proj1 (sin_archivos_aviso mundo_sin_candidatos)).
  vm_compute; reflexivity.
Defined.

(** ** Order of the rows *)

(** C9. The rows of the report are the records of the files in ascending
    order of count, files with equal counts in their order of enumeration;
    for [mundo_mpls] that is not the alphabetical order in which the files
    were enumerated. *)
Theorem csv_en_orden_ascendente :
  (∀ (w : Mundo) (filas : list Registro),
     csv (ejecutar w).2 = Some filas →
     StronglySorted (λ a b, lineas_codigo a ≤ lineas_codigo b) filas
     ∧ ∃ archivos regs,
         (obtener_archivos_config w CONFIG_DIR inicial).1 = Ok archivos
         ∧ registros w archivos = Some regs
         ∧ archivo <$> regs = OsPath.basename <$> archivos
         ∧ Forall2 mismo_archivo (sorted_key lineas_codigo regs) filas)
  ∧ (obtener_archivos_config mundo_mpls CONFIG_DIR inicial).1
    = Ok ["./pe1-mpls-srv6.txt"; "./pe1-mpls.txt"]%string
  ∧ archivo <$> filas_mpls = ["pe1-mpls.txt"; "pe1-mpls-srv6.txt"]%string
  ∧ csv (ejecutar mundo_mpls).2 = Some filas_mpls.
Proof.
  split; [|repeat split; vm_compute; reflexivity].
  intros w filas Hcsv.
  destruct (informe_inv w filas Hcsv)
    as (regs & evs & h & Hdir & Hregs & Hnew & Han & _).
  destruct (analizar_Ok regs filas evs Hnew Han) as (_ & Hmismo & Hasc & _).
  split; [exact Hasc|].
  exists (candidatos w), regs.
  split; [by apply (informe_obtener w filas)|].
  split; [done|]. split; [|done].
  clear -Hregs. revert regs Hregs.
  induction (candidatos w) as [|ruta rs IH]; intros regs.
  - by intros [= <-].
  - rewrite registros_cons. unfold registro_de at 1.
    destruct (lineas_de w ruta); cbn [mbind option_bind]; [|done].
    destruct (registros w rs) as [regs'|]; [|done].
    intros [= <-]. cbn [fmap list_fmap]. f_equal. by apply IH.
Qed.

Lemma csv_en_orden_ascendente_witness :
  csv (ejecutar mundo_sin_referencia).2 = Some filas_sin_referencia
  ∧ StronglySorted (λ a b, lineas_codigo a ≤ lineas_codigo b)
                   filas_sin_referencia.
Proof.
  split; [vm_compute; reflexivity|].
  refine (proj1 (proj1 csv_en_orden_ascendente mundo_sin_referencia _ _)).
  vm_compute; reflexivity.
Defined.

(** ** The order of strings and the enumeration *)

Section SortedUnique.
Context {A : Type} (lt : A → A → bool).
Hypothesis lt_asym : ∀ x y, lt x y = true → lt y x = false.
Hypothesis le_trans : ∀ x y z, lt y x = false → lt z y = false → lt z x = false.
Hypothesis le_antisym : ∀ x y, lt y x = false → lt x y = false → x = y.


Lemma insertar_ordenada (x : A) (l : list A) :
  StronglySorted (no_mayor lt) l → StronglySorted (no_mayor lt) (insertar lt x l).
Proof.
  induction 1 as [|y l Hl IH Hy]; cbn [insertar].
  - repeat constructor.
  - destruct (lt y x) eqn:Hyx.
    + constructor; [exact IH|].
      rewrite insertar_Permutation. constructor; [|exact Hy].
      by apply lt_asym.
    + constructor; [by constructor|].
      constructor; [exact Hyx|].
      eapply Forall_impl; [exact Hy|]. intros z Hz. by eapply le_trans.
Qed.

Lemma sorted_ordenada (l : list A) : StronglySorted (no_mayor lt) (sorted lt l).
Proof.
  induction l as [|x l IH]; cbn [sorted]; [constructor|].
  by apply insertar_ordenada.
Qed.

Lemma ordenada_unica (l k : list A) :
  StronglySorted (no_mayor lt) l → StronglySorted (no_mayor lt) k → l ≡ₚ k → l = k.
Proof.
  intros Hl; revert k; induction Hl as [|x l Hl IH Hx]; intros k Hk Hperm.
  - by apply Permutation_nil in Hperm.
  - destruct Hk as [|y k Hk Hy].
    { symmetry in Hperm. by apply Permutation_nil in Hperm. }
    assert (x = y) as ->.
    { rewrite Forall_forall in Hx, Hy.
      assert (Hxk : x ∈ y :: k) by (rewrite <- Hperm; by left).
      assert (Hyl : y ∈ x :: l) by (rewrite Hperm; by left).
      apply elem_of_cons in Hxk as [->|Hxk]; [done|].
      apply elem_of_cons in Hyl as [->|Hyl]; [done|].
      apply le_antisym; [by apply Hx|by apply Hy]. }
    f_equal. apply IH; [done|]. by eapply Permutation_cons_inv.
Qed.

(** The sorted list does not depend on the order of the input. *)
Lemma sorted_de_permutacion (l k : list A) :
  l ≡ₚ k → sorted lt l = sorted lt k.
Proof.
  intros Hperm. apply ordenada_unica; try apply sorted_ordenada.
  by rewrite !sorted_Permutation.
Qed.
End SortedUnique.

Lemma ascii_compare_no_Gt_trans (a b c : ascii) :
  Ascii.compare a b ≠ Gt → Ascii.compare b c ≠ Gt → Ascii.compare a c ≠ Gt.
Proof.
  unfold Ascii.compare. rewrite !N.compare_gt_iff. lia.
Qed.

Lemma string_compare_no_Gt_trans (x y z : string) :
  String.compare x y ≠ Gt → String.compare y z ≠ Gt → String.compare x z ≠ Gt.
Proof.
  revert y z; induction x as [|a x IH]; intros [|b y] [|c z]; cbn; try done.
  destruct (Ascii.compare a b) eqn:Hab; [|clear IH|done];
    destruct (Ascii.compare b c) eqn:Hbc; try done.
  - apply Ascii.compare_eq_iff in Hab as ->. rewrite Hbc. apply IH.
  - apply Ascii.compare_eq_iff in Hab as ->. by rewrite Hbc.
  - apply Ascii.compare_eq_iff in Hbc as <-. by rewrite Hab.
  - intros _ _.
    assert (Hac : Ascii.compare a c = Lt).
    { unfold Ascii.compare in *. rewrite N.compare_lt_iff in *. lia. }
    by rewrite Hac.
Qed.

Lemma string_ltb_false (x y : string) :
  String.ltb y x = false ↔ String.compare x y ≠ Gt.
Proof.
  unfold String.ltb. rewrite (String.compare_antisym x y).
  destruct (String.compare y x); cbn; split; congruence.
Qed.

Lemma sorted_str_de_permutacion (l k : list string) :
  l ≡ₚ k → sorted_str l = sorted_str k.
Proof.
  apply sorted_de_permutacion.
  - intros x y. unfold String.ltb. rewrite (String.compare_antisym x y).
    by destruct (String.compare y x).
  - intros x y z. rewrite !string_ltb_false.
    apply string_compare_no_Gt_trans.
  - intros x y Hxy Hyx. apply string_ltb_false in Hxy, Hyx.
    apply String.compare_eq_iff.
    rewrite (String.compare_antisym y x) in Hyx.
    destruct (String.compare x y); cbn in *; congruence.
Qed.

Lemma join_CONFIG_DIR_inj (a b : string) :
  OsPath.join CONFIG_DIR a = OsPath.join CONFIG_DIR b → a = b.
Proof.
  unfold OsPath.join, CONFIG_DIR.
  destruct a as [|c a], b as [|d b]; cbn.
  - done.
  - destruct (Ascii.eqb_spec d OsPath.sep) as [->|]; cbn;
      unfold OsPath.sep; congruence.
  - destruct (Ascii.eqb_spec c OsPath.sep) as [->|]; cbn;
      unfold OsPath.sep; congruence.
  - destruct (Ascii.eqb_spec c OsPath.sep) as [->|],
             (Ascii.eqb_spec d OsPath.sep) as [->|]; cbn;
      unfold OsPath.sep; congruence.
Qed.

Lemma find_de_permutacion {A : Type} (p : A → bool) (l k : list A) :
  l ≡ₚ k →
  (∀ x y, x ∈ l → y ∈ l → p x = true → p y = true → x = y) →
  List.find p l = List.find p k.
Proof.
  intros Hperm Huniq.
  destruct (List.find p l) as [x|] eqn:Hl, (List.find p k) as [y|] eqn:Hk.
  - apply find_elem_of in Hl as [Hx Hpx], Hk as [Hy Hpy].
    rewrite <- Hperm in Hy. f_equal. by apply Huniq.
  - apply find_elem_of in Hl as [Hx Hpx].
    rewrite find_none_iff in Hk. rewrite Hperm in Hx.
    rewrite (Hk x Hx) in Hpx. done.
  - apply find_elem_of in Hk as [Hy Hpy].
    rewrite find_none_iff in Hl. rewrite <- Hperm in Hy.
    rewrite (Hl y Hy) in Hpy. done.
  - done.
Qed.

Lemma NoDup_fmap_elem_of {A B : Type} (f : A → B) (l : list A) (x y : A) :
  NoDup (f <$> l) → x ∈ l → y ∈ l → f x = f y → x = y.
Proof.
  induction l as [|z l IH]; intros Hnd Hx Hy Hf; [by inversion Hx|].
  cbn [fmap list_fmap] in Hnd. apply NoDup_cons in Hnd as [Hz Hnd].
  apply elem_of_cons in Hx as [->|Hx], Hy as [->|Hy].
  - done.
  - exfalso. apply Hz. rewrite Hf. by apply list_elem_of_fmap_2.
  - exfalso. apply Hz. rewrite <- Hf. by apply list_elem_of_fmap_2.
  - by apply IH.
Qed.

Lemma filter_de_permutacion {A : Type} (p : A → bool) (l k : list A) :
  l ≡ₚ k → List.filter p l ≡ₚ List.filter p k.
Proof.
  induction 1 as [|x l k _ IH|x y l|l k m _ IH1 _ IH2]; cbn [List.filter].
  - done.
  - destruct (p x); [by constructor|done].
  - destruct (p x), (p y); try done. apply Permutation_swap.
  - by etrans.
Qed.

(** ** Directories that give the same run *)

Lemma for_lista_ext_in {A B : Type} (l : list A) (acc : list B)
    (f g : list B → A → Py (list B)) (s : Estado) :
  (∀ x acc' s', x ∈ l → f acc' x s' = g acc' x s') →
  for_lista l acc f s = for_lista l acc g s.
Proof.
  revert acc s; induction l as [|x l IH]; intros acc s Hext; [done|].
  cbn [for_lista]. unfold mbind, Py_bind.
  rewrite Hext by by left.
  destruct (g acc x s) as [[acc'|e] s']; [|done].
  apply IH. intros y acc'' s'' Hy. apply Hext. by right.
Qed.

Lemma guardar_csv_ext (w w' : Mundo) :
  dir_existe w = dir_existe w' →
  puede_escribir w nombre_csv = puede_escribir w' nombre_csv →
  guardar_csv w = guardar_csv w'.
Proof.
  intros Hdir Hesc. unfold guardar_csv, abrir_escritura.
  by rewrite Hdir, Hesc.
Qed.

(** Two directories with the same permissions and the same candidates,
    whose files open alike and in which the file of the report opens
    alike, give the same run. *)
Lemma ejecutar_ext (w w' : Mundo) :
  dir_existe w = dir_existe w' →
  dir_legible w = dir_legible w' →
  puede_escribir w nombre_csv = puede_escribir w' nombre_csv →
  candidatos w = candidatos w' →
  (∀ ruta, ruta ∈ candidatos w → buscar w ruta = buscar w' ruta) →
  ejecutar w = ejecutar w'.
Proof.
  intros Hdir Hleg Hesc Hcand Hbuscar.
  unfold ejecutar, main. rewrite <- (guardar_csv_ext w w' Hdir Hesc).
  rewrite !isdir_CONFIG_DIR, <- Hdir.
  case_eq (dir_existe w); intros Hd; [|done]. cbn [negb].
  case_eq (dir_legible w); intros Hl.
  - erewrite bind_ok by by apply obtener_archivos_config_eq.
    erewrite (bind_ok (obtener_archivos_config w' CONFIG_DIR))
      by (apply obtener_archivos_config_eq; congruence).
    rewrite <- Hcand.
    destruct (candidatos w) as [|c cs] eqn:Hc; [done|].
    do 2 (erewrite bind_ok by reflexivity).
    symmetry. do 2 (erewrite bind_ok by reflexivity). symmetry.
    apply bind_ext_l. unfold main_conteo. apply for_lista_ext_in.
    intros ruta acc s Hruta. rewrite !main_conteo_paso_eq.
    unfold registro_de, lineas_de. by rewrite Hbuscar.
  - erewrite bind_raise by by apply obtener_archivos_config_sin_permiso.
    erewrite (bind_raise (obtener_archivos_config w' CONFIG_DIR))
      by (apply obtener_archivos_config_sin_permiso; congruence).
    done.
Qed.


Section Determinismo.
Context (w w' : Mundo).
Hypothesis misma_carpeta : dir_existe w = dir_existe w'.
Hypothesis mismo_permiso : dir_legible w = dir_legible w'.
Hypothesis misma_escritura : dir_escribible w = dir_escribible w'.
Hypothesis mismas_entradas : dir_listado w ≡ₚ dir_listado w'.
Hypothesis nombres_distintos : NoDup (ent_nombre <$> dir_listado w).

Lemma buscar_de_permutacion (ruta : string) : buscar w ruta = buscar w' ruta.
Proof.
  unfold buscar. rewrite <- misma_carpeta.
  case (dir_existe w); [|done].
  apply find_de_permutacion; [done|].
  intros e1 e2 H1 H2 E1 E2.
  apply String.eqb_eq in E1, E2.
  eapply (NoDup_fmap_elem_of ent_nombre); try done.
  apply join_CONFIG_DIR_inj. congruence.
Qed.

Lemma puede_escribir_de_permutacion (nombre : string) :
  puede_escribir w nombre = puede_escribir w' nombre.
Proof.
  unfold puede_escribir. rewrite <- misma_escritura.
  rewrite (find_de_permutacion _ (dir_listado w) (dir_listado w'));
    [done|done|].
  intros e1 e2 H1 H2 E1 E2.
  apply String.eqb_eq in E1, E2.
  eapply (NoDup_fmap_elem_of ent_nombre); try done. congruence.
Qed.

Lemma candidatos_de_permutacion : candidatos w = candidatos w'.
Proof.
  unfold candidatos. apply sorted_str_de_permutacion.
  apply fmap_Permutation.
  assert (E : ∀ e, es_candidato w e = es_candidato w' e).
  { intros e. unfold es_candidato, isfile. by rewrite buscar_de_permutacion. }
  rewrite (List.filter_ext _ _ E).
  apply filter_de_permutacion. by apply fmap_Permutation.
Qed.

(** A run does not depend on the order in which the directory lists its
    entries. *)
Lemma ejecutar_de_permutacion : ejecutar w = ejecutar w'.
Proof.
  apply ejecutar_ext; try done.
  - apply puede_escribir_de_permutacion.
  - apply candidatos_de_permutacion.
  - intros ruta _. apply buscar_de_permutacion.
Qed.
End Determinismo.

(** ** Order of enumeration *)

(** C5. The reference does not depend on the order in which the files are
    enumerated.  The order of enumeration of a run is the order in which
    the directory lists its entries; [obtener_archivos_config] sorts the
    paths before any file is read.  For two listings of the same entries,
    with distinct names, the two runs are the same run: the same rows in
    the same order, the same console, and so the same file taken as
    reference, also when several files that pass the name test have the
    same count. *)
Theorem referencia_orden_correct (w w' : Mundo) :
  dir_existe w = dir_existe w' →
  dir_legible w = dir_legible w' →
  dir_escribible w = dir_escribible w' →
  dir_listado w ≡ₚ dir_listado w' →
  NoDup (ent_nombre <$> dir_listado w) →
  ejecutar w = ejecutar w'
  ∧ (∀ filas filas',
       csv (ejecutar w).2 = Some filas → csv (ejecutar w').2 = Some filas' →
       List.find (λ r, es_referencia (archivo r)) filas
       = List.find (λ r, es_referencia (archivo r)) filas')
  ∧ (∀ nombre lineas,
       Referencia nombre lineas ∈ consola (ejecutar w).2
       ↔ Referencia nombre lineas ∈ consola (ejecutar w').2).
Proof.
  intros Hdir Hleg Hesc Hperm Hnd.
  assert (E : ejecutar w = ejecutar w')
    by by apply ejecutar_de_permutacion.
  split; [exact E|]. split.
  - intros filas filas' Hf Hf'. rewrite E, Hf' in Hf. by injection Hf as ->.
  - intros nombre lineas. by rewrite E.
Qed.

Lemma NoDup_nombres_mundo_mpls : NoDup (ent_nombre <$> dir_listado mundo_mpls).
Proof.
  cbn. apply NoDup_cons. split.
  - intros H. apply list_elem_of_singleton in H. discriminate.
  - apply NoDup_singleton.
Qed.

Lemma referencia_orden_correct_witness :
  dir_listado mundo_empate ≡ₚ dir_listado mundo_empate_inverso
  ∧ ejecutar mundo_empate = ejecutar mundo_empate_inverso
  ∧ Referencia "a-mpls.txt" 10 ∈ consola (ejecutar mundo_empate).2
  ∧ Referencia "a-mpls.txt" 10 ∈ consola (ejecutar mundo_empate_inverso).2.
Proof.
  assert (Hperm : dir_listado mundo_empate ≡ₚ dir_listado mundo_empate_inverso)
    by apply Permutation_swap.
  assert (Hnd : NoDup (ent_nombre <$> dir_listado mundo_empate)).
  { cbn. apply NoDup_cons. split.
    - intros H. apply list_elem_of_singleton in H. discriminate.
    - apply NoDup_singleton. }
  pose proof (referencia_orden_correct mundo_empate mundo_empate_inverso
                eq_refl eq_refl eq_refl Hperm Hnd) as (E & _ & Href).
  assert (Ha : Referencia "a-mpls.txt" 10 ∈ consola (ejecutar mundo_empate).2).
  { vm_compute. do 11 right. left. }
  split; [exact Hperm|]. split; [exact E|]. split; [exact Ha|].
  exact (proj1 (Href "a-mpls.txt"%string 10) Ha).
Defined.

(** * Further properties of the script *)

(** ** The line classifier *)

Lemma lstrip_app_blanco (a s : string) :
  en_blanco a = true → PyStr.lstrip (a ++ s) = PyStr.lstrip s.
Proof.
  induction a as [|c a IH]; [done|]. cbn [en_blanco append PyStr.lstrip].
  intros [Hc Ha]%andb_true_iff. rewrite Hc. by apply IH.
Qed.

Lemma rstrip_app_blanco (s b : string) :
  en_blanco b = true → PyStr.rstrip (s ++ b) = PyStr.rstrip s.
Proof.
  intros Hb. induction s as [|c s IH]; cbn [append PyStr.rstrip].
  - by apply rstrip_vacia.
  - by rewrite IH.
Qed.

Lemma rstrip_lstrip_app_blanco (s b : string) :
  en_blanco b = true →
  PyStr.rstrip (PyStr.lstrip (s ++ b)) = PyStr.rstrip (PyStr.lstrip s).
Proof.
  intros Hb. induction s as [|c s IH]; cbn [append PyStr.lstrip].
  - cbn [PyStr.rstrip]. apply rstrip_vacia. by rewrite lstrip_en_blanco.
  - destruct (PyStr.isspace c); [exact IH|].
    change (String c (s ++ b)) with (String c s ++ b)%string.
    by apply rstrip_app_blanco.
Qed.

(** Whitespace around a line does not change what [strip] returns. *)
Lemma strip_app_blanco (a s b : string) :
  en_blanco a = true → en_blanco b = true →
  PyStr.strip (a ++ s ++ b) = PyStr.strip s.
Proof.
  intros Ha Hb. unfold PyStr.strip.
  rewrite lstrip_app_blanco by done. by apply rstrip_lstrip_app_blanco.
Qed.

Lemma es_linea_valida_strip (l1 l2 : string) :
  PyStr.strip l1 = PyStr.strip l2 → es_linea_valida l1 = es_linea_valida l2.
Proof. intros H. unfold es_linea_valida. by rewrite H. Qed.

(** X1.  Indentation and trailing whitespace (the end of line included) do not
    change the class of a line, and a line of whitespace alone is never a
    code line. *)
Theorem es_linea_valida_espacios :
  (∀ a l b : string,
     en_blanco a = true → en_blanco b = true →
     es_linea_valida (a ++ l ++ b) = es_linea_valida l)
  ∧ (∀ l : string, en_blanco l = true → es_linea_valida l = false).
Proof.
  split.
  - intros a l b Ha Hb. by apply es_linea_valida_strip, strip_app_blanco.
  - intros l Hl. unfold es_linea_valida.
    apply strip_vacia in Hl. by rewrite Hl.
Qed.

Lemma es_linea_valida_espacios_witness :
  en_blanco (String "009" " ") = true
  ∧ en_blanco (String " " (String "013" (String "010" ""))) = true
  ∧ es_linea_valida (String "009" " " ++ "mpls ip"
                     ++ String " " (String "013" (String "010" "")))
    = es_linea_valida "mpls ip"
  ∧ es_linea_valida (String "009" " ") = false.
Proof.
  split; [reflexivity|]. split; [reflexivity|]. split.
  - apply (proj1 es_linea_valida_espacios); reflexivity.
  - apply (proj2 es_linea_valida_espacios); reflexivity.
Defined.

Lemma rstrip_cons_no_blanco (c : ascii) (s : string) :
  PyStr.isspace c = false →
  PyStr.rstrip (String c s) = String c (PyStr.rstrip s).
Proof.
  intros Hc. cbn [PyStr.rstrip]. rewrite Hc. by destruct (PyStr.rstrip s).
Qed.

Lemma strip_cons_no_blanco (c : ascii) (s : string) :
  PyStr.isspace c = false →
  PyStr.strip (String c s) = String c (PyStr.rstrip s).
Proof.
  intros Hc. unfold PyStr.strip. cbn [PyStr.lstrip]. rewrite Hc.
  by apply rstrip_cons_no_blanco.
Qed.

(** After a non-blank first character, what [rstrip] leaves starts as the
    text did, or is empty. *)
Lemma rstrip_startswith (s : string) (c : ascii) :
  PyStr.startswith s (String c EmptyString) = false →
  PyStr.startswith (PyStr.rstrip s) (String c EmptyString) = false.
Proof.
  destruct s as [|d s]; [done|]. cbn [PyStr.rstrip PyStr.startswith].
  rewrite !andb_true_r. intros Hd.
  destruct (PyStr.rstrip s); [|cbn; by rewrite Hd].
  destruct (PyStr.isspace d); cbn; [done|by rewrite Hd].
Qed.

(** X2.  Comments are recognised at the start of a line only.  A line whose
    first character after the indentation is [#] or [!], or that starts
    there with [//], is not counted, whatever follows.  A line that starts
    there with any other character is counted, also when a comment marker
    comes later in it; so is a line that starts there with one [/] not
    followed by a second one, whatever else follows the [/]: nothing, a
    blank or any other text. *)
Theorem es_linea_valida_comentarios :
  (∀ a resto : string,
     en_blanco a = true →
     es_linea_valida (a ++ "#" ++ resto) = false
     ∧ es_linea_valida (a ++ "!" ++ resto) = false
     ∧ es_linea_valida (a ++ "//" ++ resto) = false)
  ∧ (∀ (a : string) (c : ascii) (resto : string),
       en_blanco a = true → PyStr.isspace c = false →
       c ≠ "#"%char → c ≠ "!"%char → c ≠ "/"%char →
       es_linea_valida (a ++ String c resto) = true)
  ∧ (∀ a resto : string,
       en_blanco a = true → PyStr.startswith resto "/" = false →
       es_linea_valida (a ++ String "/" resto) = true).
Proof.
  assert (Hind : ∀ a l, en_blanco a = true →
                        es_linea_valida (a ++ l) = es_linea_valida l).
  { intros a l Ha. apply es_linea_valida_strip. unfold PyStr.strip.
    by rewrite lstrip_app_blanco. }
  split; [|split].
  - intros a resto Ha. split; [|split]; rewrite Hind by done;
      unfold es_linea_valida; cbn [append];
      rewrite strip_cons_no_blanco by reflexivity;
      rewrite ?rstrip_cons_no_blanco by reflexivity; done.
  - intros a c resto Ha Hc H1 H2 H3. rewrite Hind by done.
    unfold es_linea_valida. rewrite strip_cons_no_blanco by done.
    cbn -[Ascii.eqb]. apply Ascii.eqb_neq in H1, H2, H3.
    by rewrite H1, H2, H3.
  - intros a resto Ha Hresto. rewrite Hind by done.
    unfold es_linea_valida. rewrite strip_cons_no_blanco by reflexivity.
    apply (rstrip_startswith _ "/") in Hresto.
    unfold PyStr.startswith_tuple, COMMENT_PREFIXES, IGNORE_COMMENTS.
    cbn [PyStr.truthy negb existsb andb].
    change (PyStr.startswith (String "/" (PyStr.rstrip resto)) "#") with false.
    change (PyStr.startswith (String "/" (PyStr.rstrip resto)) "!") with false.
    change (PyStr.startswith (String "/" (PyStr.rstrip resto)) "//")
      with (PyStr.startswith (PyStr.rstrip resto) "/").
    by rewrite Hresto.
Qed.

Lemma es_linea_valida_comentarios_witness :
  es_linea_valida ("  " ++ "#" ++ " router bgp 65000") = false
  ∧ es_linea_valida ("  " ++ String "r" "outer bgp 65000 # principal") = true
  ∧ es_linea_valida ("" ++ String "/" "etc/frr") = true
  ∧ es_linea_valida (" " ++ String "/" " etc/frr") = true
  ∧ es_linea_valida ("" ++ String "/" "") = true.
Proof.
  split; [|split; [|split; [|split]]].
  - apply (proj1 es_linea_valida_comentarios "  "%string
             " router bgp 65000"%string).
    reflexivity.
  - apply (proj1 (proj2 es_linea_valida_comentarios)); try reflexivity;
      discriminate.
  - apply (proj2 (proj2 es_linea_valida_comentarios)); reflexivity.
  - apply (proj2 (proj2 es_linea_valida_comentarios)); reflexivity.
  - apply (proj2 (proj2 es_linea_valida_comentarios)); reflexivity.
Defined.

(** ** The count of a file *)

Lemma filter_Permutation_length {A : Type} (p : A → bool) (l k : list A) :
  l ≡ₚ k → length (List.filter p l) = length (List.filter p k).
Proof.
  induction 1 as [|x l k _ IH|x y l|l k m _ IH1 _ IH2]; cbn [List.filter].
  - done.
  - destruct (p x); cbn [length]; by rewrite IH.
  - by destruct (p x), (p y).
  - by etrans.
Qed.

(** X3.  The count of a text made of two parts is the sum of their counts; it
    does not depend on the order of the lines; the lines that are not
    counted can be removed without changing it, and what is left has as
    many lines as the count. *)
Theorem contar_lineas_composicion :
  (∀ l1 l2 : list string,
     contar_lineas (l1 ++ l2) = contar_lineas l1 + contar_lineas l2)
  ∧ (∀ l k : list string, l ≡ₚ k → contar_lineas l = contar_lineas k)
  ∧ (∀ l : list string,
       contar_lineas (List.filter es_linea_valida l) = contar_lineas l
       ∧ contar_lineas l
         = Z.of_nat (length (List.filter es_linea_valida l))).
Proof.
  split; [|split].
  - intros l1 l2. rewrite !contar_lineas_filter, List.filter_app, length_app.
    lia.
  - intros l k Hperm. rewrite !contar_lineas_filter.
    by rewrite (filter_Permutation_length _ _ _ Hperm).
  - intros l. split; [|apply contar_lineas_filter].
    rewrite !contar_lineas_filter. do 2 f_equal.
    induction l as [|x l IH]; [done|]. cbn [List.filter].
    destruct (es_linea_valida x) eqn:E; [|exact IH].
    cbn [List.filter]. rewrite E. by f_equal.
Qed.

Lemma contar_lineas_composicion_witness :
  ["# a"; "mpls ip"]%string ≡ₚ ["mpls ip"; "# a"]%string
  ∧ contar_lineas ["# a"; "mpls ip"]%string
    = contar_lineas ["mpls ip"; "# a"]%string.
Proof.
  assert (H : ["# a"; "mpls ip"]%string ≡ₚ ["mpls ip"; "# a"]%string)
    by apply Permutation_swap.
  split; [exact H|].
  exact (proj1 (proj2 contar_lineas_composicion) _ _ H).
Defined.

(** ** The enumeration of the files *)

Lemma buscar_entrada (w : Mundo) (e : Entrada) :
  dir_existe w = true → NoDup (ent_nombre <$> dir_listado w) →
  e ∈ dir_listado w →
  buscar w (OsPath.join CONFIG_DIR (ent_nombre e)) = Some e.
Proof.
  intros Hdir Hnd He. unfold buscar. rewrite Hdir.
  destruct (List.find _ (dir_listado w)) as [e'|] eqn:Hfind.
  - apply find_elem_of in Hfind as [He' Heq]. apply String.eqb_eq in Heq.
    f_equal. eapply (NoDup_fmap_elem_of ent_nombre); try done.
    by apply join_CONFIG_DIR_inj.
  - rewrite find_none_iff in Hfind. specialize (Hfind e He).
    by rewrite String.eqb_refl in Hfind.
Qed.

Lemma es_candidato_entrada (w : Mundo) (e : Entrada) :
  dir_existe w = true → NoDup (ent_nombre <$> dir_listado w) →
  e ∈ dir_listado w →
  es_candidato w (ent_nombre e)
  = ent_es_archivo e && extension_admitida (ent_nombre e).
Proof.
  intros Hdir Hnd He. unfold es_candidato, isfile.
  by rewrite buscar_entrada.
Qed.

Lemma elem_of_filter_bool {A : Type} (p : A → bool) (l : list A) (x : A) :
  x ∈ List.filter p l ↔ x ∈ l ∧ p x = true.
Proof. rewrite !list_elem_of_In. apply List.filter_In. Qed.

Lemma NoDup_filter_bool {A : Type} (p : A → bool) (l : list A) :
  NoDup l → NoDup (List.filter p l).
Proof.
  induction 1 as [|x l Hx Hl IH]; cbn [List.filter]; [constructor|].
  destruct (p x); [|done]. constructor; [|done].
  rewrite elem_of_filter_bool. by intros [? _].
Qed.

Lemma NoDup_fmap_join (l : list string) :
  NoDup l → NoDup (OsPath.join CONFIG_DIR <$> l).
Proof.
  induction 1 as [|x l Hx Hl IH]; cbn [fmap list_fmap]; [constructor|].
  constructor; [|done]. intros Hin.
  apply list_elem_of_fmap in Hin as (y & Hy & Hin).
  apply join_CONFIG_DIR_inj in Hy as ->. done.
Qed.

Lemma sorted_str_ordenada (l : list string) :
  StronglySorted (no_mayor String.ltb) (sorted_str l).
Proof.
  apply sorted_ordenada.
  - intros x y. unfold String.ltb. rewrite (String.compare_antisym x y).
    by destruct (String.compare y x).
  - intros x y z. rewrite !string_ltb_false.
    apply string_compare_no_Gt_trans.
Qed.

Lemma no_mayor_distinto (x y : string) :
  no_mayor String.ltb x y → x ≠ y → String.ltb x y = true.
Proof.
  unfold no_mayor. rewrite string_ltb_false. intros Hle Hne.
  unfold String.ltb. destruct (String.compare x y) eqn:E; [|done|done].
  by apply String.compare_eq_iff in E.
Qed.

Lemma ordenada_estricta (l : list string) :
  NoDup l → StronglySorted (no_mayor String.ltb) l →
  StronglySorted (λ x y, String.ltb x y = true) l.
Proof.
  induction 2 as [|x l Hl IH Hx]; [constructor|].
  apply NoDup_cons in H as [Hnx Hnd]. constructor; [by apply IH|].
  rewrite Forall_forall in Hx. apply Forall_forall. intros y Hy.
  apply no_mayor_distinto; [by apply Hx|]. by intros ->.
Qed.

(** X4.  The enumeration fails with the error of [os.listdir] when the
    directory is missing, and also when it exists but may not be listed.
    On a directory that may be listed (with distinct entry names) it
    returns, without any other effect, the paths of the entries that are
    regular files with an extension of [EXTENSIONS], each once, in
    strictly ascending order. *)
Theorem obtener_archivos_config_correct (w : Mundo) (s : Estado) :
  (dir_existe w = false ∨ dir_legible w = false →
   obtener_archivos_config w CONFIG_DIR s = (Raise OSError, s))
  ∧ (dir_existe w = true → dir_legible w = true →
     NoDup (ent_nombre <$> dir_listado w) →
     ∃ archivos,
       obtener_archivos_config w CONFIG_DIR s = (Ok archivos, s)
       ∧ StronglySorted (λ x y, String.ltb x y = true) archivos
       ∧ ∀ ruta,
           ruta ∈ archivos
           ↔ ∃ e, e ∈ dir_listado w
                  ∧ ruta = OsPath.join CONFIG_DIR (ent_nombre e)
                  ∧ ent_es_archivo e = true
                  ∧ existsb (String.eqb (snd (OsPath.splitext (ent_nombre e))))
                            EXTENSIONS = true).
Proof.
  split.
  { intros [Hdir|Hleg].
    - by apply obtener_archivos_config_sin_carpeta.
    - by apply obtener_archivos_config_sin_permiso. }
  intros Hdir Hleg Hnd. exists (candidatos w).
  split; [by apply obtener_archivos_config_eq|].
  split.
  - apply ordenada_estricta; [|apply sorted_str_ordenada].
    unfold candidatos, sorted_str. rewrite sorted_Permutation.
    by apply NoDup_fmap_join, NoDup_filter_bool.
  - intros ruta. unfold candidatos, sorted_str. rewrite sorted_Permutation.
    rewrite list_elem_of_fmap. split.
    + intros (n & -> & Hn). apply elem_of_filter_bool in Hn as [Hn Hc].
      apply list_elem_of_fmap in Hn as (e & -> & He).
      rewrite es_candidato_entrada in Hc by done.
      apply andb_true_iff in Hc as [Hf Hx]. by exists e.
    + intros (e & He & -> & Hf & Hx). exists (ent_nombre e).
      split; [done|]. apply elem_of_filter_bool.
      split; [by apply list_elem_of_fmap_2|].
      rewrite es_candidato_entrada by done.
      unfold extension_admitida. by rewrite Hf, Hx.
Qed.

Lemma obtener_archivos_config_correct_witness :
  obtener_archivos_config mundo_sin_permiso CONFIG_DIR inicial
  = (Raise OSError, inicial)
  ∧ obtener_archivos_config sin_carpeta CONFIG_DIR inicial
    = (Raise OSError, inicial)
  ∧ NoDup (ent_nombre <$> dir_listado mundo_mpls)
  ∧ ∃ archivos,
      obtener_archivos_config mundo_mpls CONFIG_DIR inicial
      = (Ok archivos, inicial)
      ∧ StronglySorted (λ x y, String.ltb x y = true) archivos
      ∧ "./pe1-mpls.txt"%string ∈ archivos.
Proof.
  split.
  { apply (proj1 (obtener_archivos_config_correct mundo_sin_permiso inicial)).
    right. reflexivity. }
  split.
  { apply (proj1 (obtener_archivos_config_correct sin_carpeta inicial)).
    left. reflexivity. }
  split; [exact NoDup_nombres_mundo_mpls|].
  destruct (proj2 (obtener_archivos_config_correct mundo_mpls inicial)
              eq_refl eq_refl NoDup_nombres_mundo_mpls)
    as (archivos & H1 & H2 & H3).
  exists archivos. split; [exact H1|]. split; [exact H2|].
  apply H3. exists (archivo_de "pe1-mpls.txt" (codigo 10)).
  split; [by left|]. repeat split.
Defined.

Lemma rfind_cota (s : string) (c : ascii) : -1 ≤ PyStr.rfind s c.
Proof.
  induction s as [|d s IH]; cbn [PyStr.rfind]; [lia|].
  destruct (Z.leb_spec 0 (PyStr.rfind s c)); [lia|].
  destruct (Ascii.eqb d c); lia.
Qed.

Lemma rfind_ausente (s : string) (c : ascii) :
  PyStr.contains (String c EmptyString) s = false → PyStr.rfind s c = -1.
Proof.
  induction s as [|d s IH]; cbn [PyStr.contains PyStr.rfind PyStr.startswith];
    [done|].
  rewrite andb_true_r. intros [Hd Hs]%orb_false_iff.
  rewrite (IH Hs), Hd. reflexivity.
Qed.

Lemma splitext_sin_punto (nombre : string) :
  PyStr.contains "." nombre = false →
  snd (OsPath.splitext nombre) = EmptyString.
Proof.
  intros H. unfold OsPath.splitext. rewrite (rfind_ausente _ _ H).
  pose proof (rfind_cota nombre OsPath.sep).
  by destruct (Z.ltb_spec (PyStr.rfind nombre OsPath.sep) (-1)); [lia|].
Qed.

Lemma splitext_oculto (t : string) :
  PyStr.contains "." t = false → PyStr.contains "/" t = false →
  snd (OsPath.splitext (String "." t)) = EmptyString.
Proof.
  intros Hp Hs. unfold OsPath.splitext. cbn [PyStr.rfind].
  rewrite (rfind_ausente _ _ Hp).
  unfold OsPath.sep. rewrite (rfind_ausente _ _ Hs).
  change (-1 <? 0) with true. cbv iota.
  replace (PyStr.hasta (PyStr.desde (String "." t) (-1 + 1)) (0 - (-1 + 1)))
    with EmptyString; [done|].
  unfold PyStr.hasta. change (Z.to_nat (0 - (-1 + 1))) with 0%nat.
  by destruct (PyStr.desde _ _).
Qed.

(** X5.  Files saved without an extension are collected, and so are hidden
    files: a regular file whose name has no dot, or only the dot it starts
    with, is among the paths that the enumeration returns. *)
Theorem obtener_archivos_sin_extension (w : Mundo) (e : Entrada)
    (archivos : list string) :
  NoDup (ent_nombre <$> dir_listado w) →
  (obtener_archivos_config w CONFIG_DIR inicial).1 = Ok archivos →
  e ∈ dir_listado w → ent_es_archivo e = true →
  (PyStr.contains "." (ent_nombre e) = false
   ∨ ∃ t, ent_nombre e = String "." t
          ∧ PyStr.contains "." t = false ∧ PyStr.contains "/" t = false) →
  OsPath.join CONFIG_DIR (ent_nombre e) ∈ archivos.
Proof.
  intros Hnd Hobt He Hf Hnombre.
  apply obtener_archivos_config_fst in Hobt as (Hdir & Hleg & <-).
  unfold candidatos, sorted_str. rewrite sorted_Permutation.
  apply list_elem_of_fmap_2, elem_of_filter_bool.
  split; [by apply list_elem_of_fmap_2|].
  rewrite es_candidato_entrada by done. rewrite Hf. cbn [andb].
  unfold extension_admitida.
  assert (Hext : snd (OsPath.splitext (ent_nombre e)) = EmptyString).
  { destruct Hnombre as [H|(t & -> & Hp & Hs)].
    - by apply splitext_sin_punto.
    - by apply splitext_oculto. }
  rewrite Hext. reflexivity.
Qed.

Lemma obtener_archivos_sin_extension_witness :
  (obtener_archivos_config mundo_sin_extension CONFIG_DIR inicial).1
  = Ok ["./.gitignore"; "./pe1-srv6"]%string
  ∧ "./pe1-srv6"%string ∈ ["./.gitignore"; "./pe1-srv6"]%string
  ∧ "./.gitignore"%string ∈ ["./.gitignore"; "./pe1-srv6"]%string.
Proof.
  assert (Hnd : NoDup (ent_nombre <$> dir_listado mundo_sin_extension)).
  { cbn. repeat (apply NoDup_cons; split;
                 [rewrite ?elem_of_cons, elem_of_nil; intros H;
                  repeat (destruct H as [H|H]; [discriminate|]); done|]).
    apply NoDup_nil_2. }
  assert (Hobt : (obtener_archivos_config mundo_sin_extension CONFIG_DIR
                    inicial).1 = Ok ["./.gitignore"; "./pe1-srv6"]%string)
    by (vm_compute; reflexivity).
  split; [exact Hobt|]. split.
  - apply (obtener_archivos_sin_extension mundo_sin_extension
             (archivo_de "pe1-srv6" (codigo 5)) _ Hnd Hobt).
    + by left.
    + reflexivity.
    + left. reflexivity.
  - apply (obtener_archivos_sin_extension mundo_sin_extension
             (archivo_de ".gitignore" (codigo 2)) _ Hnd Hobt).
    + right; by left.
    + reflexivity.
    + right. exists "gitignore"%string. repeat split.
Defined.

(** ** Entries that are not candidates *)

Lemma buscar_con_entrada (e : Entrada) (w : Mundo) (n : string) :
  n ≠ ent_nombre e →
  buscar (con_entrada e w) (OsPath.join CONFIG_DIR n)
  = buscar w (OsPath.join CONFIG_DIR n).
Proof.
  intros Hn. unfold buscar, con_entrada. cbn [dir_existe dir_listado].
  destruct (dir_existe w); [|done]. cbn [List.find].
  destruct (String.eqb_spec (OsPath.join CONFIG_DIR (ent_nombre e))
                            (OsPath.join CONFIG_DIR n)) as [Heq|]; [|done].
  apply join_CONFIG_DIR_inj in Heq. congruence.
Qed.

Lemma candidatos_con_entrada (e : Entrada) (w : Mundo) :
  ent_nombre e ∉ (ent_nombre <$> dir_listado w) →
  ent_es_archivo e && extension_admitida (ent_nombre e) = false →
  candidatos (con_entrada e w) = candidatos w.
Proof.
  intros Hfresh Hno. unfold candidatos. do 2 f_equal.
  cbn [con_entrada dir_listado fmap list_fmap List.filter].
  assert (He : es_candidato (con_entrada e w) (ent_nombre e) = false).
  { unfold es_candidato, isfile, buscar, con_entrada.
    cbn [dir_existe dir_listado].
    destruct (dir_existe w); [|done].
    cbn [List.find]. by rewrite String.eqb_refl. }
  rewrite He. apply List.filter_ext_in. intros n Hn.
  apply list_elem_of_In in Hn.
  unfold es_candidato, isfile. rewrite buscar_con_entrada; [done|].
  by intros ->.
Qed.

Lemma registros_ext (w w' : Mundo) (archivos : list string) :
  (∀ ruta, ruta ∈ archivos → buscar w ruta = buscar w' ruta) →
  registros w archivos = registros w' archivos.
Proof.
  induction archivos as [|ruta rs IH]; intros Hext; [done|].
  rewrite !registros_cons.
  assert (E : registro_de w ruta = registro_de w' ruta).
  { unfold registro_de, lineas_de. by rewrite (Hext ruta) by by left. }
  rewrite E, IH; [done|]. intros r Hr. apply Hext. by right.
Qed.

Lemma buscar_candidato_con_entrada (e : Entrada) (w : Mundo) (ruta : string) :
  ent_nombre e ∉ (ent_nombre <$> dir_listado w) →
  ruta ∈ candidatos w →
  buscar (con_entrada e w) ruta = buscar w ruta.
Proof.
  intros Hfresh Hruta. unfold candidatos, sorted_str in Hruta.
  rewrite sorted_Permutation in Hruta.
  apply list_elem_of_fmap in Hruta as (n & -> & Hn).
  apply elem_of_filter_bool in Hn as [Hn _].
  apply buscar_con_entrada. by intros ->.
Qed.

Lemma puede_escribir_con_entrada (e : Entrada) (w : Mundo) (nombre : string) :
  puede_escribir (con_entrada e w) nombre
  = if String.eqb (ent_nombre e) nombre then ent_escribible e
    else puede_escribir w nombre.
Proof.
  unfold puede_escribir, con_entrada.
  cbn [dir_listado dir_escribible List.find].
  by destruct (String.eqb (ent_nombre e) nombre).
Qed.

Lemma puede_escribir_ausente (w : Mundo) (nombre : string) :
  nombre ∉ (ent_nombre <$> dir_listado w) →
  puede_escribir w nombre = dir_escribible w.
Proof.
  intros Hfresh. unfold puede_escribir.
  destruct (List.find _ (dir_listado w)) as [e'|] eqn:Hfind; [|done].
  apply find_elem_of in Hfind as [He' Heq]. apply String.eqb_eq in Heq.
  exfalso. apply Hfresh. rewrite <- Heq. by apply list_elem_of_fmap_2.
Qed.

(** X6.  An entry that is not a regular file, or whose extension is not one of
    [EXTENSIONS], is not read: with it or without it in the directory, the
    run prints the same, ends the same and writes the same report, unless
    the entry has the name of the report and opens for writing otherwise
    than a new file would.  The report [resumen_configuraciones.csv] that
    a run has left in a directory where files can be created changes
    nothing for the next run, whatever it contains.  An entry with that
    name that cannot be opened for writing, a subdirectory for one, makes
    the run that would write the report end with [OSError] right before
    the closing message, without a report. *)
Theorem ejecutar_sin_ajenos :
  (∀ (w : Mundo) (e : Entrada),
     ent_nombre e ∉ (ent_nombre <$> dir_listado w) →
     ent_es_archivo e = false
     ∨ existsb (String.eqb (snd (OsPath.splitext (ent_nombre e)))) EXTENSIONS
       = false →
     (ent_nombre e = nombre_csv → ent_escribible e = dir_escribible w) →
     ejecutar (con_entrada e w) = ejecutar w)
  ∧ (∀ (w : Mundo) (lineas : list string),
       nombre_csv ∉ (ent_nombre <$> dir_listado w) →
       dir_escribible w = true →
       ejecutar (con_entrada (informe_previo lineas) w) = ejecutar w)
  ∧ (∀ (w : Mundo) (e : Entrada) (filas : list Registro),
       nombre_csv ∉ (ent_nombre <$> dir_listado w) →
       ent_nombre e = nombre_csv → ent_escribible e = false →
       csv (ejecutar w).2 = Some filas →
       (ejecutar (con_entrada e w)).1 = Raise OSError
       ∧ csv (ejecutar (con_entrada e w)).2 = None
       ∧ consola (ejecutar (con_entrada e w)).2
         = removelast (consola (ejecutar w).2)).
Proof.
  assert (H : ∀ w e,
            ent_nombre e ∉ (ent_nombre <$> dir_listado w) →
            ent_es_archivo e && extension_admitida (ent_nombre e) = false →
            (ent_nombre e = nombre_csv →
             ent_escribible e = dir_escribible w) →
            ejecutar (con_entrada e w) = ejecutar w).
  { intros w e Hfresh Hno Hesc. apply ejecutar_ext.
    - reflexivity.
    - reflexivity.
    - rewrite puede_escribir_con_entrada.
      destruct (String.eqb_spec (ent_nombre e) nombre_csv) as [Heq|];
        [|done].
      rewrite puede_escribir_ausente by by rewrite <- Heq.
      by apply Hesc.
    - by apply candidatos_con_entrada.
    - intros ruta Hruta. rewrite candidatos_con_entrada in Hruta by done.
      by apply buscar_candidato_con_entrada. }
  split; [|split].
  - intros w e Hfresh Hno Hesc. apply H; [done| |done].
    apply andb_false_iff. destruct Hno as [?|?]; [by left|by right].
  - intros w lineas Hfresh Hdir. apply H; [done|done|].
    intros _. by rewrite Hdir.
  - intros w e filas Hfresh Hnombre Hesc Hcsv.
    assert (Hfresh' : ent_nombre e ∉ (ent_nombre <$> dir_listado w))
      by by rewrite Hnombre.
    assert (Hno : ent_es_archivo e && extension_admitida (ent_nombre e)
                  = false).
    { rewrite Hnombre. apply andb_false_r. }
    destruct (informe_inv w filas Hcsv)
      as (regs & evs & h & Hdir & Hregs & Hnew & Han & E).
    destruct (informe_permisos w filas Hcsv) as [Hleg _].
    destruct (analizar_Ok regs filas evs Hnew Han) as (_ & _ & _ & _ & Hcons).
    assert (Hevs : ∃ evs', evs = evs' ++ [CsvGenerado]).
    { destruct Hcons as (f0 & f1 & resumen & comparacion & _ & _ & _ & _ & ->).
      eexists. by rewrite !app_assoc. }
    destruct Hevs as (evs' & ->).
    assert (Hne : candidatos w ≠ []).
    { intros Hnil. rewrite Hnil in Hregs. injection Hregs as <-.
      discriminate Han. }
    pose proof (ejecutar_informe (con_entrada e w) regs Hdir Hleg) as Hrun.
    rewrite candidatos_con_entrada in Hrun by done.
    rewrite (registros_ext (con_entrada e w) w) in Hrun
      by (intros ruta Hruta; by apply buscar_candidato_con_entrada).
    specialize (Hrun Hne Hregs). rewrite Han in Hrun.
    rewrite puede_escribir_con_entrada in Hrun.
    rewrite Hnombre, String.eqb_refl, Hesc in Hrun.
    destruct Hrun as (h' & ->). rewrite E. cbn [fst snd consola csv].
    split; [done|]. split; [done|].
    rewrite !removelast_last. rewrite !app_assoc. by rewrite removelast_last.
Qed.

Lemma ejecutar_sin_ajenos_witness :
  (nombre_csv ∉ ent_nombre <$> dir_listado mundo_mpls)
  ∧ ejecutar (con_entrada (informe_previo ["archivo;lineas_codigo"]%string)
                          mundo_mpls)
    = ejecutar mundo_mpls
  ∧ csv (ejecutar mundo_mpls).2 = Some filas_mpls
  ∧ (ejecutar mundo_csv_carpeta).1 = Raise OSError
  ∧ csv (ejecutar mundo_csv_carpeta).2 = None.
Proof.
  assert (Hfresh : nombre_csv
                   ∉ (ent_nombre <$> dir_listado mundo_mpls)).
  { cbn. rewrite !elem_of_cons, elem_of_nil.
    intros H. repeat (destruct H as [H|H]; [discriminate|]). done. }
  assert (Hcsv : csv (ejecutar mundo_mpls).2 = Some filas_mpls)
    by (vm_compute; reflexivity).
  split; [exact Hfresh|].
  split; [exact (proj1 (proj2 ejecutar_sin_ajenos) mundo_mpls _ Hfresh
                   eq_refl)|].
  split; [exact Hcsv|].
  destruct (proj2 (proj2 ejecutar_sin_ajenos) mundo_mpls
              (subcarpeta nombre_csv) filas_mpls Hfresh eq_refl eq_refl Hcsv)
    as (H1 & H2 & _).
  split; [exact H1|exact H2].
Defined.

(** ** How a run ends *)


(** X7.  A run ends normally without a report in two cases only: the directory
    is missing, and then the console holds the error and the hint, or the
    enumeration returns no file.  No file is read and no record is built
    in either case. *)
Theorem ejecutar_sin_informe (w : Mundo) :
  ((ejecutar w).1 = Ok tt ∧ csv (ejecutar w).2 = None
   ↔ dir_existe w = false
     ∨ (obtener_archivos_config w CONFIG_DIR inicial).1 = Ok [])
  ∧ (dir_existe w = false →
     ejecutar w
     = (Ok tt, {| heap := [];
                  consola := [ErrorCarpeta CONFIG_DIR; AyudaCarpeta];
                  csv := None |}))
  ∧ ((ejecutar w).1 = Ok tt → csv (ejecutar w).2 = None →
     heap (ejecutar w).2 = []).
Proof.
  split; [|split].
  - rewrite obtener_archivos_config_fst. split.
    + intros [Hok Hcsv].
      destruct (ejecutar_desenlace w); cbn [fst snd csv] in *; try done.
      * by left.
      * by right.
    + intros [Hdir|(Hdir & Hleg & Hnil)].
      * by rewrite ejecutar_sin_carpeta.
      * by rewrite ejecutar_sin_archivos.
  - apply ejecutar_sin_carpeta.
  - intros Hok Hcsv.
    destruct (ejecutar_desenlace w); cbn [fst snd csv heap] in *; done.
Qed.

Lemma ejecutar_sin_informe_witness :
  dir_existe sin_carpeta = false
  ∧ ejecutar sin_carpeta
    = (Ok tt, {| heap := [];
                 consola := [ErrorCarpeta CONFIG_DIR; AyudaCarpeta];
                 csv := None |}).
Proof.
  split; [reflexivity|].
  apply (proj1 (proj2 (ejecutar_sin_informe _))). reflexivity.
Defined.

Lemma registros_None_inv (w : Mundo) (archivos : list string) :
  registros w archivos = None →
  ∃ ruta, ruta ∈ archivos ∧ lineas_de w ruta = None.
Proof.
  intros H. apply mapM_None in H. apply Exists_exists in H as (ruta & Hr & Hno).
  exists ruta. split; [done|]. unfold registro_de in Hno.
  by destruct (lineas_de w ruta).
Qed.

(** X8.  A run raises [OSError] in three cases only: the directory exists
    but may not be listed, and then nothing has been printed; one of the
    enumerated files does not open; or every file has been read and
    analysed and the file of the report cannot be opened for writing, and
    then everything but the closing message has been printed.  A run
    never raises [TypeError]: the lines that format a field are reached
    only with the field set.  Whatever it raises, no report is written. *)
Theorem ejecutar_excepciones (w : Mundo) :
  ((ejecutar w).1 = Raise OSError
   ↔ (dir_existe w = true ∧ dir_legible w = false)
     ∨ (∃ archivos ruta,
          (obtener_archivos_config w CONFIG_DIR inicial).1 = Ok archivos
          ∧ ruta ∈ archivos
          ∧ (abrir w ruta inicial).1 = Raise OSError)
     ∨ (∃ archivos regs filas evs,
          (obtener_archivos_config w CONFIG_DIR inicial).1 = Ok archivos
          ∧ archivos ≠ []
          ∧ registros w archivos = Some regs
          ∧ analizar regs = Ok (filas, evs)
          ∧ puede_escribir w nombre_csv = false))
  ∧ (dir_existe w = true → dir_legible w = false →
     ejecutar w = (Raise OSError, inicial))
  ∧ (∀ archivos regs filas evs,
       (obtener_archivos_config w CONFIG_DIR inicial).1 = Ok archivos →
       archivos ≠ [] →
       registros w archivos = Some regs →
       analizar regs = Ok (filas, evs) →
       puede_escribir w nombre_csv = false →
       consola (ejecutar w).2
       = [Titulo; Regla] ++ (evento_conteo <$> regs) ++ [Regla]
         ++ removelast evs)
  ∧ (ejecutar w).1 ≠ Raise TypeError
  ∧ (∀ e, (ejecutar w).1 = Raise e → csv (ejecutar w).2 = None).
Proof.
  assert (Hesc : ∀ archivos regs filas evs,
            (obtener_archivos_config w CONFIG_DIR inicial).1 = Ok archivos →
            archivos ≠ [] →
            registros w archivos = Some regs →
            analizar regs = Ok (filas, evs) →
            puede_escribir w nombre_csv = false →
            ∃ h, ejecutar w
                 = (Raise OSError,
                    {| heap := h;
                       consola := [Titulo; Regla] ++ (evento_conteo <$> regs)
                                  ++ [Regla] ++ removelast evs;
                       csv := None |})).
  { intros archivos regs filas evs Hobt Hne Hregs Han Hno.
    apply obtener_archivos_config_fst in Hobt as (Hdir & Hleg & <-).
    pose proof (ejecutar_informe w regs Hdir Hleg Hne Hregs) as Hrun.
    by rewrite Han, Hno in Hrun. }
  split; [|split; [|split; [|split]]].
  - split.
    + intros Hraise.
      destruct (ejecutar_desenlace w)
        as [ | | s Hdir Hne Hregs _ Hleg | |
           | Hdir Hleg | regs filas evs h Hdir Hne Hregs _ Han Hleg Hno ];
        cbn [fst] in Hraise; try done.
      * right; left.
        destruct (registros_None_inv _ _ Hregs) as (ruta & Hr & Hno).
        exists (candidatos w), ruta.
        split; [by apply obtener_archivos_config_fst|]. split; [done|].
        rewrite abrir_eq. cbn [fst]. by rewrite Hno.
      * by left.
      * right; right. exists (candidatos w), regs, filas, evs.
        split; [by apply obtener_archivos_config_fst|]. done.
    + intros [[Hdir Hleg]|[(archivos & ruta & Hobt & Hr & Hab)
                          |(archivos & regs & filas & evs & Hobt & Hne & Hregs
                            & Han & Hno)]].
      * by rewrite ejecutar_sin_permiso.
      * apply obtener_archivos_config_fst in Hobt as (Hdir & Hleg & <-).
        rewrite abrir_eq in Hab. cbn [fst] in Hab.
        destruct (lineas_de w ruta) eqn:Hl; [done|].
        assert (Hne : candidatos w ≠ [])
          by (intros E; rewrite E in Hr; inversion Hr).
        destruct (ejecutar_ilegible w Hdir Hleg Hne
                    (registros_None _ _ _ Hr Hl))
          as (s & -> & _). done.
      * destruct (Hesc archivos regs filas evs Hobt Hne Hregs Han Hno)
          as (h & ->). done.
  - apply ejecutar_sin_permiso.
  - intros archivos regs filas evs Hobt Hne Hregs Han Hno.
    destruct (Hesc archivos regs filas evs Hobt Hne Hregs Han Hno)
      as (h & ->). done.
  - intros H. destruct (ejecutar_desenlace w); cbn [fst] in H; done.
  - intros e H.
    destruct (ejecutar_desenlace w); cbn [fst snd csv] in *; done.
Qed.

Lemma ejecutar_excepciones_witness :
  (ejecutar mundo_ilegible).1 = Raise OSError
  ∧ csv (ejecutar mundo_ilegible).2 = None
  ∧ ejecutar mundo_sin_permiso = (Raise OSError, inicial)
  ∧ (ejecutar mundo_solo_lectura).1 = Raise OSError
  ∧ (ejecutar mundo_csv_carpeta).1 = Raise OSError
  ∧ last (consola (ejecutar mundo_csv_carpeta).2)
    = Some (LineaReferencia "pe1-mpls-srv6.txt" 14 "+" 4 cuarenta).
Proof.
  assert (H : (ejecutar mundo_ilegible).1 = Raise OSError).
  { apply (proj1 (ejecutar_excepciones mundo_ilegible)).
    right; left.
    exists ["./a.txt"; "./b.txt"]%string, "./b.txt"%string.
    split; [vm_compute; reflexivity|]. split; [right; left|].
    vm_compute; reflexivity. }
  split; [exact H|].
  split.
  { exact (proj2 (proj2 (proj2 (proj2 (ejecutar_excepciones mundo_ilegible))))
             _ H). }
  split.
  { exact (proj1 (proj2 (ejecutar_excepciones mundo_sin_permiso))
             eq_refl eq_refl). }
  assert (Hregs : ∃ regs filas evs,
            registros mundo_mpls ["./pe1-mpls-srv6.txt"; "./pe1-mpls.txt"]%string
            = Some regs
            ∧ analizar regs = Ok (filas, evs)
            ∧ last (removelast evs)
              = Some (LineaReferencia "pe1-mpls-srv6.txt" 14 "+" 4 cuarenta)).
  { eexists _, _, _. split; [vm_compute; reflexivity|].
    split; vm_compute; reflexivity. }
  destruct Hregs as (regs & filas & evs & Hregs & Han & Hlast).
  split.
  { apply (proj1 (ejecutar_excepciones mundo_solo_lectura)).
    right; right.
    exists ["./pe1-mpls-srv6.txt"; "./pe1-mpls.txt"]%string, regs, filas, evs.
    split; [vm_compute; reflexivity|]. split; [done|].
    split; [exact Hregs|]. split; [exact Han|]. vm_compute; reflexivity. }
  split.
  { apply (proj1 (ejecutar_excepciones mundo_csv_carpeta)).
    right; right.
    exists ["./pe1-mpls-srv6.txt"; "./pe1-mpls.txt"]%string, regs, filas, evs.
    split; [vm_compute; reflexivity|]. split; [done|].
    split; [exact Hregs|]. split; [exact Han|]. vm_compute; reflexivity. }
  vm_compute; reflexivity.
Defined.

(** X9.  When a file does not open, the files enumerated before it have been
    read and their counts printed, in order; the run stops there with
    [OSError]: the files after it are not read, nothing else is printed
    and no report is written. *)
Theorem ejecutar_falla_lectura (w : Mundo) (antes : list string)
    (ruta : string) (despues : list string) :
  (obtener_archivos_config w CONFIG_DIR inicial).1
  = Ok (antes ++ ruta :: despues) →
  Forall (λ r, ∃ lineas, (abrir w r inicial).1 = Ok lineas) antes →
  (abrir w ruta inicial).1 = Raise OSError →
  ∃ conteos,
    Forall2 (linea_de_ruta w) antes conteos
    ∧ (ejecutar w).1 = Raise OSError
    ∧ consola (ejecutar w).2 = [Titulo; Regla] ++ conteos
    ∧ length (heap (ejecutar w).2) = length antes
    ∧ csv (ejecutar w).2 = None.
Proof.
  intros Hobt Hantes Hruta.
  apply obtener_archivos_config_fst in Hobt as (Hdir & Hleg & Hcand).
  destruct (abren_registros w antes Hantes) as (regs & Hregs).
  assert (Hno : registro_de w ruta = None).
  { unfold registro_de. rewrite abrir_eq in Hruta. cbn [fst] in Hruta.
    by destruct (lineas_de w ruta). }
  exists (evento_conteo <$> regs).
  split.
  { apply Forall2_fmap_r. by apply registros_Forall2. }
  rewrite (ejecutar_falla w antes ruta despues regs Hdir Hleg Hcand Hregs Hno).
  cbn [fst snd consola heap csv].
  split; [done|]. split; [done|]. split; [|done].
  by destruct (registros_recien_creados _ _ _ Hregs).
Qed.

Lemma ejecutar_falla_lectura_witness :
  (obtener_archivos_config mundo_ilegible CONFIG_DIR inicial).1
  = Ok ["./a.txt"; "./b.txt"]%string
  ∧ ∃ conteos,
      Forall2 (linea_de_ruta mundo_ilegible) ["./a.txt"%string] conteos
      ∧ (ejecutar mundo_ilegible).1 = Raise OSError
      ∧ consola (ejecutar mundo_ilegible).2 = [Titulo; Regla] ++ conteos
      ∧ length (heap (ejecutar mundo_ilegible).2) = length ["./a.txt"%string]
      ∧ csv (ejecutar mundo_ilegible).2 = None.
Proof.
  split; [vm_compute; reflexivity|].
  apply (ejecutar_falla_lectura mundo_ilegible ["./a.txt"%string]
           "./b.txt"%string []).
  - vm_compute; reflexivity.
  - constructor; [|constructor]. eexists. vm_compute; reflexivity.
  - vm_compute; reflexivity.
Defined.

(** ** The console of a run that writes the report *)

Lemma filter_ninguno {A : Type} (p : A → bool) (l : list A) :
  (∀ x, x ∈ l → p x = false) → List.filter p l = [].
Proof.
  induction l as [|x l IH]; intros H; [done|]. cbn [List.filter].
  rewrite (H x) by by left. apply IH. intros y Hy. apply H. by right.
Qed.

Lemma resumen_Forall2 (filas : list Registro) (resumen : list Evento) :
  mapM evento_resumen filas = Ok resumen → Forall2 linea_de_fila filas resumen.
Proof.
  intros H. apply mapM_Ok_Forall2 in H.
  eapply Forall2_impl; [exact H|]. intros f ev Hev.
  unfold evento_resumen in Hev.
  destruct (diff_vs_min_abs f) as [d|] eqn:Ed; [|done].
  destruct (diff_vs_min_pct f) as [p|] eqn:Ep; [|done].
  injection Hev as <-. by exists d, p.
Qed.

Lemma referencia_Forall2 (filas : list Registro) (lr : list (list Evento)) :
  (∀ f, f ∈ filas → is_Some (diff_vs_ref_abs f)) →
  mapM eventos_referencia filas = Ok lr →
  Forall2 linea_referencia_de_fila filas (concat lr).
Proof.
  revert lr; induction filas as [|f filas IH]; intros lr Hset H.
  - injection H as <-. constructor.
  - cbn [mapM] in H.
    destruct (eventos_referencia f) as [evs|] eqn:Ef; cbn [mbind Res_bind] in H;
      [|done].
    destruct (mapM eventos_referencia filas) as [lr'|];
      cbn [mbind Res_bind mret Res_ret] in H; [|done].
    injection H as <-. cbn [concat].
    unfold eventos_referencia in Ef.
    destruct (Hset f ltac:(left)) as [d Hd]. rewrite Hd in Ef.
    destruct (diff_vs_ref_pct f) as [p|] eqn:Ep; [|done].
    injection Ef as <-. cbn [app]. constructor.
    + by exists d, p.
    + apply IH; [|done]. intros g Hg. apply Hset. by right.
Qed.

Lemma primero_head {A : Type} (l : list A) (x : A) :
  primero l = Ok x → head l = Some x.
Proof. destruct l; [done|]. by intros [= ->]. Qed.

Lemma ultimo_last {A : Type} (l : list A) (x : A) :
  ultimo l = Ok x → last l = Some x.
Proof. unfold ultimo. destruct (last l); [|done]. by intros [= ->]. Qed.

(** The whole console of such a run, block by block. *)
Lemma consola_informe (w : Mundo) (filas : list Registro) :
  csv (ejecutar w).2 = Some filas →
  ∃ regs resumen f0 f1 comparacion,
    registros w (candidatos w) = Some regs
    ∧ dir_existe w = true
    ∧ consola (ejecutar w).2
      = [Titulo; Regla] ++ (evento_conteo <$> regs)
        ++ [Regla; TituloResumen] ++ resumen
        ++ [MasSimple (archivo f0) (lineas_codigo f0);
            MasComplejo (archivo f1) (lineas_codigo f1);
            Extremos (maximo filas - minimo filas)
              (porcentaje_valor (maximo filas - minimo filas) (maximo filas))]
        ++ comparacion ++ [CsvGenerado]
    ∧ Forall2 linea_de_fila filas resumen
    ∧ head filas = Some f0 ∧ last filas = Some f1
    ∧ lineas_codigo f0 = minimo filas ∧ lineas_codigo f1 = maximo filas
    ∧ match List.find (λ r, es_referencia (archivo r)) filas with
      | Some fr =>
          ∃ lineas_ref,
            comparacion
            = [Referencia (archivo fr) (lineas_codigo fr); TituloComparacion]
              ++ lineas_ref
            ∧ Forall2 linea_referencia_de_fila filas lineas_ref
      | None => comparacion = [NotaSinReferencia]
      end.
Proof.
  intros Hcsv.
  destruct (informe_inv w filas Hcsv)
    as (regs & evs & h & Hdir & Hregs & Hnew & Han & ->).
  destruct (analizar_Ok regs filas evs Hnew Han)
    as (_ & _ & Hasc & Hfilas & Hcons).
  destruct Hcons as (f0 & f1 & resumen & comparacion & Hf0 & Hf1 & Hres & Hcomp & ->).
  exists regs, resumen, f0, f1, comparacion.
  split; [done|]. split; [done|]. split.
  { cbn [snd consola]. rewrite (minimo_primero _ _ Hasc Hf0).
    rewrite (maximo_ultimo _ _ Hasc Hf1). cbn [app].
    reflexivity. }
  split; [by apply resumen_Forall2|].
  split; [by apply primero_head|]. split; [by apply ultimo_last|].
  split; [symmetry; by apply minimo_primero|].
  split; [symmetry; by apply maximo_ultimo|].
  destruct (List.find _ filas) as [fr|] eqn:Hfind; [|done].
  destruct Hcomp as (lr & Hlr & ->). exists (concat lr). split; [done|].
  apply referencia_Forall2; [|done].
  intros f Hf. destruct (Hfilas f Hf) as (_ & _ & Href).
  rewrite Hfind in Href. cbv zeta in Href. destruct Href as [-> _]. done.
Qed.

Lemma linea_de_fila_clase (f : Registro) (ev : Evento) :
  linea_de_fila f ev →
  es_linea_resumen ev = true ∧ es_linea_conteo ev = false
  ∧ es_linea_referencia ev = false ∧ es_extremo ev = false.
Proof. by intros (d & p & _ & _ & ->). Qed.

Lemma linea_referencia_de_fila_clase (f : Registro) (ev : Evento) :
  linea_referencia_de_fila f ev →
  es_linea_referencia ev = true ∧ es_linea_conteo ev = false
  ∧ es_linea_resumen ev = false ∧ es_extremo ev = false.
Proof. by intros (d & p & _ & _ & ->). Qed.

Lemma Forall2_clase {A : Type} (R : A → Evento → Prop) (p : Evento → bool)
    (b : bool) (l : list A) (k : list Evento) :
  (∀ x ev, R x ev → p ev = b) → Forall2 R l k → ∀ ev, ev ∈ k → p ev = b.
Proof.
  intros HR HF ev Hev.
  destruct (Forall2_elem_of_r _ _ _ _ HF Hev) as (x & _ & Hx). by eapply HR.
Qed.

(** The block of the comparison holds no line of another block. *)
Lemma comparacion_clase (filas : list Registro) (comparacion : list Evento)
    (p : Evento → bool) :
  p NotaSinReferencia = false → (∀ n l, p (Referencia n l) = false) →
  p TituloComparacion = false →
  (∀ f ev, linea_referencia_de_fila f ev → p ev = false) →
  match List.find (λ r, es_referencia (archivo r)) filas with
  | Some fr =>
      ∃ lineas_ref,
        comparacion
        = [Referencia (archivo fr) (lineas_codigo fr); TituloComparacion]
          ++ lineas_ref
        ∧ Forall2 linea_referencia_de_fila filas lineas_ref
  | None => comparacion = [NotaSinReferencia]
  end →
  List.filter p comparacion = [].
Proof.
  intros H1 H2 H3 H4 Hcomp.
  destruct (List.find _ filas) as [fr|].
  - destruct Hcomp as (lr & -> & HF). cbn [app List.filter].
    rewrite H2, H3. apply filter_ninguno.
    by eapply Forall2_clase.
  - subst comparacion. cbn. by rewrite H1.
Qed.

(** X10.  Step 1 of a run that writes the report prints, right after the
    title and the rule, one line per enumerated file, in the order of
    enumeration, with the name of the file (not its path) and its count of
    code lines; the rest of the console holds no such line. *)
Theorem consola_conteos (w : Mundo) (filas : list Registro) :
  csv (ejecutar w).2 = Some filas →
  ∃ archivos conteos resto,
    (obtener_archivos_config w CONFIG_DIR inicial).1 = Ok archivos
    ∧ consola (ejecutar w).2 = [Titulo; Regla] ++ conteos ++ [Regla] ++ resto
    ∧ Forall2 (linea_de_ruta w) archivos conteos
    ∧ List.filter es_linea_conteo resto = [].
Proof.
  intros Hcsv.
  destruct (consola_informe w filas Hcsv)
    as (regs & resumen & f0 & f1 & comparacion & Hregs & Hdir & Hcons & Hres
        & _ & _ & _ & _ & Hcomp).
  eexists (candidatos w), (evento_conteo <$> regs), _.
  split; [by apply (informe_obtener w filas)|].
  split; [exact Hcons|].
  split.
  { apply Forall2_fmap_r. by apply registros_Forall2. }
  cbn [app List.filter es_linea_conteo].
  rewrite List.filter_app. cbn [List.filter es_linea_conteo].
  rewrite List.filter_app. cbn [List.filter es_linea_conteo app].
  rewrite (filter_ninguno _ resumen).
  2:{ eapply Forall2_clase; [|exact Hres]. intros f ev Hev.
      by destruct (linea_de_fila_clase f ev Hev) as (_ & ? & _). }
  rewrite (comparacion_clase filas comparacion es_linea_conteo); try done.
  intros f ev Hev. by destruct (linea_referencia_de_fila_clase f ev Hev) as (_ & ? & _).
Qed.

Lemma consola_conteos_witness :
  csv (ejecutar mundo_mpls).2 = Some filas_mpls
  ∧ ∃ archivos conteos resto,
      (obtener_archivos_config mundo_mpls CONFIG_DIR inicial).1 = Ok archivos
      ∧ consola (ejecutar mundo_mpls).2
        = [Titulo; Regla] ++ conteos ++ [Regla] ++ resto
      ∧ Forall2 (linea_de_ruta mundo_mpls) archivos conteos
      ∧ List.filter es_linea_conteo resto = [].
Proof.
  split; [vm_compute; reflexivity|].
  apply (consola_conteos mundo_mpls filas_mpls). vm_compute; reflexivity.
Defined.

(** X11.  Step 5 of a run that writes the report prints, after the title
    of the summary, one line per row of the report, in the order of the
    rows, with the name, the count and the two differences against the
    minimum that the row holds; then the first row as the simplest file and
    the last row as the most complex one, whose counts are the least and
    the greatest of the report.  No other line of the console is a summary
    line or names an extreme. *)
Theorem consola_resumen (w : Mundo) (filas : list Registro) :
  csv (ejecutar w).2 = Some filas →
  ∃ antes resumen f0 f1 despues,
    consola (ejecutar w).2
    = antes ++ [TituloResumen] ++ resumen
      ++ [MasSimple (archivo f0) (lineas_codigo f0);
          MasComplejo (archivo f1) (lineas_codigo f1)] ++ despues
    ∧ Forall2 linea_de_fila filas resumen
    ∧ head filas = Some f0 ∧ last filas = Some f1
    ∧ lineas_codigo f0 = minimo filas ∧ lineas_codigo f1 = maximo filas
    ∧ (∀ f, f ∈ filas →
         lineas_codigo f0 ≤ lineas_codigo f ≤ lineas_codigo f1)
    ∧ List.filter es_linea_resumen (antes ++ despues) = []
    ∧ List.filter es_extremo (antes ++ despues) = [].
Proof.
  intros Hcsv.
  destruct (consola_informe w filas Hcsv)
    as (regs & resumen & f0 & f1 & comparacion & Hregs & Hdir & Hcons & Hres
        & Hf0 & Hf1 & Hmin & Hmax & Hcomp).
  eexists ([Titulo; Regla] ++ (evento_conteo <$> regs) ++ [Regla]),
          resumen, f0, f1, _.
  split.
  { rewrite Hcons. rewrite <- !app_assoc. cbn [app]. reflexivity. }
  split; [done|]. split; [done|]. split; [done|].
  split; [done|]. split; [done|]. split.
  { intros f Hf. rewrite Hmin, Hmax.
    assert (Hne : filas ≠ []) by (intros ->; by apply elem_of_nil in Hf).
    destruct (minimo_spec filas Hne) as [Hm _].
    destruct (maximo_spec filas Hne) as [HM _].
    specialize (Hm f Hf). specialize (HM f Hf). lia. }
  assert (Hconteo : ∀ p : Evento → bool,
             (∀ n l, p (LineaConteo n l) = false) →
             List.filter p (evento_conteo <$> regs) = []).
  { intros p Hp. apply filter_ninguno. intros ev Hev.
    apply list_elem_of_fmap in Hev as (r & -> & _). apply Hp. }
  split.
  - rewrite <- !app_assoc. cbn [app List.filter es_linea_resumen].
    rewrite !List.filter_app. rewrite Hconteo by done.
    cbn [app List.filter es_linea_resumen]. rewrite ?List.filter_app.
    rewrite (comparacion_clase filas comparacion es_linea_resumen); try done.
    intros f ev Hev.
    by destruct (linea_referencia_de_fila_clase f ev Hev) as (_ & _ & ? & _).
  - rewrite <- !app_assoc. cbn [app List.filter es_extremo].
    rewrite !List.filter_app. rewrite Hconteo by done.
    cbn [app List.filter es_extremo]. rewrite ?List.filter_app.
    rewrite (comparacion_clase filas comparacion es_extremo); try done.
    intros f ev Hev.
    by destruct (linea_referencia_de_fila_clase f ev Hev) as (_ & _ & _ & ?).
Qed.

Lemma consola_resumen_witness :
  csv (ejecutar mundo_mpls).2 = Some filas_mpls
  ∧ ∃ antes resumen f0 f1 despues,
      consola (ejecutar mundo_mpls).2
      = antes ++ [TituloResumen] ++ resumen
        ++ [MasSimple (archivo f0) (lineas_codigo f0);
            MasComplejo (archivo f1) (lineas_codigo f1)] ++ despues
      ∧ Forall2 linea_de_fila filas_mpls resumen
      ∧ head filas_mpls = Some f0 ∧ last filas_mpls = Some f1
      ∧ lineas_codigo f0 = minimo filas_mpls
      ∧ lineas_codigo f1 = maximo filas_mpls
      ∧ (∀ f, f ∈ filas_mpls →
           lineas_codigo f0 ≤ lineas_codigo f ≤ lineas_codigo f1)
      ∧ List.filter es_linea_resumen (antes ++ despues) = []
      ∧ List.filter es_extremo (antes ++ despues) = [].
Proof.
  split; [vm_compute; reflexivity|].
  apply (consola_resumen mundo_mpls filas_mpls). vm_compute; reflexivity.
Defined.

(** X12.  The comparison against the reference: when a row passes the
    name test, the console ends with the line that names the first such
    row, the title of the comparison, one line per row of the report in the
    order of the rows (with a [+] before a difference that is not
    negative, and nothing before a negative one) and the closing message;
    when no row passes the test, the console holds no comparison line at
    all. *)
Theorem consola_comparacion (w : Mundo) (filas : list Registro) :
  csv (ejecutar w).2 = Some filas →
  match List.find (λ r, es_referencia (archivo r)) filas with
  | Some fr =>
      ∃ antes lineas_ref,
        consola (ejecutar w).2
        = antes ++ [Referencia (archivo fr) (lineas_codigo fr);
                    TituloComparacion] ++ lineas_ref ++ [CsvGenerado]
        ∧ Forall2 linea_referencia_de_fila filas lineas_ref
        ∧ List.filter es_linea_referencia antes = []
  | None => List.filter es_linea_referencia (consola (ejecutar w).2) = []
  end.
Proof.
  intros Hcsv.
  destruct (consola_informe w filas Hcsv)
    as (regs & resumen & f0 & f1 & comparacion & Hregs & Hdir & Hcons & Hres
        & _ & _ & _ & _ & Hcomp).
  assert (Hantes :
    List.filter es_linea_referencia
      ([Titulo; Regla] ++ (evento_conteo <$> regs) ++ [Regla; TituloResumen]
       ++ resumen
       ++ [MasSimple (archivo f0) (lineas_codigo f0);
           MasComplejo (archivo f1) (lineas_codigo f1);
           Extremos (maximo filas - minimo filas)
             (porcentaje_valor (maximo filas - minimo filas) (maximo filas))])
    = []).
  { rewrite !List.filter_app. cbn [List.filter es_linea_referencia app].
    rewrite (filter_ninguno _ (evento_conteo <$> regs)).
    2:{ intros ev Hev. by apply list_elem_of_fmap in Hev as (r & -> & _). }
    rewrite (filter_ninguno _ resumen); [done|].
    eapply Forall2_clase; [|exact Hres]. intros f ev Hev.
    by destruct (linea_de_fila_clase f ev Hev) as (_ & _ & ? & _). }
  destruct (List.find _ filas) as [fr|].
  - destruct Hcomp as (lr & -> & Hlr).
    eexists _, lr. split; [|split; [exact Hlr|exact Hantes]].
    rewrite Hcons. rewrite <- !app_assoc. reflexivity.
  - subst comparacion. rewrite Hcons.
    rewrite !List.filter_app. cbn [List.filter es_linea_referencia app].
    rewrite (filter_ninguno _ (evento_conteo <$> regs)).
    2:{ intros ev Hev. by apply list_elem_of_fmap in Hev as (r & -> & _). }
    rewrite (filter_ninguno _ resumen); [done|].
    eapply Forall2_clase; [|exact Hres]. intros f ev Hev.
    by destruct (linea_de_fila_clase f ev Hev) as (_ & _ & ? & _).
Qed.

Lemma consola_comparacion_witness :
  csv (ejecutar mundo_sin_referencia).2 = Some filas_sin_referencia
  ∧ List.filter es_linea_referencia (consola (ejecutar mundo_sin_referencia).2)
    = [].
Proof.
  split; [vm_compute; reflexivity|].
  exact (consola_comparacion mundo_sin_referencia filas_sin_referencia
           ltac:(vm_compute; reflexivity)).
Defined.

(** ** The rows of the report and the files of the directory *)

(** The sort is stable: the elements with a given key keep their order. *)
Lemma insertar_filter {A : Type} (key : A → Z) (n : Z) (x : A) (l : list A) :
  List.filter (λ a, key a =? n) (insertar (λ a b, key a <? key b) x l)
  = List.filter (λ a, key a =? n) (x :: l).
Proof.
  induction l as [|y l IH]; [reflexivity|].
  cbn [insertar]. destruct (Z.ltb_spec (key y) (key x)) as [Hlt|Hge]; [|done].
  cbn [List.filter] in IH |- *. rewrite IH.
  destruct (Z.eqb_spec (key x) n) as [Hx|Hx]; [|done].
  destruct (Z.eqb_spec (key y) n) as [Hy|Hy]; [lia|done].
Qed.

Lemma sorted_key_filter {A : Type} (key : A → Z) (n : Z) (l : list A) :
  List.filter (λ a, key a =? n) (sorted_key key l)
  = List.filter (λ a, key a =? n) l.
Proof.
  unfold sorted_key. induction l as [|x l IH]; [reflexivity|].
  cbn [sorted]. rewrite insertar_filter. cbn [List.filter]. by rewrite IH.
Qed.

Lemma mismo_archivo_filter (n : Z) (l k : list Registro) :
  Forall2 mismo_archivo l k →
  archivo <$> List.filter (λ f, lineas_codigo f =? n) k
  = archivo <$> List.filter (λ r, lineas_codigo r =? n) l.
Proof.
  induction 1 as [|r f l k [Hn Hl] _ IH]; [reflexivity|].
  cbn [List.filter]. rewrite Hl.
  destruct (lineas_codigo r =? n); cbn [fmap list_fmap]; by rewrite ?Hn, IH.
Qed.

Lemma mismo_archivo_nombres (l k : list Registro) :
  Forall2 mismo_archivo l k → archivo <$> k = archivo <$> l.
Proof.
  induction 1 as [|r f l k [Hn _] _ IH]; [reflexivity|].
  cbn [fmap list_fmap]. by rewrite Hn, IH.
Qed.

Lemma registros_nombres (w : Mundo) (archivos : list string)
    (regs : list Registro) :
  registros w archivos = Some regs →
  archivo <$> regs = OsPath.basename <$> archivos.
Proof.
  revert regs. induction archivos as [|ruta rs IH]; intros regs.
  - by intros [= <-].
  - rewrite registros_cons. unfold registro_de at 1.
    destruct (lineas_de w ruta); cbn [mbind option_bind]; [|done].
    destruct (registros w rs) as [regs'|]; [|done].
    intros [= <-]. cbn [fmap list_fmap]. f_equal. by apply IH.
Qed.

(** X13.  The report has one row for each enumerated file, and the rows
    with the same count of code lines are in the order in which the files
    were enumerated: the sort of step 2 is stable. *)
Theorem informe_estable (w : Mundo) (filas : list Registro) :
  csv (ejecutar w).2 = Some filas →
  ∃ archivos regs,
    (obtener_archivos_config w CONFIG_DIR inicial).1 = Ok archivos
    ∧ registros w archivos = Some regs
    ∧ archivo <$> filas ≡ₚ OsPath.basename <$> archivos
    ∧ ∀ n, archivo <$> List.filter (λ f, lineas_codigo f =? n) filas
           = archivo <$> List.filter (λ r, lineas_codigo r =? n) regs.
Proof.
  intros Hcsv.
  destruct (informe_inv w filas Hcsv)
    as (regs & evs & h & Hdir & Hregs & Hnew & Han & _).
  destruct (analizar_Ok regs filas evs Hnew Han) as (_ & Hmismo & _).
  exists (candidatos w), regs.
  split; [by apply (informe_obtener w filas)|]. split; [done|]. split.
  - rewrite (mismo_archivo_nombres _ _ Hmismo).
    rewrite <- (registros_nombres _ _ _ Hregs).
    apply fmap_Permutation. unfold sorted_key. apply sorted_Permutation.
  - intros n. rewrite (mismo_archivo_filter n _ _ Hmismo).
    by rewrite sorted_key_filter.
Qed.

Lemma informe_estable_witness :
  csv (ejecutar mundo_mpls).2 = Some filas_mpls
  ∧ ∃ archivos regs,
      (obtener_archivos_config mundo_mpls CONFIG_DIR inicial).1 = Ok archivos
      ∧ registros mundo_mpls archivos = Some regs
      ∧ archivo <$> filas_mpls ≡ₚ OsPath.basename <$> archivos
      ∧ ∀ n, archivo <$> List.filter (λ f, lineas_codigo f =? n) filas_mpls
             = archivo <$> List.filter (λ r, lineas_codigo r =? n) regs.
Proof.
  split; [vm_compute; reflexivity|].
  apply (informe_estable mundo_mpls filas_mpls). vm_compute; reflexivity.
Defined.

(** X14.  The reference is the simplest of the files whose names pass the
    test: no row that passes it has fewer code lines than the reference, so
    the difference of such a row against the reference is never
    negative. *)
Theorem referencia_minima (w : Mundo) (filas : list Registro)
    (fr f : Registro) :
  csv (ejecutar w).2 = Some filas →
  List.find (λ r, es_referencia (archivo r)) filas = Some fr →
  f ∈ filas → es_referencia (archivo f) = true →
  lineas_codigo fr ≤ lineas_codigo f
  ∧ ∃ d, diff_vs_ref_abs f = Some d ∧ 0 ≤ d.
Proof.
  intros Hcsv Hfind Hf Hes.
  destruct (informe_inv w filas Hcsv)
    as (regs & evs & h & Hdir & Hregs & Hnew & Han & _).
  destruct (analizar_Ok regs filas evs Hnew Han) as (_ & _ & Hasc & Hfilas & _).
  assert (Hle : lineas_codigo fr ≤ lineas_codigo f).
  { exact (asciende_find lineas_codigo (λ r, es_referencia (archivo r))
             filas fr f Hasc Hfind Hf Hes). }
  split; [done|].
  destruct (Hfilas f Hf) as (_ & _ & Href). rewrite Hfind in Href.
  cbv zeta in Href. destruct Href as [-> _]. eexists. split; [done|]. lia.
Qed.

Lemma referencia_minima_witness :
  ∃ fr f,
    csv (ejecutar mundo_dos_mpls).2 = Some [fr; f]
    ∧ archivo fr = "b-mpls.txt"%string ∧ archivo f = "a-mpls.txt"%string
    ∧ lineas_codigo fr ≤ lineas_codigo f
    ∧ ∃ d, diff_vs_ref_abs f = Some d ∧ 0 ≤ d.
Proof.
  eexists _, _. split; [vm_compute; reflexivity|].
  split; [reflexivity|]. split; [reflexivity|].
  eapply (referencia_minima mundo_dos_mpls).
  - vm_compute; reflexivity.
  - vm_compute; reflexivity.
  - right; left.
  - vm_compute; reflexivity.
Defined.

(** ** The names in the report *)

Lemma substring_todo (s : string) : substring 0 (String.length s) s = s.
Proof. induction s as [|c s IH]; [reflexivity|]. cbn. by rewrite IH. Qed.

Lemma startswith_ausente (c : ascii) (s : string) :
  PyStr.contains (String c EmptyString) s = false →
  PyStr.startswith s (String c EmptyString) = false.
Proof.
  destruct s as [|d s]; [done|]. cbn [PyStr.contains].
  by intros [H _]%orb_false_iff.
Qed.

(** The name of a directory entry comes back from the path built for it. *)
Lemma basename_join (nombre : string) :
  PyStr.contains "/" nombre = false →
  OsPath.basename (OsPath.join CONFIG_DIR nombre) = nombre.
Proof.
  intros H. unfold OsPath.join, CONFIG_DIR, OsPath.sep.
  rewrite (startswith_ausente _ _ H). cbn [PyStr.truthy negb orb].
  change (PyStr.endswith_char "." "/") with false. cbv iota.
  change ("." ++ String "/" nombre)%string with (String "." (String "/" nombre)).
  unfold OsPath.basename, OsPath.sep. cbn [PyStr.rfind].
  rewrite (rfind_ausente _ _ H).
  change (0 <=? -1) with false. cbv iota.
  change (Ascii.eqb "/" "/") with true. cbv iota.
  change (0 <=? 0) with true. cbv iota.
  change (Ascii.eqb "." "/") with false.
  unfold PyStr.desde. change (Z.to_nat (0 + 1 + 1)) with 2%nat.
  cbn [String.length Nat.sub substring]. rewrite Nat.sub_0_r.
  apply substring_todo.
Qed.

Lemma candidatos_elem_of (w : Mundo) (ruta : string) :
  dir_existe w = true → NoDup (ent_nombre <$> dir_listado w) →
  ruta ∈ candidatos w
  ↔ ∃ e, e ∈ dir_listado w
         ∧ ruta = OsPath.join CONFIG_DIR (ent_nombre e)
         ∧ ent_es_archivo e = true
         ∧ extension_admitida (ent_nombre e) = true.
Proof.
  intros Hdir Hnd. unfold candidatos, sorted_str. rewrite sorted_Permutation.
  rewrite list_elem_of_fmap. split.
  - intros (n & -> & Hn). apply elem_of_filter_bool in Hn as [Hn Hc].
    apply list_elem_of_fmap in Hn as (e & -> & He).
    rewrite es_candidato_entrada in Hc by done.
    apply andb_true_iff in Hc as [Hf Hx]. by exists e.
  - intros (e & He & -> & Hf & Hx). exists (ent_nombre e).
    split; [done|]. apply elem_of_filter_bool.
    split; [by apply list_elem_of_fmap_2|].
    rewrite es_candidato_entrada by done. by rewrite Hf, Hx.
Qed.

Lemma registro_de_entrada (w : Mundo) (e : Entrada) :
  dir_existe w = true → NoDup (ent_nombre <$> dir_listado w) →
  e ∈ dir_listado w → ent_es_archivo e = true →
  PyStr.contains "/" (ent_nombre e) = false →
  registro_de w (OsPath.join CONFIG_DIR (ent_nombre e))
  = (λ lineas, registro_inicial (ent_nombre e) (contar_lineas lineas))
    <$> ent_lineas e.
Proof.
  intros Hdir Hnd He Hf Hs. unfold registro_de, lineas_de.
  rewrite (buscar_entrada w e Hdir Hnd He), Hf, (basename_join _ Hs).
  by destruct (ent_lineas e).
Qed.

(** X15.  In a directory whose entries have distinct names without a
    slash, the rows of the report are exactly the regular files of the
    directory with an admitted extension: the [archivo] field is the name
    of the entry itself, and [lineas_codigo] the count of its own lines. *)
Theorem filas_son_entradas (w : Mundo) (filas : list Registro)
    (nombre : string) (n : Z) :
  NoDup (ent_nombre <$> dir_listado w) →
  (∀ e, e ∈ dir_listado w → PyStr.contains "/" (ent_nombre e) = false) →
  csv (ejecutar w).2 = Some filas →
  (∃ f, f ∈ filas ∧ archivo f = nombre ∧ lineas_codigo f = n)
  ↔ (∃ e lineas,
       e ∈ dir_listado w ∧ ent_nombre e = nombre
       ∧ ent_es_archivo e = true ∧ extension_admitida nombre = true
       ∧ ent_lineas e = Some lineas ∧ n = contar_lineas lineas).
Proof.
  intros Hnd Hsep Hcsv.
  destruct (informe_inv w filas Hcsv)
    as (regs & evs & h & Hdir & Hregs & Hnew & Han & _).
  destruct (analizar_Ok regs filas evs Hnew Han) as (_ & Hmismo & _).
  split.
  - intros (f & Hf & <- & <-).
    destruct (Forall2_elem_of_r _ _ _ _ Hmismo Hf) as (r & Hr & Hn & Hl).
    unfold sorted_key in Hr. rewrite sorted_Permutation in Hr.
    destruct (registros_elem_of _ _ _ _ Hregs Hr) as (ruta & Hruta & Hreg).
    apply candidatos_elem_of in Hruta as (e & He & -> & Hfile & Hext);
      [|done|done].
    rewrite registro_de_entrada in Hreg by auto.
    destruct (ent_lineas e) as [lineas|] eqn:Hlin; [|done].
    injection Hreg as <-. exists e, lineas. rewrite Hn, Hl. by cbn.
  - intros (e & lineas & He & <- & Hfile & Hext & Hlin & ->).
    assert (Hruta : OsPath.join CONFIG_DIR (ent_nombre e) ∈ candidatos w).
    { apply candidatos_elem_of; [done|done|]. by exists e. }
    destruct (Forall2_elem_of_l _ _ _ _ (registros_Forall2 _ _ _ Hregs) Hruta)
      as (r & Hr & l & Hl & Hev).
    rewrite abrir_eq in Hl. cbn [fst] in Hl.
    pose proof (registro_de_entrada w e Hdir Hnd He Hfile (Hsep e He)) as Hreg.
    unfold registro_de in Hreg. rewrite Hlin in Hreg.
    destruct (lineas_de w _) as [l'|]; [|done].
    injection Hl as ->. injection Hreg as Hb Hc.
    unfold evento_conteo in Hev. injection Hev as Hn Hcount.
    assert (Hr' : r ∈ sorted_key lineas_codigo regs).
    { unfold sorted_key. by rewrite sorted_Permutation. }
    destruct (Forall2_elem_of_l _ _ _ _ Hmismo Hr') as (f & Hf & Hfn & Hfl).
    exists f. split; [done|]. rewrite Hfn, Hfl, Hn, Hcount. by split.
Qed.

Lemma filas_son_entradas_witness :
  NoDup (ent_nombre <$> dir_listado mundo_mpls)
  ∧ csv (ejecutar mundo_mpls).2 = Some filas_mpls
  ∧ ∃ f, f ∈ filas_mpls ∧ archivo f = "pe1-mpls-srv6.txt"%string
         ∧ lineas_codigo f = contar_lineas (codigo 14).
Proof.
  split; [apply NoDup_nombres_mundo_mpls|].
  split; [vm_compute; reflexivity|].
  apply (filas_son_entradas mundo_mpls filas_mpls).
  - apply NoDup_nombres_mundo_mpls.
  - intros e He. cbn in He.
    apply elem_of_cons in He as [->|He]; [reflexivity|].
    apply list_elem_of_singleton in He as ->. reflexivity.
  - vm_compute; reflexivity.
  - eexists _, (codigo 14). split; [right; left|]. repeat split.
Defined.
